(** * Verification of the ENG209 environment bootstrap tools

    A shallow embedding of [tools/setup.py] and [tools/get_release.py]:
    the conditional cache downloader, the archive extractor, the retrying
    git cloner, the git updater inside [main], the editor extension
    reconciler, the process entry point and the release selection.

    Python strings are Rocq strings (one [ascii] per byte), integers are
    [Z], the file system is a finite map from path to content, and every
    call that leaves the process (a subprocess, a network request, the
    archive reader) is answered by an environment record the definitions
    are parameterised by. *)

From Stdlib Require Import ZArith Ascii Bool Lia.
From Stdlib Require String DecimalString.
From Equations Require Import Equations.
From stdpp Require Import base option list strings gmap.

Local Open Scope Z_scope.

Set Default Proof Using "Type".

(** ** Python string methods *)

Module pystr.

Definition nl : ascii := "010"%char.
Definition slash : ascii := "/"%char.

(** [s.startswith(p)] *)
Fixpoint startswith (p s : string) : bool :=
  match p, s with
  | EmptyString, _ => true
  | String a p', String b s' => Ascii.eqb a b && startswith p' s'
  | String _ _, EmptyString => false
  end.

(** [s.endswith(c)] for a one-character suffix *)
Fixpoint endswith_char (c : ascii) (s : string) : bool :=
  match s with
  | EmptyString => false
  | String a EmptyString => Ascii.eqb a c
  | String _ s' => endswith_char c s'
  end.

(** [p in s] *)
Fixpoint contains (p s : string) : bool :=
  startswith p s ||
  match s with
  | EmptyString => false
  | String _ s' => contains p s'
  end.

(** [s.split(sep)] for a one-character separator: never empty. *)
Fixpoint split (sep : ascii) (s : string) : list string :=
  match s with
  | EmptyString => [EmptyString]
  | String c r =>
      if Ascii.eqb c sep then EmptyString :: split sep r
      else match split sep r with
           | h :: t => String c h :: t
           | [] => [String c EmptyString]
           end
  end.

(** [sep.join(l)] *)
Definition join (sep : string) (l : list string) : string :=
  String.concat sep l.

(** [s * n] *)
Fixpoint repeat (s : string) (n : nat) : string :=
  match n with
  | O => EmptyString
  | S k => s +:+ repeat s k
  end.

Definition lower_char (c : ascii) : ascii :=
  let n := nat_of_ascii c in
  if (65 <=? n)%nat && (n <=? 90)%nat then ascii_of_nat (n + 32) else c.

(** [s.lower()] on ASCII text *)
Fixpoint lower (s : string) : string :=
  match s with
  | EmptyString => EmptyString
  | String c r => String (lower_char c) (lower r)
  end.

(** [c.isspace()] on ASCII: TAB..CR, FS..US and the blank. *)
Definition isspace (c : ascii) : bool :=
  let n := nat_of_ascii c in
  ((9 <=? n)%nat && (n <=? 13)%nat) || ((28 <=? n)%nat && (n <=? 32)%nat).

Fixpoint lstrip (s : string) : string :=
  match s with
  | String c r => if isspace c then lstrip r else s
  | EmptyString => EmptyString
  end.

Fixpoint rstrip (s : string) : string :=
  match s with
  | EmptyString => EmptyString
  | String c r =>
      match rstrip r with
      | EmptyString => if isspace c then EmptyString else String c EmptyString
      | r' => String c r'
      end
  end.

(** [s.strip()] *)
Definition strip (s : string) : string := rstrip (lstrip s).

(** A line boundary of [str.splitlines] in the ASCII range. *)
Definition islinebreak (c : ascii) : bool :=
  let n := nat_of_ascii c in
  ((10 <=? n)%nat && (n <=? 13)%nat) || ((28 <=? n)%nat && (n <=? 30)%nat).

Fixpoint upto_linebreak (s : string) : string :=
  match s with
  | EmptyString => EmptyString
  | String c r => if islinebreak c then EmptyString else String c (upto_linebreak r)
  end.

(** [s.splitlines()[0]]: [None] stands for the IndexError on the empty
    text. *)
Definition first_line (s : string) : option string :=
  match s with
  | EmptyString => None
  | _ => Some (upto_linebreak s)
  end.

Definition isdigit (c : ascii) : bool :=
  let n := nat_of_ascii c in (48 <=? n)%nat && (n <=? 57)%nat.

(** [str(n)] for an integer *)
Definition of_Z (n : Z) : string :=
  DecimalString.NilZero.string_of_int (Z.to_int n).

(** [s.rstrip("/")] *)
Fixpoint rstrip_slash (s : string) : string :=
  match s with
  | EmptyString => EmptyString
  | String c r =>
      match rstrip_slash r with
      | EmptyString => if Ascii.eqb c slash then EmptyString else String c EmptyString
      | r' => String c r'
      end
  end.

(** [s.lstrip("/")] *)
Fixpoint lstrip_slash (s : string) : string :=
  match s with
  | String c r => if Ascii.eqb c slash then lstrip_slash r else s
  | EmptyString => EmptyString
  end.

End pystr.

(** ** [posixpath]: the path functions of the standard library the tools
    call, after CPython 3.12's [Lib/posixpath.py]. *)

Module posixpath.

Import pystr.

Definition isabs (p : string) : bool := startswith "/" p.

(** [os.path.join(a, b)] *)
Definition join2 (a b : string) : string :=
  if startswith "/" b then b
  else if String.eqb a "" || endswith_char slash a then a +:+ b
  else a +:+ "/" +:+ b.

(** One round of the component loop of [normpath]; [acc] is
    [new_comps] with its last element first. *)
Definition norm_step (rooted : bool) (acc : list string) (comp : string)
  : list string :=
  if String.eqb comp "" || String.eqb comp "." then acc
  else if negb (String.eqb comp "..") then comp :: acc
  else match acc with
       | [] => if rooted then [] else [comp]
       | top :: rest => if String.eqb top ".." then comp :: acc else rest
       end.

Definition norm_comps (rooted : bool) (comps : list string) : list string :=
  rev (fold_left (norm_step rooted) comps []).

Definition initial_slashes (p : string) : nat :=
  if startswith "/" p then
    if startswith "//" p && negb (startswith "///" p) then 2%nat else 1%nat
  else 0%nat.

Definition normpath (path : string) : string :=
  if String.eqb path "" then "."
  else
    let n := initial_slashes path in
    let comps := norm_comps (negb (Nat.eqb n 0)) (split slash path) in
    let p := pystr.repeat "/" n +:+ pystr.join "/" comps in
    if String.eqb p "" then "." else p.

(** [os.path.abspath(p)] in working directory [cwd] *)
Definition abspath (cwd p : string) : string :=
  normpath (if isabs p then p else join2 cwd p).

Definition nonempty (s : string) : bool := negb (String.eqb s "").

(** Length of the longest common prefix of two component lists, which
    is what [commonprefix([a, b])] measures. *)
Fixpoint commonprefix_len (a b : list string) : nat :=
  match a, b with
  | x :: a', y :: b' => if String.eqb x y then S (commonprefix_len a' b') else O
  | _, _ => O
  end.

(** [os.path.relpath(path, start)]; [None] is the ValueError raised for
    an empty [path]. *)
Definition relpath (cwd path start : string) : option string :=
  if String.eqb path "" then None
  else
    let start_list := List.filter nonempty (split slash (abspath cwd start)) in
    let path_list := List.filter nonempty (split slash (abspath cwd path)) in
    let i := commonprefix_len start_list path_list in
    let rel_list :=
      List.repeat ".." (length start_list - i) ++ drop i path_list in
    match rel_list with
    | [] => Some "."
    | _ => Some (pystr.join "/" rel_list)
    end.

(** The part of [p] before its last slash, as [head] in
    [posixpath.split]. *)
Fixpoint upto_last_slash (p : string) : string :=
  match p with
  | EmptyString => EmptyString
  | String c r =>
      if pystr.contains "/" r then String c (upto_last_slash r)
      else if Ascii.eqb c slash then "/" else EmptyString
  end.

Definition all_slashes (s : string) : bool :=
  String.eqb (lstrip_slash s) "".

(** [os.path.dirname(p)] *)
Definition dirname (p : string) : string :=
  let head := upto_last_slash p in
  if nonempty head && negb (all_slashes head) then rstrip_slash head else head.

(** The directories [os.makedirs(d)] makes sure exist: [d] and the
    prefixes of [d] that end before a slash. *)
Definition ancestors (d : string) : list string :=
  let cs := split slash d in
  List.filter (fun a => nonempty a && negb (endswith_char slash a))
    (List.map (fun k => pystr.join "/" (take k cs)) (seq 1 (length cs))).

End posixpath.

(** ** Exceptions *)

(** The subclasses of [Exception] the tools raise or let through. *)
Inductive exn :=
| CalledProcessError (cmd : list string) (returncode : Z)
| RuntimeError (msg : string)
| IndexError (msg : string)
| ValueError (msg : string)
| AttributeError (msg : string)
| HTTPError (code : Z) (reason : string)
| OSError (msg : string)
| OtherError (msg : string).

(** What a [raise] carries: [except Exception] catches the first
    constructor only, the two others derive from [BaseException]. *)
Inductive raised :=
| Exception (e : exn)
| KeyboardInterrupt
| SystemExit (code : Z).

Definition repr_str (s : string) : string := "'" +:+ s +:+ "'".

(** [repr] of a list of plain strings *)
Definition repr_list (l : list string) : string :=
  "[" +:+ pystr.join ", " (repr_str <$> l) +:+ "]".

(** [str(e)]; a negative return code is a signal number, printed here in
    the form Python uses for a signal without a name. *)
Definition str_exn (e : exn) : string :=
  match e with
  | CalledProcessError cmd rc =>
      if rc <? 0 then
        "Command '" +:+ repr_list cmd +:+ "' died with unknown signal "
          +:+ pystr.of_Z (- rc) +:+ "."
      else
        "Command '" +:+ repr_list cmd +:+ "' returned non-zero exit status "
          +:+ pystr.of_Z rc +:+ "."
  | RuntimeError msg => msg
  | IndexError msg => msg
  | ValueError msg => msg
  | AttributeError msg => msg
  | HTTPError code reason =>
      "HTTP Error " +:+ pystr.of_Z code +:+ ": " +:+ reason
  | OSError msg => msg
  | OtherError msg => msg
  end.

Inductive outcome (A : Type) :=
| Ret (a : A)
| Raise (r : raised).
Arguments Ret {A} a.
Arguments Raise {A} r.

(** ** Values exchanged with the outside *)

(** A JSON document as [json.load] returns it. *)
#[local] Unset Elimination Schemes.
Inductive json :=
| JNull
| JBool (b : bool)
| JNum (n : Z)
| JStr (s : string)
| JArr (items : list json)
| JObj (fields : list (string * json)).
#[local] Set Elimination Schemes.

(** Python truth value of a loaded document *)
Definition truthy (v : json) : bool :=
  match v with
  | JNull => false
  | JBool b => b
  | JNum n => negb (n =? 0)
  | JStr s => negb (String.eqb s "")
  | JArr l => match l with [] => false | _ => true end
  | JObj l => match l with [] => false | _ => true end
  end.

Fixpoint assoc {V : Type} (k : string) (l : list (string * V)) : option V :=
  match l with
  | [] => None
  | (k', v) :: r => if String.eqb k k' then Some v else assoc k r
  end.

(** [d[k] = v] on an insertion-ordered dict *)
Fixpoint dict_set {V : Type} (k : string) (v : V) (l : list (string * V))
  : list (string * V) :=
  match l with
  | [] => [(k, v)]
  | (k', v') :: r =>
      if String.eqb k k' then (k, v) :: r else (k', v') :: dict_set k v r
  end.

Definition opt_json (o : option string) : json :=
  match o with Some s => JStr s | None => JNull end.

Record request := Request {
  req_url : string;
  req_headers : list (string * json)
}.

Record response := Response {
  status : Z;
  body : string;
  resp_headers : list (string * string)
}.

(** [response.headers.get(name)]: header names compare without case. *)
Fixpoint header_get (name : string) (hs : list (string * string))
  : option string :=
  match hs with
  | [] => None
  | (k, v) :: r =>
      if String.eqb (pystr.lower k) (pystr.lower name) then Some v
      else header_get name r
  end.

Inductive http_outcome :=
| HttpResponse (r : response)
| HttpRaise (r : raised).

(** How a subprocess ends: with a return code and its two output
    streams, or without ever running (the launch raised). *)
Inductive proc_outcome :=
| Completed (returncode : Z) (stdout stderr : string)
| Failed (r : raised).

Record zip_member := ZipInfo {
  filename : string;
  payload : string
}.

(** [ZipInfo.is_dir()] *)
Definition is_dir_member (m : zip_member) : bool :=
  pystr.endswith_char pystr.slash (filename m).

Inductive level := DEBUG | INFO | WARNING | ERROR | CRITICAL.

(** What the process did to the outside, in order. *)
Inductive event :=
| EvSpawn (cmd : list string) (res : proc_outcome)
| EvRequest (req : request)
| EvWrite (path : string) (data : string)
| EvSleep (ms : Z).

(** ** State

    [files] holds the regular files and [dirs] the directories, both
    keyed by the path as written (no symbolic links, no permissions),
    which names one place as long as the path has no [.] or [..]
    component; a path that may have them goes through [locate] below.
    [clock] counts milliseconds; [log] lists the calls made on the logger
    (the handler prints those at [INFO] and above); [trace] is the
    history of outside effects. *)
Record state := State {
  files : gmap string string;
  dirs : gset string;
  clock : Z;
  cwd : string;
  log : list (level * string);
  trace : list event
}.

(** What an outside action leaves behind: its answer, the file system
    after it and the time it took. *)
Record reaction (A : Type) := Reaction {
  answer : A;
  files_after : gmap string string;
  dirs_after : gset string;
  elapsed : N
}.
Arguments Reaction {A} _ _ _ _.
Arguments answer {A} _.
Arguments files_after {A} _.
Arguments dirs_after {A} _.
Arguments elapsed {A} _.

Definition M (A : Type) : Type := state -> outcome A * state.

Definition ret {A : Type} (a : A) : M A := fun s => (Ret a, s).

Definition raise {A : Type} (r : raised) : M A := fun s => (Raise r, s).

Definition bind {A B : Type} (m : M A) (k : A -> M B) : M B :=
  fun s =>
    match m s with
    | (Ret a, s') => k a s'
    | (Raise r, s') => (Raise r, s')
    end.

(** [try: m except ...: h]: the handler picks the exceptions it takes. *)
Definition try_except {A : Type} (m : M A) (h : raised -> option (M A)) : M A :=
  fun s =>
    match m s with
    | (Ret a, s') => (Ret a, s')
    | (Raise r, s') =>
        match h r with
        | Some k => k s'
        | None => (Raise r, s')
        end
    end.

Declare Scope py_scope.
Delimit Scope py_scope with py.
Notation "x <- m ;; k" := (bind m (fun x => k))
  (at level 100, m at next level, right associativity) : py_scope.
Notation "m ;; k" := (bind m (fun _ => k))
  (at level 100, right associativity) : py_scope.
Local Open Scope py_scope.

(** [for x in l: body] *)
Fixpoint for_each {A : Type} (l : list A) (body : A -> M unit) : M unit :=
  match l with
  | [] => ret tt
  | x :: r => body x ;; for_each r body
  end.

(** *** Primitives on the state *)

Definition logger (lv : level) (msg : string) : M unit :=
  fun s => (Ret tt,
    State (files s) (dirs s) (clock s) (cwd s) (log s ++ [(lv, msg)]) (trace s)).

Definition is_file (p : string) (s : state) : bool :=
  bool_decide (is_Some (files s !! p)).

Definition is_dir (p : string) (s : state) : bool :=
  bool_decide (p ∈ dirs s).

Definition exists_ (p : string) (s : state) : bool :=
  is_file p s || is_dir p s.

(** Reading the state without changing it *)
Definition probe {A : Type} (f : state -> A) : M A := fun s => (Ret (f s), s).

(** [open(p, "wb").write(data)] *)
Definition write_file (p data : string) : M unit :=
  fun s =>
    if is_dir p s then
      (Raise (Exception (OSError ("[Errno 21] Is a directory: " +:+ repr_str p))), s)
    else
      (Ret tt,
       State (<[p := data]> (files s)) (dirs s) (clock s) (cwd s) (log s)
         (trace s ++ [EvWrite p data])).

(** [open(p).read()] *)
Definition read_file (p : string) : M string :=
  fun s =>
    match files s !! p with
    | Some data => (Ret data, s)
    | None =>
        (Raise (Exception (OSError
           ("[Errno 2] No such file or directory: " +:+ repr_str p))), s)
    end.

(** [os.makedirs(d, exist_ok=True)]: nothing to do for a directory that
    exists, an error when a regular file is in the way. *)
Definition makedirs (d : string) : M unit :=
  fun s =>
    if String.eqb d "" then
      (Raise (Exception (OSError "[Errno 2] No such file or directory: ''")), s)
    else if is_dir d s then (Ret tt, s)
    else if existsb (fun a => is_file a s) (posixpath.ancestors d) then
      (Raise (Exception (OSError ("[Errno 17] File exists: " +:+ repr_str d))), s)
    else
      (Ret tt,
       State (files s) (dirs s ∪ list_to_set (posixpath.ancestors d))
         (clock s) (cwd s) (log s) (trace s)).

(** [os.chdir(d)] *)
Definition chdir (d : string) : M unit :=
  fun s =>
    if is_dir d s then
      (Ret tt, State (files s) (dirs s) (clock s) d (log s) (trace s))
    else
      (Raise (Exception (OSError
         ("[Errno 2] No such file or directory: " +:+ repr_str d))), s).

(** *** Paths with [.] and [..]

    The target paths of the extractor come out of [os.path.relpath] and
    may hold [.] and [..]. The kernel reads such a path component by
    component, and passes [.] and [..] only below a directory that
    exists: the place it reaches is the key under which the state
    holds it. *)

Definition is_dot (c : string) : bool := String.eqb c "." || String.eqb c "..".

Definition has_dots (p : string) : bool :=
  existsb is_dot (pystr.split pystr.slash p).

(** [here] is a directory; [""] is the working directory and ["/"] the
    root. *)
Definition dir_at (here : string) (s : state) : bool :=
  String.eqb here "" || String.eqb here "/" || is_dir here s.

(** The directory above [here] *)
Definition parent (wd here : string) : string :=
  if String.eqb here "" then posixpath.dirname wd else posixpath.dirname here.

(** Reading the components [comps] from the directory [here] *)
Fixpoint walk (s : state) (here : string) (comps : list string)
  : option string :=
  match comps with
  | [] => Some here
  | c :: rest =>
      if String.eqb c "" then walk s here rest
      else if String.eqb c "." then
        if dir_at here s then walk s here rest else None
      else if String.eqb c ".." then
        if dir_at here s then walk s (parent (cwd s) here) rest else None
      else walk s (posixpath.join2 here c) rest
  end.

(** The place the path [p] leads to; [None] when a [.] or [..] of [p]
    stands below something that is not a directory. *)
Definition locate (s : state) (p : string) : option string :=
  if has_dots p then
    walk s (if posixpath.isabs p then "/" else "") (pystr.split pystr.slash p)
  else Some p.

(** [os.path.exists(p)] *)
Definition path_exists (p : string) (s : state) : bool :=
  if has_dots p then
    match locate s p with
    | Some q => is_file q s || dir_at q s
    | None => false
    end
  else exists_ p s.

(** [open(p, "wb").write(data)] for a path that may hold [.] and [..] *)
Definition open_write (p data : string) : M unit :=
  fun s =>
    match (if String.eqb p "" then None else locate s p) with
    | Some q =>
        if dir_at q s then
          (Raise (Exception
             (OSError ("[Errno 21] Is a directory: " +:+ repr_str p))), s)
        else
          (Ret tt,
           State (<[q := data]> (files s)) (dirs s) (clock s) (cwd s) (log s)
             (trace s ++ [EvWrite p data]))
    | None =>
        (Raise (Exception (OSError
           ("[Errno 2] No such file or directory: " +:+ repr_str p))), s)
    end.

(** The directory [here] is there, made if need be. *)
Definition ensure_dir (here : string) : M unit :=
  if String.eqb here "" || String.eqb here "/" then ret tt else makedirs here.

(** [os.makedirs] along the components [comps] from [here]: the
    directories before a [.] or [..] are made before it is passed. *)
Fixpoint walk_make (here : string) (comps : list string) : M unit :=
  match comps with
  | [] => ensure_dir here
  | c :: rest =>
      if String.eqb c "" then walk_make here rest
      else if String.eqb c "." then ensure_dir here ;; walk_make here rest
      else if String.eqb c ".." then
        ensure_dir here ;;
        wd <- probe cwd ;;
        walk_make (parent wd here) rest
      else walk_make (posixpath.join2 here c) rest
  end.

(** [os.makedirs(d, exist_ok=True)] for a path that may hold [.] and
    [..] *)
Definition os_makedirs (d : string) : M unit :=
  if has_dots d then
    walk_make (if posixpath.isabs d then "/" else "") (pystr.split pystr.slash d)
  else makedirs d.

(** [time.sleep] for [ms] milliseconds *)
Definition sleep (ms : Z) : M unit :=
  fun s => (Ret tt,
    State (files s) (dirs s) (clock s + ms) (cwd s) (log s)
      (trace s ++ [EvSleep ms])).

(** ** The environment *)

(** The parsed command line ([argparse.Namespace]) *)
Record arguments := Arguments {
  base : string;
  clone : bool;
  deep_clone : bool;
  force : bool;
  verbose : bool
}.

(** [parser.parse_args()] returns the namespace or leaves through
    [SystemExit], with code 0 after [--help] and 2 after a usage error. *)
Inductive parse_result :=
| Parsed (args : arguments)
| ParserExit (code : Z).

(** Everything the tools ask of the machine they run on. The functions
    that answer for the outside see the whole state, history included, so
    that the same request may be answered differently the second time. *)
Record env := Env {
  (** [Path.home()] *)
  home : string;
  (** [hashlib.sha256(url.encode()).hexdigest()] *)
  sha256_hex : string -> string;
  (** [json.load]; [None] is a [JSONDecodeError] *)
  json_load : string -> option json;
  (** [json.dump] *)
  json_dump : json -> string;
  (** [urllib.request.urlopen] *)
  urlopen : request -> state -> http_outcome;
  (** [zipfile.ZipFile(path).infolist()] with each member's content;
      [None] is a [BadZipFile] *)
  zip_infolist : string -> option (list zip_member);
  (** [subprocess.run] *)
  spawn : list string -> state -> reaction proc_outcome;
  (** [venv.EnvBuilder(...).create] *)
  venv_create : string -> state -> reaction (option raised);
  (** [sys.version_info[:2]] *)
  version_info : Z * Z;
  (** [sys.argv] as [argparse] reads it *)
  parse_args : parse_result;
  (** module constants computed from [os.environ] at import *)
  GITHUB_PROJECT : string;
  COURSE_NAME : string;
  (** the editor configuration writers, outside the verified core *)
  setup_vscode : string -> string -> M unit;
  setup_vscode_global : string -> M unit
}.

Definition PACKAGES : list string :=
  ["ipykernel"; "ipywidgets"; "jupyterlab-latex"; "matplotlib"; "plotly";
   "numpy"; "pandas"; "scikit-learn"; "func_timeout"; "bpython"; "mypy";
   "nbformat"; "pooch"; "tqdm"; "pandas-stubs"; "scipy-stubs"; "ipympl"].

Record extension_set := ExtensionSet {
  install : list string;
  uninstall : list string
}.

Definition VSCODE_EXTENSIONS : extension_set :=
  {| install :=
       ["ms-python.python@2025.12.0"; "ms-python.black-formatter@2025.2.0";
        "ms-python.mypy-type-checker@2025.2.0"; "ms-toolsai.jupyter@2025.7.0";
        "matangover.mypy@0.4.2"; "jock.svg@1.5.4"];
     uninstall := ["formulahendry.code-runner"] |}.

Definition VENV_DIR : string := "venv".

Record completed_process := CompletedProcess {
  returncode : Z;
  stdout : string;
  stderr : string
}.

Section Tools.

Context (E : env).

(** [run(cmd, verbose, capture_output=..., check=...)]. The flags
    [verbose] and [capture_output] only choose where the child's output
    goes; the streams are read by the callers that capture them. *)
Definition run (cmd : list string) (verbose capture_output check : bool)
  : M completed_process :=
  fun s =>
    let r := spawn E cmd s in
    let s' := State (files_after r) (dirs_after r)
                (clock s + Z.of_N (elapsed r)) (cwd s) (log s)
                (trace s ++ [EvSpawn cmd (answer r)]) in
    match answer r with
    | Completed rc out err =>
        if check && negb (rc =? 0)
        then (Raise (Exception (CalledProcessError cmd rc)), s')
        else (Ret (CompletedProcess rc out err), s')
    | Failed e => (Raise e, s')
    end.

(** *** ConditionalCacheDownloader *)

Definition cache_dir : string := home E +:+ "/.cache/eng209".

Definition cache_path (url : string) : string :=
  cache_dir +:+ "/" +:+ sha256_hex E url.

(** [cache_path.with_suffix(".meta.json")]: the digest has no dot, the
    suffix is appended. *)
Definition meta_path (url : string) : string :=
  cache_path url +:+ ".meta.json".

(** [meta.get(k)] on the loaded document *)
Definition meta_get (meta : json) (k : string) : M json :=
  match meta with
  | JObj fields => ret (default JNull (assoc k fields))
  | _ => raise (Exception (AttributeError "object has no attribute 'get'"))
  end.

(** The conditional headers read from the metadata file *)
Definition conditional_headers (url : string)
  (headers : list (string * json)) : M (list (string * json)) :=
  text <- read_file (meta_path url) ;;
  meta <- match json_load E text with
          | Some doc => ret doc
          | None => raise (Exception (OtherError "JSONDecodeError"))
          end ;;
  etag <- meta_get meta "ETag" ;;
  let headers := if truthy etag then dict_set "If-None-Match" etag headers
                 else headers in
  modified <- meta_get meta "Last-Modified" ;;
  let headers := if truthy modified
                 then dict_set "If-Modified-Since" modified headers
                 else headers in
  ret headers.

(** [urllib.request.urlopen(request)] *)
Definition urlopen_ (req : request) : M response :=
  fun s =>
    let s' := State (files s) (dirs s) (clock s) (cwd s) (log s)
                (trace s ++ [EvRequest req]) in
    match urlopen E req s with
    | HttpResponse r => (Ret r, s')
    | HttpRaise e => (Raise e, s')
    end.

Definition response_meta (url : string) (r : response) : json :=
  JObj [("Url", JStr url);
        ("ETag", opt_json (header_get "ETag" (resp_headers r)));
        ("Last-Modified", opt_json (header_get "Last-Modified" (resp_headers r)))].

(** The request [download_with_etag] prepares: the conditional headers
    are attached when the metadata file exists. *)
Definition build_request (url : string) : M request :=
  let headers := [("User-Agent", JStr "Client")] in
  has_meta <- probe (exists_ (meta_path url)) ;;
  headers <- (if has_meta : bool then conditional_headers url headers
              else ret headers) ;;
  ret (Request url headers).

(** The [try] statement of [download_with_etag] *)
Definition fetch (url : string) (req : request) : M string :=
  try_except
    (response <- urlopen_ req ;;
     if status response =? 304 then
       logger DEBUG "Not modified, using cache." ;;
       ret (cache_path url)
     else
       logger DEBUG ("Downloading: " +:+ url) ;;
       write_file (cache_path url) (body response) ;;
       write_file (meta_path url) (json_dump E (response_meta url response)) ;;
       ret (cache_path url))
    (fun r =>
       match r with
       | Exception (HTTPError code _) =>
           if code =? 304 then
             Some (logger DEBUG "Not modified (304), using cache." ;;
                   ret (cache_path url))
           else None
       | _ => None
       end).

Definition download_with_etag (url : string) : M string :=
  makedirs cache_dir ;;
  req <- build_request url ;;
  fetch url req.

Definition download_github_zip (url : string) : M string :=
  logger INFO ("Download archive: " +:+ url) ;;
  try_except (download_with_etag url)
    (fun r =>
       match r with
       | Exception e =>
           Some (raise (Exception (RuntimeError
                   ("Download failed: " +:+ url +:+ String (pystr.nl) ""
                      +:+ str_exn e))))
       | _ => None
       end).

(** *** ArchiveExtractor *)

(** [zipfile.ZipFile(str(path), "r")] and [infolist()] *)
Definition zip_open (path : string) : M (list zip_member) :=
  data <- read_file path ;;
  match zip_infolist E data with
  | Some members => ret members
  | None => raise (Exception (OtherError "File is not a zip file"))
  end.

(** [members[0].filename.split("/")[0] + "/"] *)
Definition root_prefix_of (members : list zip_member) : M string :=
  match members with
  | first :: _ =>
      ret (hd "" (pystr.split pystr.slash (filename first)) +:+ "/")
  | [] => raise (Exception (IndexError "list index out of range"))
  end.

(** [os.path.relpath(member.filename, root_prefix)] *)
Definition member_relpath (root_prefix : string) (member : zip_member)
  : M string :=
  wd <- probe cwd ;;
  match posixpath.relpath wd (filename member) root_prefix with
  | Some rel => ret rel
  | None => raise (Exception (ValueError "no path specified"))
  end.

(** The body of the loop over the members *)
Definition extract_member (root_prefix extract_to : string)
  (overwrite : bool) (force_overwrite : gset string) (member : zip_member)
  : M unit :=
  if is_dir_member member then ret tt
  else
    rel <- member_relpath root_prefix member ;;
    let target_path := posixpath.join2 extract_to rel in
    present <- probe (path_exists target_path) ;;
    if overwrite || negb present || bool_decide (rel ∈ force_overwrite) then
      os_makedirs (posixpath.dirname target_path) ;;
      open_write target_path (payload member)
    else
      logger DEBUG ("Skipped existing file: " +:+ target_path).

Definition extract_archive (path extract_to : string)
  (overwrite verbose : bool) (force_overwrite : gset string) : M unit :=
  logger INFO ("Extract class materials: " +:+ extract_to) ;;
  present <- probe (path_exists extract_to) ;;
  (if present : bool then
     if overwrite then logger WARNING "Overwrite existing files"
     else logger WARNING "Existing files are not updated (use --force)"
   else ret tt) ;;
  members <- zip_open path ;;
  root_prefix <- root_prefix_of members ;;
  for_each members
    (extract_member root_prefix extract_to overwrite force_overwrite).

(** *** ExtensionReconciler *)

Definition catch_called_process_error {A : Type} (h : M A)
  : raised -> option (M A) :=
  fun r =>
    match r with
    | Exception (CalledProcessError _ _) => Some h
    | _ => None
    end.

(** One round of the first loop: [true] when the name joins
    [fail_install]. *)
Definition install_extension (verbose : bool) (ext : string) : M bool :=
  try_except
    ((if pystr.contains "@" ext
      then run ["code"; "--install-extension"; ext] verbose false true
      else run ["code"; "--install-extension"; ext; "--force"] verbose false true) ;;
     sleep 500 ;;
     ret false)
    (catch_called_process_error (ret true)).

(** One round of the second loop *)
Definition uninstall_extension (verbose : bool) (ext : string) : M bool :=
  try_except
    (run ["code"; "--uninstall-extension"; ext] verbose false true ;;
     sleep 500 ;;
     ret false)
    (catch_called_process_error (ret true)).

(** A loop that appends to a failure list the names whose round
    failed. *)
Fixpoint collect_failures (round : string -> M bool) (exts fail : list string)
  : M (list string) :=
  match exts with
  | [] => ret fail
  | ext :: rest =>
      failed <- round ext ;;
      collect_failures round rest (if failed : bool then fail ++ [ext] else fail)
  end.

Definition manage_vscode_extensions (exts : extension_set) (verbose : bool)
  : M unit :=
  logger INFO "Managing VS Code extensions (user-level)" ;;
  fail_install <- collect_failures (install_extension verbose) (install exts) [] ;;
  fail_uninstall <- collect_failures (uninstall_extension verbose) (uninstall exts) [] ;;
  for_each fail_install (fun ext =>
    logger WARNING ("Could not install VS Code extension '" +:+ ext +:+ "'")) ;;
  for_each fail_uninstall (fun ext =>
    logger WARNING ("Could not uninstall extension '" +:+ ext
                      +:+ "' (maybe not installed)")).

(** *** RetryingGitCloner *)

Definition clone_command (url dest : string) (deep : bool) : list string :=
  if deep then ["git"; "clone"; url; dest]
  else ["git"; "clone"; "--depth"; "1"; "--single-branch"; url; dest].

Definition inspect {A : Type} (a : A) : {b : A | a = b} :=
  exist _ a eq_refl.

(** The [while] loop: [true] when an attempt succeeded and the function
    returned from inside the loop, [false] when the time ran out. The
    loop ends because every failed round sleeps for a second. *)
Equations clone_attempts (url dest : string) (timeout : Z)
  (verbose deep : bool) (start : Z) (s : state) : outcome bool * state
  by wf (Z.to_nat (start + 1000 * timeout - clock s)) lt :=
clone_attempts url dest timeout verbose deep start s
  with inspect (clock s - start <? 1000 * timeout) := {
  | exist _ false _ => (Ret false, s)
  | exist _ true Hguard
      with inspect (run (clone_command url dest deep) verbose false true s) := {
      | exist _ (Ret _, s1) _ => (Ret true, s1)
      | exist _ (Raise (Exception (CalledProcessError _ _)), s1) Hrun =>
          clone_attempts url dest timeout verbose deep start
            (snd (sleep 1000 s1))
      | exist _ (Raise r, s1) _ => (Raise r, s1) } }.
Next Obligation.
  intros url dest timeout v deep start s cmd rc s1 Hrun Hguard _.
  simpl in Hrun, Hguard. apply Z.ltb_lt in Hguard. unfold run in Hrun.
  destruct (answer (spawn E _ s)) as [rc' out err|e];
    [destruct (true && negb (rc' =? 0))|]; inversion Hrun; subst; simpl; lia.
Qed.

Definition git_clone_with_retries (url dest : string) (timeout : Z)
  (verbose deep : bool) : M unit :=
  logger INFO ("Cloning project: " +:+ url) ;;
  start <- probe clock ;;
  returned <- clone_attempts url dest timeout verbose deep start ;;
  if returned : bool then ret tt
  else
    present <- probe (exists_ dest) ;;
    if present : bool then ret tt
    else raise (Exception (RuntimeError ("Failed to clone " +:+ url))).

(** *** Pipeline stages *)

Definition catch_exception {A : Type} (h : exn -> M A)
  : raised -> option (M A) :=
  fun r =>
    match r with
    | Exception e => Some (h e)
    | _ => None
    end.

(** [verify_python(PYTHON_VERSION)] with [PYTHON_VERSION = "3.12.2"] *)
Definition verify_python : M unit :=
  let '(required_major, required_minor) := (3, 12) in
  let '(current_major, current_minor) := version_info E in
  if (current_major =? required_major) && (current_minor =? required_minor)
  then logger INFO ("Python OK: " +:+ pystr.of_Z current_major +:+ "."
                      +:+ pystr.of_Z current_minor)
  else raise (Exception (RuntimeError
         ("Python " +:+ pystr.of_Z required_major +:+ "."
            +:+ pystr.of_Z required_minor +:+ " required, found "
            +:+ pystr.of_Z current_major +:+ "."
            +:+ pystr.of_Z current_minor))).

(** The shared shape of [verify_vscode] and [verify_git] *)
Definition verify_tool (tool label missing : string) : M bool :=
  try_except
    (p <- run [tool; "--version"] false true true ;;
     let output := pystr.strip (stdout p) in
     match pystr.first_line output with
     | Some line => logger INFO (label +:+ line) ;; ret true
     | None => raise (Exception (IndexError "list index out of range"))
     end)
    (catch_exception (fun _ => logger WARNING missing ;; ret false)).

Definition verify_vscode (verbose : bool) : M bool :=
  verify_tool "code" "VS Code OK: " "VS Code not found (Skipping extension setup)".

Definition verify_git (verbose : bool) : M bool :=
  verify_tool "git" "GIT OK: " "Git not found".

(** An outside action taking effect on the state *)
Definition react {A : Type} (f : state -> reaction A) : M A :=
  fun s =>
    let r := f s in
    (Ret (answer r),
     State (files_after r) (dirs_after r) (clock s + Z.of_N (elapsed r))
       (cwd s) (log s) (trace s)).

Definition create_virtualenv (parent_path : string) : M string :=
  let venv_path := parent_path +:+ "/" +:+ VENV_DIR in
  makedirs (venv_path +:+ "/lib64") ;;
  logger INFO ("Creating venv: " +:+ venv_path) ;;
  failure <- react (venv_create E venv_path) ;;
  match failure with
  | Some r => raise r
  | None => ret venv_path
  end.

Definition install_packages (venv_path : string) (verbose : bool) : M unit :=
  let pip_path := venv_path +:+ "/bin/pip" in
  logger INFO "Installing Python packages to venv" ;;
  for_each PACKAGES (fun pkg =>
    run [pip_path; "install"; "--require-virtualenv"; "--no-input"; pkg]
      verbose false true ;;
    ret tt).

(** *** GitRepoUpdater: the [try] statement of [main] *)

Definition update_commands (verbose : bool) : M unit :=
  run ["git"; "stash"; "push"; "-m"; "autostash before update"] verbose false true ;;
  run ["git"; "fetch"; "--tags"] verbose false true ;;
  run ["git"; "fetch"; "origin"] verbose false true ;;
  head <- run ["git"; "rev-parse"; "--abbrev-ref"; "HEAD"] false true true ;;
  let current_branch := pystr.strip (stdout head) in
  run ["git"; "reset"; "--hard"; "origin/" +:+ current_branch] verbose false true ;;
  stash_result <- run ["git"; "stash"; "pop"] verbose true false ;;
  if pystr.contains "conflict" (pystr.lower (stdout stash_result))
     || pystr.contains "conflict" (pystr.lower (stderr stash_result))
  then raise (Exception (RuntimeError
         "Merge conflict occurred while applying stashed changes"))
  else ret tt.

Definition update_project (verbose : bool) : M unit :=
  try_except (update_commands verbose)
    (catch_exception (fun e =>
       logger ERROR ("Update failed: " +:+ str_exn e) ;;
       logger ERROR
         "Your local changes may still be stashed. Resolve conflicts manually if needed.")).

(** *** Pipeline Orchestrator *)

Definition CODE_ARCHIVE : string := GITHUB_PROJECT E +:+ "/archive/main.zip".

(** [main] from the clone decision to the end of the update or
    extraction *)
Definition main_checkout (args : arguments) (has_git : bool)
  (course_path : string) : M unit :=
  (if clone args || deep_clone args then
     git_present <- probe (is_dir (course_path +:+ "/.git")) ;;
     if negb git_present then
       (if negb has_git then
          raise (Exception (RuntimeError
            "git command not found, cannot clone project"))
        else ret tt) ;;
       present <- probe (exists_ course_path) ;;
       (if present : bool then
          raise (Exception (RuntimeError
            ("cannot clone (" +:+ course_path
               +:+ " exists and is not a git repository)")))
        else ret tt) ;;
       git_clone_with_retries (GITHUB_PROJECT E +:+ ".git") course_path 15
         (verbose args) (deep_clone args)
     else logger INFO ("Using existing project: " +:+ course_path)
   else ret tt) ;;
  git_present <- probe (is_dir (course_path +:+ "/.git")) ;;
  if git_present : bool then
    if has_git then
      chdir course_path ;;
      logger INFO ("Updating project: " +:+ course_path) ;;
      update_project (verbose args)
    else
      logger WARNING "Git command not found, cannot update existing git project"
  else
    archive_file <- download_github_zip CODE_ARCHIVE ;;
    extract_archive archive_file course_path (force args) (verbose args)
      {["update.py"]} ;;
    chdir course_path.

(** [main] from the virtual environment to the end *)
Definition main_provision (args : arguments) (has_vscode : bool)
  (course_path : string) : M unit :=
  venv_path <- create_virtualenv course_path ;;
  install_packages venv_path (verbose args) ;;
  setup_vscode E course_path venv_path ;;
  setup_vscode_global E (home E +:+ "/.config/Code/User") ;;
  (if has_vscode then manage_vscode_extensions VSCODE_EXTENSIONS (verbose args)
   else ret tt) ;;
  let update_script := course_path +:+ "/update.py" in
  present <- probe (exists_ update_script) ;;
  (if present : bool then
     logger INFO "Running post-install update" ;;
     run [venv_path +:+ "/bin/python3"; update_script] (verbose args) false true ;;
     ret tt
   else ret tt) ;;
  (if has_vscode then
     logger INFO "Launching VS Code..." ;;
     run ["code"; course_path] (verbose args) false true ;;
     ret tt
   else ret tt) ;;
  logger INFO "Project setup complete..." ;;
  logger INFO "You're ready to start coding! 🚀".

Definition main : M unit :=
  args <- match parse_args E with
          | Parsed args => ret args
          | ParserExit code => raise (SystemExit code)
          end ;;
  verify_python ;;
  has_git <- verify_git false ;;
  has_vscode <- verify_vscode (verbose args) ;;
  base_present <- probe (exists_ (base args)) ;;
  (if base_present : bool then ret tt
   else raise (Exception (RuntimeError
          ("Target folder " +:+ base args +:+ " does not exist")))) ;;
  logger INFO ("Base folder OK: " +:+ base args) ;;
  wd <- probe cwd ;;
  let course_path :=
    posixpath.abspath wd (posixpath.join2 (base args) (COURSE_NAME E)) in
  main_checkout args has_git course_path ;;
  main_provision args has_vscode course_path.

(** The [if __name__ == "__main__"] block: the exit status of the
    process and the state it leaves. *)
Definition dunder_main (s : state) : Z * state :=
  match main s with
  | (Ret _, s') => (0, s')
  | (Raise KeyboardInterrupt, s') =>
      (0, snd (logger CRITICAL (String "013" "Interrupted") s'))
  | (Raise (SystemExit code), s') => (code, s')
  | (Raise (Exception e), s') =>
      (1, snd (logger CRITICAL ("Error: " +:+ str_exn e) s'))
  end.

End Tools.

(** ** [get_release.py]: release selection *)

Module get_release.

Import pystr.

Record release := Release {
  tag_name : string;
  assets : list (string * string)
}.

(** The longest run of decimal digits at the head of [s], and the rest:
    what a greedy [\d+] consumes on byte strings. *)
Fixpoint span_digits (s : string) : string * string :=
  match s with
  | String c r =>
      if isdigit c then let '(d, rest) := span_digits r in (String c d, rest)
      else (EmptyString, s)
  | EmptyString => (EmptyString, EmptyString)
  end.

(** Up to [n] groups [\.\d+], greedily *)
Fixpoint dot_groups (n : nat) (s : string) : string * string :=
  match n with
  | O => (EmptyString, s)
  | S k =>
      match s with
      | String c r =>
          if Ascii.eqb c "." then
            match span_digits r with
            | (EmptyString, _) => (EmptyString, s)
            | (d, rest) =>
                let '(g, rest') := dot_groups k rest in
                ("." +:+ d +:+ g, rest')
            end
          else (EmptyString, s)
      | EmptyString => (EmptyString, s)
      end
  end.

Definition no_newline (s : string) : bool :=
  negb (contains (String nl "") s).

(** The tail [(?:-(.+))?$] of the pattern: [Some label] when the rest
    of the tag matches it. The dot matches no newline and [$] also
    matches just before a final newline. *)
Definition label_tail (rest : string) : option (option string) :=
  match rest with
  | EmptyString => Some None
  | String c r =>
      if String.eqb rest (String nl "") then Some None
      else if Ascii.eqb c "-" then
        let body := if endswith_char nl r
                    then String.substring 0 (String.length r - 1)%nat r else r in
        if negb (String.eqb body "") && no_newline body
        then Some (Some body) else None
      else None
  end.

(** [parse_tag(tag)]: [re.match] of
    [^(v\d+(?:\.\d+){0,2})(?:-(.+))?$] and its two groups. Every
    quantifier of the pattern is followed by something its own
    repetition cannot start with, so the greedy reading is the only
    one. *)
Definition parse_tag (tag : string) : option string * option string :=
  match tag with
  | String c r =>
      if Ascii.eqb c "v" then
        match span_digits r with
        | (EmptyString, _) => (None, None)
        | (major, rest) =>
            let '(groups, rest') := dot_groups 2 rest in
            match label_tail rest' with
            | Some label => (Some ("v" +:+ major +:+ groups), label)
            | None => (None, None)
            end
        end
      else (None, None)
  | EmptyString => (None, None)
  end.

(** [int(s)] for a string of decimal digits *)
Definition int_of_digits (s : string) : option N :=
  match s with
  | EmptyString => None
  | _ =>
      if forallb isdigit (String.list_ascii_of_string s)
      then Some (fold_left
                   (fun acc c => (10 * acc + N.of_nat (nat_of_ascii c - 48))%N)
                   (String.list_ascii_of_string s) 0%N)
      else None
  end.

(** [packaging.version.Version(s)] on the dotted numbers [parse_tag]
    lets through: the release tuple, [None] for [InvalidVersion]. *)
Definition Version (s : string) : option (list N) :=
  mapM int_of_digits (split "." s).

Fixpoint drop_zeros (l : list N) : list N :=
  match l with
  | 0%N :: r => drop_zeros r
  | _ => l
  end.

(** The comparison key of a version: its release tuple without the
    trailing zeros. *)
Definition version_key (release : list N) : list N :=
  rev (drop_zeros (rev release)).

(** [a < b] on tuples of integers *)
Fixpoint tuple_lt (a b : list N) : bool :=
  match a, b with
  | _, [] => false
  | [], _ :: _ => true
  | x :: a', y :: b' =>
      if (x <? y)%N then true
      else if (y <? x)%N then false
      else tuple_lt a' b'
  end.

Definition version_gt (a b : list N) : bool :=
  tuple_lt (version_key b) (version_key a).

(** [max(l, key=lambda x: x[0])] after its first element [best]: a
    later element replaces the best one only when strictly greater. *)
Fixpoint max_from {A : Type} (best : list N * A) (l : list (list N * A))
  : list N * A :=
  match l with
  | [] => best
  | x :: r => max_from (if version_gt (fst x) (fst best) then x else best) r
  end.

Definition is_set (o : option string) : bool :=
  match o with
  | Some s => negb (String.eqb s "")
  | None => false
  end.

Section Selection.

(** [re.match(pattern, text) is not None]; [None] is the [re.error]
    of a pattern that does not compile. *)
Variable re_match : string -> string -> option bool.

(** One round of the loop: [Some None] for [continue], [Some (Some x)]
    for the pair appended to [matches]. *)
Definition consider (version_prefix label_regex : option string)
  (r : release) : option (option (list N * release)) :=
  let '(version_tag, label) := parse_tag (tag_name r) in
  match version_tag with
  | None => Some None
  | Some vt =>
      if is_set version_prefix
         && negb (startswith (default "" version_prefix) vt)
      then Some None
      else
        skip ← (if is_set label_regex then
                  match label with
                  | None => Some true
                  | Some l => negb <$> re_match (default "" label_regex) l
                  end
                else Some false);
        if skip : bool then Some None
        else
          match Version (String.substring 1 (String.length vt - 1)%nat vt) with
          | Some version_obj => Some (Some (version_obj, r))
          | None => Some None
          end
  end.

Fixpoint matches_of (version_prefix label_regex : option string)
  (releases : list release) : option (list (list N * release)) :=
  match releases with
  | [] => Some []
  | r :: rest =>
      x ← consider version_prefix label_regex r;
      l ← matches_of version_prefix label_regex rest;
      Some (match x with Some m => m :: l | None => l end)
  end.

(** The outer [option] is [None] when [re.match] raised. *)
Definition select_latest_matching_release (releases : list release)
  (version_prefix label_regex : option string) : option (option release) :=
  matches ← matches_of version_prefix label_regex releases;
  match matches with
  | [] => Some None
  | first :: rest => Some (Some (snd (max_from first rest)))
  end.

End Selection.

End get_release.

(** ** [get_release.py]: the list of releases *)

(** What [requests.get] gives for one page: a response with its status
    and, when the body is JSON, the document; or the exception of a
    request that did not get through. *)
Record page_response := PageResponse {
  page_status : Z;
  page_reason : string;
  page_json : option json
}.

Inductive page_outcome :=
| PageAnswer (r : page_response)
| PageRaise (r : raised).

(** The items [list.extend] takes from a document that is not empty: the
    elements of an array, the keys of an object, the characters of a
    string; a number and [True] are not iterable. *)
Definition extend_items (batch : json) : option (list json) :=
  match batch with
  | JArr items => Some items
  | JObj fields => Some ((λ kv, JStr kv.1) <$> fields)
  | JStr s => Some ((λ c, JStr (String c "")) <$> String.list_ascii_of_string s)
  | _ => None
  end.

Section ReleaseFeed.

(** [requests.get(url, params={"page": page, "per_page": per_page})] *)
Variable requests_get : string → Z → Z → page_outcome.

(** The loop of [get_release_assets] from page [page] on, with the
    releases collected so far; [fuel] bounds the number of pages, and
    [None] says that it did not suffice. *)
Fixpoint get_release_pages (fuel : nat) (url : string) (per_page page : Z)
  (releases : list json) : option (outcome (list json)) :=
  match fuel with
  | O => None
  | S fuel' =>
      match requests_get url page per_page with
      | PageRaise r => Some (Raise r)
      | PageAnswer response =>
          (* response.raise_for_status() *)
          if (400 <=? page_status response) && (page_status response <? 600)
          then Some (Raise (Exception
                 (HTTPError (page_status response) (page_reason response))))
          else
            match page_json response with
            | None => Some (Raise (Exception (ValueError "JSONDecodeError")))
            | Some batch =>
                if negb (truthy batch) then Some (Ret releases)
                else
                  match extend_items batch with
                  | None =>
                      Some (Raise (Exception
                        (OtherError "TypeError: object is not iterable")))
                  | Some items =>
                      get_release_pages fuel' url per_page (page + 1)
                        (releases ++ items)
                  end
            end
      end
  end.

Definition get_release_assets (fuel : nat) (repo : string) (per_page : Z)
  : option (outcome (list json)) :=
  get_release_pages fuel
    ("https://api.github.com/repos/" +:+ repo +:+ "/releases") per_page 1 [].

(** The page is answered without an error status by an array that is
    not empty. *)
Definition full_page (url : string) (per_page page : Z) (items : list json)
  : Prop :=
  items ≠ [] ∧
  ∃ status reason,
    requests_get url page per_page =
      PageAnswer (PageResponse status reason (Some (JArr items))) ∧
    ¬ (400 ≤ status < 600).

(** The page is answered without an error status by an empty
    document. *)
Definition empty_page (url : string) (per_page page : Z) : Prop :=
  ∃ status reason batch,
    requests_get url page per_page =
      PageAnswer (PageResponse status reason (Some batch)) ∧
    ¬ (400 ≤ status < 600) ∧ truthy batch = false.

(** The page is answered with an error status. *)
Definition error_page (url : string) (per_page page : Z) (status : Z)
  (reason : string) : Prop :=
  400 ≤ status < 600 ∧
  ∃ doc, requests_get url page per_page =
           PageAnswer (PageResponse status reason doc).

End ReleaseFeed.

(** ** [setup.py]: what the console shows *)

Module pyslice.

Fixpoint str_take (n : nat) (s : string) : string :=
  match n, s with
  | S k, String c r => String c (str_take k r)
  | _, _ => EmptyString
  end.

Fixpoint str_drop (n : nat) (s : string) : string :=
  match n, s with
  | S k, String _ r => str_drop k r
  | _, _ => s
  end.

(** The bound of a slice as Python reads it: counted from the end when
    negative, and kept within the string. *)
Definition bound (s : string) (p : Z) : nat :=
  Z.to_nat (if p <? 0 then Z.max 0 (Z.of_nat (String.length s) + p) else p).

(** [s[:p]] *)
Definition slice_to (s : string) (p : Z) : string := str_take (bound s p) s.

(** [s[p:]] *)
Definition slice_from (s : string) (p : Z) : string := str_drop (bound s p) s.

(** [s.find(c)] for a one-character [c]: the first index, or -1. *)
Fixpoint find (c : ascii) (s : string) : Z :=
  match s with
  | EmptyString => -1
  | String a r =>
      if Ascii.eqb a c then 0
      else let n := find c r in if n <? 0 then -1 else n + 1
  end.

(** [s.lstrip(c)] for a one-character [c] *)
Fixpoint lstrip_char (c : ascii) (s : string) : string :=
  match s with
  | String a r => if Ascii.eqb a c then lstrip_char c r else s
  | EmptyString => EmptyString
  end.

(** [min(l)] of a list of integers that is not empty *)
Definition min_list (first : Z) (rest : list Z) : Z :=
  fold_left Z.min rest first.

(** [d.get(k, default)] on a dict with integer keys *)
Fixpoint get_int {V : Type} (k : Z) (default : V) (d : list (Z * V)) : V :=
  match d with
  | [] => default
  | (k', v) :: r => if k =? k' then v else get_int k default r
  end.

End pyslice.

Module LogFormatter.

Import pyslice.

Definition cr : ascii := "013"%char.

(** The escape character that opens a terminal control sequence *)
Definition esc : ascii := "027"%char.

(** The level numbers of [logging] *)
Definition levelno (lv : level) : Z :=
  match lv with
  | DEBUG => 10
  | INFO => 20
  | WARNING => 30
  | ERROR => 40
  | CRITICAL => 50
  end.

Definition SYMBOLS : list (Z * string) :=
  [(10, "?"); (20, "✓"); (30, "!"); (40, "✗"); (50, "✖")].

Definition COLORS : list (Z * string) :=
  [(10, String esc "[1;90m"); (20, String esc "[1;32m");
   (30, String esc "[1;33m"); (40, String esc "[1;31m");
   (50, String esc "[41m" +:+ String esc "[97m")].

Definition RESET : string := String esc "[0m".

Definition BOLD : string := String esc "[1m".

Record t := Make {
  use_color : bool
}.

(** [LogFormatter(use_color)], with [isatty] for [sys.stdout.isatty()] *)
Definition init (isatty : bool) (use_color : bool) : t :=
  Make (use_color && isatty).

(** [[message.find(c) for c in "(:" if c in message]] *)
Definition positions (message : string) : list Z :=
  (if pystr.contains "(" message then [find "(" message] else []) ++
  (if pystr.contains ":" message then [find ":" message] else []).

(** [format(record)] for a record of level number [no] whose message is
    [message] *)
Definition format (self : t) (isatty : bool) (no : Z) (message : string)
  : string :=
  let label := get_int no "?" SYMBOLS in
  let prefix :=
    if pystr.startswith (String cr "") message && isatty
    then String cr "" else "" in
  let message := lstrip_char cr message in
  if use_color self then
    let color := get_int no "" COLORS in
    let label := color +:+ label +:+ RESET in
    let message :=
      match positions message with
      | [] => BOLD +:+ message +:+ RESET
      | first :: rest =>
          let pos := min_list first rest in
          BOLD +:+ slice_to message pos +:+ RESET +:+ slice_from message pos
      end in
    prefix +:+ label +:+ " " +:+ message
  else prefix +:+ label +:+ " " +:+ message.

End LogFormatter.

Module ProgressBar.

Import pyslice.

Definition esc : ascii := "027"%char.

(** The four characters of the spinner, the last one a backslash *)
Definition SPINNER : string := "|/-" +:+ String "092" "".

Record t := Make {
  width : Z;
  fill : string;
  verbose : bool;
  position : Z;
  is_terminal : bool
}.

(** [ProgressBar(width, fill, verbose)], with [isatty] for
    [sys.stdout.isatty()] *)
Definition init (isatty : bool) (width : Z) (fill : string) (verbose : bool)
  : t :=
  Make width fill verbose 0 isatty.

(** [s * n] for an integer [n]: empty when [n] is not positive *)
Definition times (s : string) (n : Z) : string := pystr.repeat s (Z.to_nat n).

(** [update(progress)]: the text it prints, [None] when it prints
    nothing. *)
Definition update (self : t) (progress : Z) : option string :=
  if verbose self || negb (is_terminal self) then None
  else
    let spinner_char :=
      String.substring
        (Z.to_nat (progress mod Z.of_nat (String.length SPINNER))) 1 SPINNER in
    let dots := times "." (width self) in
    let fill := times (fill self) (width self) in
    if progress =? 0 then
      Some ("   " +:+ String esc "[90m" +:+ dots +:+ String esc "[0m"
              +:+ spinner_char +:+ String esc "[1D")
    else
      let filled_part := slice_to fill progress in
      let empty_part := slice_from dots progress in
      Some (String "013" "   " +:+ String esc "[1;31m" +:+ filled_part
              +:+ String esc "[0;90m" +:+ empty_part +:+ String esc "[0m"
              +:+ spinner_char +:+ String esc "[1D").

(** [finish()]: the text it prints *)
Definition finish (self : t) : option string :=
  if negb (verbose self || negb (is_terminal self)) then
    Some (String "013" "" +:+ times " " (width self + 5) +:+ String "013" "")
  else None.

End ProgressBar.

(** * Vocabulary of the specification *)

Section Vocabulary.

Context (E : env).

(** A prior CacheEntry for [url]: the metadata document and the content
    it refers to are regular files of the cache directory, and the
    document loads as a JSON object. *)
Record cache_entry (url : string) (s : state) : Prop := CacheEntry {
  entry_dir : is_dir (cache_dir E) s = true;
  entry_meta : ∃ text fields,
    files s !! meta_path E url = Some text ∧
    json_load E text = Some (JObj fields);
  entry_content : is_Some (files s !! cache_path E url);
  entry_regular :
    is_dir (cache_path E url) s = false ∧ is_dir (meta_path E url) s = false
}.

(** The transport answers [req] with 304 Not Modified, as a response or
    as the [HTTPError] it raises. *)
Definition not_modified (req : request) (s : state) : Prop :=
  (∃ r, urlopen E req s = HttpResponse r ∧ status r = 304) ∨
  (∃ reason, urlopen E req s = HttpRaise (Exception (HTTPError 304 reason))).

(** The events added to the history between two states *)
Definition new_events (s s' : state) : list event :=
  drop (length (trace s)) (trace s').

(** The overwrite policy in the words of the specification: the flag is
    set, or the target does not exist yet, or the relative path is in
    the force-overwrite set. *)
Definition must_write (overwrite : bool) (force_overwrite : gset string)
  (rel target : string) (s : state) : Prop :=
  overwrite = true ∨ path_exists target s = false ∨ rel ∈ force_overwrite.

(** A path component that names an entry: not empty, not [.] or [..],
    without a slash. *)
Definition clean (c : string) : bool :=
  posixpath.nonempty c && negb (String.eqb c ".") && negb (String.eqb c "..")
  && negb (pystr.contains "/" c).

(** The components of the absolute, normalised form of [p] *)
Definition components (wd p : string) : list string :=
  List.filter posixpath.nonempty
    (pystr.split pystr.slash (posixpath.abspath wd p)).

(** [p] lies inside the directory [dir] *)
Definition inside (wd dir p : string) : Prop :=
  components wd dir `prefix_of` components wd p.

(** A member named by the root followed by clean components *)
Definition under_root (root : string) (m : zip_member) : Prop :=
  ∃ rel_comps, rel_comps ≠ [] ∧ forallb clean rel_comps = true ∧
               filename m = pystr.join "/" (root :: rel_comps).

(** An archive in the single-root-folder convention: the first
    top-level entry name is a clean component and every file member
    lies below it. *)
Definition single_rooted (root : string) (members : list zip_member) : Prop :=
  clean root = true ∧
  (∃ first rest, members = first :: rest ∧
     root = hd "" (pystr.split pystr.slash (filename first))) ∧
  ∀ m, m ∈ members → is_dir_member m = false → under_root root m.

(** The subprocesses among the events, with how each ended *)
Definition spawned (evs : list event) : list (list string * proc_outcome) :=
  omap (λ ev, match ev with EvSpawn cmd r => Some (cmd, r) | _ => None end) evs.

(** A subprocess failed: it ended with a return code other than zero. *)
Definition failed (r : proc_outcome) : bool :=
  match r with
  | Completed rc _ _ => negb (rc =? 0)
  | Failed _ => true
  end.

(** The names whose subprocess failed, in order *)
Definition failed_names (names : list string) (results : list proc_outcome)
  : list string :=
  fst <$> filter (λ nr, failed nr.2 = true) (zip names results).

Definition install_command (ext : string) : list string :=
  if pystr.contains "@" ext then ["code"; "--install-extension"; ext]
  else ["code"; "--install-extension"; ext; "--force"].

Definition uninstall_command (ext : string) : list string :=
  ["code"; "--uninstall-extension"; ext].

Definition install_warning (ext : string) : level * string :=
  (WARNING, "Could not install VS Code extension '" +:+ ext +:+ "'").

Definition uninstall_warning (ext : string) : level * string :=
  (WARNING, "Could not uninstall extension '" +:+ ext
              +:+ "' (maybe not installed)").

Definition interrupted_message : string := String "013" "Interrupted".

Definition stash_pop : list string := ["git"; "stash"; "pop"].

Definition stash_drop : list string := ["git"; "stash"; "drop"].

(** The output of a subprocess mentions a conflict, in either stream
    and in any letter case. *)
Definition conflict_reported (r : proc_outcome) : Prop :=
  ∃ rc out err,
    r = Completed rc out err ∧
    (pystr.contains "conflict" (pystr.lower out) = true ∨
     pystr.contains "conflict" (pystr.lower err) = true).

Definition conflict_message : string :=
  "Merge conflict occurred while applying stashed changes".

Definition stash_advice : string :=
  "Your local changes may still be stashed. Resolve conflicts manually if needed.".

(** No subprocess among the events ended well. *)
Definition all_failed (evs : list event) : Prop :=
  Forall (λ cr, failed cr.2 = true) (spawned evs).

(** A subprocess among the events left with [x], which is not a
    [CalledProcessError]: it could not be launched, or it was
    interrupted. *)
Definition aborted (evs : list event) (x : raised) : Prop :=
  (∃ cmd, (cmd, Failed x) ∈ spawned evs) ∧
  ∀ cmd rc, x ≠ Exception (CalledProcessError cmd rc).

(** The commands of a reconciliation, in order *)
Definition reconcile_commands (exts : extension_set) : list (list string) :=
  (install_command <$> install exts) ++ (uninstall_command <$> uninstall exts).

(** [manage_vscode_extensions] up to the end of its second loop, with
    the two lists of names that failed *)
Definition process_extensions (exts : extension_set) (verbose : bool)
  : M (list string * list string) :=
  logger INFO "Managing VS Code extensions (user-level)" ;;
  fail_install <-
    collect_failures (install_extension E verbose) (install exts) [] ;;
  fail_uninstall <-
    collect_failures (uninstall_extension E verbose) (uninstall exts) [] ;;
  ret (fail_install, fail_uninstall).

(** The two loops that end [manage_vscode_extensions] *)
Definition report_failures (fails : list string * list string) : M unit :=
  for_each fails.1 (fun ext =>
    logger WARNING ("Could not install VS Code extension '" +:+ ext +:+ "'")) ;;
  for_each fails.2 (fun ext =>
    logger WARNING ("Could not uninstall extension '" +:+ ext
                      +:+ "' (maybe not installed)")).

Definition is_write (ev : event) : bool :=
  match ev with EvWrite _ _ => true | _ => false end.

Definition is_spawn (ev : event) : bool :=
  match ev with EvSpawn _ _ => true | _ => false end.

End Vocabulary.

Section ReleaseVocabulary.

Import get_release.

(** A number of the tag: decimal digits, at least one *)
Definition digits (s : string) : Prop :=
  s ≠ "" ∧ forallb pystr.isdigit (String.list_ascii_of_string s) = true.

Definition label_suffix (label : option string) : string :=
  match label with
  | Some l => "-" +:+ l
  | None => ""
  end.

(** The strict pattern [vMAJOR[.MINOR[.PATCH]][-label]]: [tag] is [v],
    one to three numbers joined by dots, and possibly a dash and a
    label that is not empty; [version_tag] is the part before the
    label. *)
Definition strict_tag (tag version_tag : string) (label : option string)
  : Prop :=
  ∃ nums,
    (1 ≤ length nums ≤ 3)%nat ∧ Forall digits nums ∧ label ≠ Some "" ∧
    version_tag = "v" +:+ pystr.join "." nums ∧
    tag = version_tag +:+ label_suffix label.

Variable re_match : string → string → option bool.

(** The release is a candidate of the selection, with parsed version
    [ver]: its tag matches the strict pattern, the version part starts
    with the prefix when one is given, and the label matches the
    regular expression when one is given. *)
Definition eligible (version_prefix label_regex : option string)
  (r : release) (ver : list N) : Prop :=
  ∃ version_tag label,
    strict_tag (tag_name r) version_tag label ∧
    (is_set version_prefix = true →
     pystr.startswith (default "" version_prefix) version_tag = true) ∧
    (is_set label_regex = true →
     ∃ l, label = Some l ∧ re_match (default "" label_regex) l = Some true) ∧
    Version (String.substring 1 (String.length version_tag - 1) version_tag)
      = Some ver.

(** The pattern compiles: [re.match] answers on every text. *)
Definition compiles (label_regex : option string) : Prop :=
  is_set label_regex = true →
  ∀ l, is_Some (re_match (default "" label_regex) l).

End ReleaseVocabulary.

Section PolicyVocabulary.


(** The member's path without the root prefix *)
Definition below_root (root : string) (m : zip_member) : string :=
  pyslice.str_drop (S (String.length root)) (filename m).

(** The writes that put every file member of [members] at the target
    directory joined with its path below the root, in the order of the
    archive *)
Definition placements (root extract_to : string) (members : list zip_member)
  : list event :=
  (λ m, EvWrite (posixpath.join2 extract_to (below_root root m)) (payload m))
    <$> List.filter (λ m, negb (is_dir_member m)) members.

End PolicyVocabulary.

(** * Notions used in the proofs *)

Section ProofVocabulary.

Import pystr posixpath.

Definition slash_free (c : string) : Prop := contains "/" c = false.

(** The component loop of [normpath] from a given stack *)
Definition norm_fold (rooted : bool) (l acc : list string) : list string :=
  fold_left (norm_step rooted) l acc.

(** The components handed to the loop of [normpath] by [abspath] *)
Definition abs_comps (wd p : string) : list string :=
  if isabs p then split slash p else split slash wd ++ split slash p.

(** The event is the write of a file member of [members] at the target
    directory joined with the member's path below the root. *)
Definition placed (root extract_to : string) (members : list zip_member)
  (ev : event) : Prop :=
  ∃ m rel_comps,
    m ∈ members ∧ is_dir_member m = false ∧
    rel_comps ≠ [] ∧ forallb clean rel_comps = true ∧
    filename m = join "/" (root :: rel_comps) ∧
    ev = EvWrite (join2 extract_to (join "/" rel_comps)) (payload m).

(** How a round of a loop of the reconciler ends on the answer of its
    subprocess: with the flag that the name failed, or with the error
    of a launch that is not a [CalledProcessError]. *)
Definition round_result (res : proc_outcome) : outcome bool :=
  match res with
  | Completed rc _ _ => Ret (negb (rc =? 0))
  | Failed (Exception (CalledProcessError _ _)) => Ret true
  | Failed x => Raise x
  end.

(** A round of a loop of the reconciler: one subprocess, no log entry. *)
Definition one_command_round (round : string → M bool)
  (command : string → list string) : Prop :=
  ∀ ext s, ∃ res l s',
    round ext s = (round_result res, s') ∧
    trace s' = trace s ++ l ∧
    spawned l = [(command ext, res)] ∧
    log s' = log s.

Definition isdigits (s : string) : bool :=
  forallb isdigit (String.list_ascii_of_string s).

(** The text of the groups [.MINOR.PATCH] *)
Definition dotted (ds : list string) : string :=
  fold_right (λ d acc, "." +:+ d +:+ acc) "" ds.

(** Nothing a number could go on with *)
Definition ends_number (rest : string) : Prop :=
  match rest with
  | String c _ => isdigit c = false
  | EmptyString => True
  end.

End ProofVocabulary.

Section StepVocabulary.

(** [s'] holds every file and directory that [s] holds, in the same
    working directory. *)
Definition grows (s s' : state) : Prop :=
  cwd s' = cwd s ∧ dirs s ⊆ dirs s' ∧
  ∀ p, is_file p s = true → is_file p s' = true.

End StepVocabulary.

(** * Vocabulary of the further properties *)

Section ProvisionVocabulary.

(** The command [install_packages] runs for one package *)
Definition pip_command (venv_path pkg : string) : list string :=
  [venv_path +:+ "/bin/pip"; "install"; "--require-virtualenv"; "--no-input";
   pkg].

(** How a checked [run] leaves on a subprocess that did not end well *)
Definition raised_by (cmd : list string) (res : proc_outcome) (r : raised)
  : Prop :=
  match res with
  | Completed rc _ _ => rc ≠ 0 ∧ r = Exception (CalledProcessError cmd rc)
  | Failed r' => r = r'
  end.

End ProvisionVocabulary.

Section ProbeVocabulary.

(** The subprocess answered a version query: it ended with code 0 and
    printed something other than white space, of which [line] is the
    first line. *)
Definition version_answer (res : proc_outcome) (line : string) : Prop :=
  ∃ out err,
    res = Completed 0 out err ∧ pystr.strip out ≠ "" ∧
    line = pystr.upto_linebreak (pystr.strip out).

End ProbeVocabulary.

Section UpdateVocabulary.

Definition stash_push : list string :=
  ["git"; "stash"; "push"; "-m"; "autostash before update"].

Definition fetch_tags : list string := ["git"; "fetch"; "--tags"].

Definition fetch_origin : list string := ["git"; "fetch"; "origin"].

Definition rev_parse : list string :=
  ["git"; "rev-parse"; "--abbrev-ref"; "HEAD"].

Definition reset_hard (target : string) : list string :=
  ["git"; "reset"; "--hard"; target].

(** The commands of an update of the branch [branch], in order *)
Definition update_plan (branch : string) : list (list string) :=
  [stash_push; fetch_tags; fetch_origin; rev_parse;
   reset_hard ("origin/" +:+ branch); stash_pop].

End UpdateVocabulary.

Section CacheVocabulary.

(** The conditional headers that name the validators of a response:
    its entity tag and its modification date, each when the response
    carries it with a value that is not empty. *)
Definition validators (r : response) : list (string * json) :=
  match header_get "ETag" (resp_headers r) with
  | Some tag => if String.eqb tag "" then [] else [("If-None-Match", JStr tag)]
  | None => []
  end ++
  match header_get "Last-Modified" (resp_headers r) with
  | Some date =>
      if String.eqb date "" then [] else [("If-Modified-Since", JStr date)]
  | None => []
  end.

End CacheVocabulary.

Section EffectVocabulary.

(** The computation adds to the history nothing but events that
    [allowed] admits, and leaves the working directory as it is. *)
Definition confined {A : Type} (allowed : event → Prop) (m : M A) : Prop :=
  ∀ s, ∃ l,
    trace (m s).2 = trace s ++ l ∧ Forall allowed l ∧ cwd (m s).2 = cwd s.

(** The event is a git command. *)
Definition git_event (ev : event) : Prop :=
  ∃ args res, ev = EvSpawn ("git" :: args) res.

(** The event belongs to a download of [url] into the cache or to an
    extraction: a request for [url] or the writing of a file. *)
Definition archive_event (url : string) (ev : event) : Prop :=
  (∃ req, ev = EvRequest req ∧ req_url req = url) ∨
  (∃ p d, ev = EvWrite p d).

End EffectVocabulary.

(** * A sample machine

    Concrete data on which the statements below are exercised. *)

Definition sample_home : string := "/home/student".

Definition sample_project : string := "https://github.com/eng209/eng209_2025".

Definition sample_url : string := sample_project +:+ "/archive/main.zip".

(** A stand-in for the digest: injective enough for one URL. *)
Definition sample_digest (url : string) : string :=
  "5d41402a" +:+ pystr.of_Z (Z.of_nat (String.length url)).

(** A stand-in for the JSON codec that keeps the entity tag only. *)
Definition sample_json_dump (doc : json) : string :=
  match doc with
  | JObj fields =>
      match assoc "ETag" fields with
      | Some (JStr tag) => "ETag=" +:+ tag
      | _ => "ETag="
      end
  | _ => "null"
  end.

Definition sample_json_load (text : string) : option json :=
  if pystr.startswith "ETag=" text then
    let tag := String.substring 5 (String.length text - 5)%nat text in
    Some (JObj [("ETag", if String.eqb tag "" then JNull else JStr tag)])
  else None.

(** A server holding one version of the archive: it answers 304 to a
    request that names the current entity tag, as [urlopen] reports it. *)
Definition sample_server (tag content : string) (req : request) (s : state)
  : http_outcome :=
  match assoc "If-None-Match" (req_headers req) with
  | Some (JStr known) =>
      if String.eqb known tag
      then HttpRaise (Exception (HTTPError 304 "Not Modified"))
      else HttpResponse (Response 200 content [("ETag", tag)])
  | _ => HttpResponse (Response 200 content [("ETag", tag)])
  end.

(** A server that answers every request with a bare 304 response. *)
Definition unchanged_server (req : request) (s : state) : http_outcome :=
  HttpResponse (Response 304 "" []).

Definition course_archive : list zip_member :=
  [ZipInfo "eng209_2025-main/" "";
   ZipInfo "eng209_2025-main/update.py" "print('updated')";
   ZipInfo "eng209_2025-main/notebooks/" "";
   ZipInfo "eng209_2025-main/notebooks/week1.ipynb" "{}"].

(** An archive with a second top-level entry *)
Definition stray_archive : list zip_member :=
  [ZipInfo "eng209_2025-main/README.md" "# ENG209";
   ZipInfo "extras/notes.txt" "notes"].

(** An archive whose second top-level entry comes before every file of
    the first one *)
Definition early_stray_archive : list zip_member :=
  [ZipInfo "eng209_2025-main/" "";
   ZipInfo "extras/notes.txt" "notes";
   ZipInfo "eng209_2025-main/README.md" "# ENG209"].

Definition sample_zip (data : string) : option (list zip_member) :=
  if String.eqb data "PK:course" then Some course_archive
  else if String.eqb data "PK:stray" then Some stray_archive
  else if String.eqb data "PK:early" then Some early_stray_archive
  else if String.eqb data "PK:empty" then Some []
  else None.

(** Every command ends with the same return code and output. *)
Definition uniform_proc (rc : Z) (out err : string) (ms : N)
  (cmd : list string) (s : state) : reaction proc_outcome :=
  Reaction (Completed rc out err) (files s) (dirs s) ms.

(** Every command fails after two seconds and leaves [dest] behind. *)
Definition littering_proc (dest : string) (cmd : list string) (s : state)
  : reaction proc_outcome :=
  Reaction (Completed 128 "" "fatal: early EOF") (files s) (dirs s ∪ {[dest]})
    2000%N.

(** Git succeeds until the stash is popped onto a conflicting tree. *)
Definition conflicting_git (cmd : list string) (s : state)
  : reaction proc_outcome :=
  if bool_decide (cmd = ["git"; "stash"; "pop"]) then
    Reaction
      (Completed 1 "Auto-merging notes.md"
         "CONFLICT (content): Merge conflict in notes.md")
      (files s) (dirs s) 100%N
  else Reaction (Completed 0 "main" "") (files s) (dirs s) 100%N.

(** The editor refuses one extension and does not know another. *)
Definition picky_editor (cmd : list string) (s : state)
  : reaction proc_outcome :=
  if bool_decide ("matangover.mypy@0.4.2" ∈ cmd)
     || bool_decide ("formulahendry.code-runner" ∈ cmd)
  then Reaction (Completed 1 "" "Failed Installing Extensions") (files s) (dirs s) 300%N
  else Reaction (Completed 0 "" "") (files s) (dirs s) 300%N.

Definition sample_arguments : arguments :=
  {| base := "/home/student/Desktop/myfiles"; clone := false;
     deep_clone := false; force := false; verbose := false |}.

Definition sample_env (net : request → state → http_outcome)
  (proc : list string → state → reaction proc_outcome) (argv : parse_result)
  : env :=
  {| home := sample_home;
     sha256_hex := sample_digest;
     json_load := sample_json_load;
     json_dump := sample_json_dump;
     urlopen := net;
     zip_infolist := sample_zip;
     spawn := proc;
     venv_create := λ _ s, Reaction None (files s) (dirs s) 0%N;
     version_info := (3, 12);
     parse_args := argv;
     GITHUB_PROJECT := sample_project;
     COURSE_NAME := "eng209_2025";
     setup_vscode := λ _ _, ret tt;
     setup_vscode_global := λ _, ret tt |}.

Definition quiet_env : env :=
  sample_env (sample_server "v1" "PK:course") (uniform_proc 0 "" "" 0%N)
    (Parsed sample_arguments).

Definition sample_state (fs : gmap string string) (ds : gset string) : state :=
  {| files := fs; dirs := ds; clock := 0; cwd := sample_home; log := [];
     trace := [] |}.

Definition sample_dest : string := "/home/student/Desktop/myfiles/eng209_2025".

Definition git_checkout : state :=
  sample_state ∅ {[ sample_dest; sample_dest +:+ "/.git" ]}.

(** The three releases of the specification's example *)
Definition sample_releases : list get_release.release :=
  [get_release.Release "v1.2.0" []; get_release.Release "v1.3.0-beta" [];
   get_release.Release "v1.2.5" []].

(** [re.match] for a pattern without special characters *)
Definition literal_match (pattern text : string) : option bool :=
  Some (pystr.startswith pattern text).

(** The cache after a first download of version [v1] *)
Definition cached_state : state :=
  sample_state
    {[ meta_path quiet_env sample_url := "ETag=v1";
       cache_path quiet_env sample_url := "PK:course" ]}
    {[ cache_dir quiet_env ]}.

(** The same machine once the server holds version [v2] *)
Definition updated_env : env :=
  sample_env (sample_server "v2" "PK:stray") (uniform_proc 0 "" "" 0%N)
    (Parsed sample_arguments).

Definition unchanged_env : env :=
  sample_env unchanged_server (uniform_proc 0 "" "" 0%N)
    (Parsed sample_arguments).

(** A remote that refuses every clone within a fifth of a second *)
Definition failing_remote_env : env :=
  sample_env unchanged_server (uniform_proc 128 "" "fatal: unable to access" 200%N)
    (Parsed sample_arguments).

Definition littering_env : env :=
  sample_env unchanged_server (littering_proc sample_dest)
    (Parsed sample_arguments).

(** The editor is taken away while the third extension is installed. *)
Definition vanishing_editor (cmd : list string) (s : state)
  : reaction proc_outcome :=
  if bool_decide ("ms-python.mypy-type-checker@2025.2.0" ∈ cmd)
  then Reaction
         (Failed (Exception
            (OSError "[Errno 2] No such file or directory: 'code'")))
         (files s) (dirs s) 0%N
  else Reaction (Completed 0 "" "") (files s) (dirs s) 300%N.

Definition vanishing_env : env :=
  sample_env unchanged_server vanishing_editor (Parsed sample_arguments).

Definition picky_env : env :=
  sample_env unchanged_server picky_editor (Parsed sample_arguments).

Definition conflicting_env : env :=
  sample_env unchanged_server conflicting_git (Parsed sample_arguments).

(** The operator presses Ctrl-C while the first subprocess runs. *)
Definition interrupted_env : env :=
  sample_env unchanged_server
    (λ cmd s, Reaction (Failed KeyboardInterrupt) (files s) (dirs s) 50%N)
    (Parsed sample_arguments).

(** A checkout from the archive in which a notebook was edited *)
Definition edited_state (archive : string) : state :=
  sample_state
    {[ "/tmp/main.zip" := archive;
       sample_dest +:+ "/update.py" := "print('old')";
       sample_dest +:+ "/notebooks/week1.ipynb" := "{edited}" ]}
    {[ sample_dest; sample_dest +:+ "/notebooks" ]}.


(** ** More of the sample machine *)

(** Every tool answers a version query with one line. *)
Definition versioned_env : env :=
  sample_env unchanged_server
    (uniform_proc 0 ("git version 2.43.0" +:+ String pystr.nl "") "" 0%N)
    (Parsed sample_arguments).

(** The server does not know the archive. *)
Definition missing_archive_env : env :=
  sample_env (λ _ _, HttpRaise (Exception (HTTPError 404 "Not Found")))
    (uniform_proc 0 "" "" 0%N) (Parsed sample_arguments).

(** A cache whose metadata file was cut short *)
Definition corrupt_cache_state : state :=
  sample_state {[ meta_path quiet_env sample_url := "{" ]}
    {[ cache_dir quiet_env ]}.

(** The sample machine with an older interpreter *)
Definition old_python_env : env :=
  {| home := home quiet_env;
     sha256_hex := sha256_hex quiet_env;
     json_load := json_load quiet_env;
     json_dump := json_dump quiet_env;
     urlopen := urlopen quiet_env;
     zip_infolist := zip_infolist quiet_env;
     spawn := spawn quiet_env;
     venv_create := venv_create quiet_env;
     version_info := (3, 9);
     parse_args := parse_args quiet_env;
     GITHUB_PROJECT := GITHUB_PROJECT quiet_env;
     COURSE_NAME := COURSE_NAME quiet_env;
     setup_vscode := setup_vscode quiet_env;
     setup_vscode_global := setup_vscode_global quiet_env |}.

(** The bar of the package installation on a terminal *)
Definition sample_bar : ProgressBar.t := ProgressBar.init true 17 "*" false.

(** Three releases, two of which carry the same version *)
Definition tied_releases : list get_release.release :=
  [get_release.Release "v1.1" []; get_release.Release "v1.2" [];
   get_release.Release "v1.2.0" []].

(** A feed of two pages of releases and an empty third one *)
Definition sample_feed (url : string) (page per_page : Z) : page_outcome :=
  if page =? 1 then
    PageAnswer (PageResponse 200 "OK"
      (Some (JArr [JObj [("tag_name", JStr "v1.3.0-beta")];
                   JObj [("tag_name", JStr "v1.2.5")]])))
  else if page =? 2 then
    PageAnswer (PageResponse 200 "OK"
      (Some (JArr [JObj [("tag_name", JStr "v1.2.0")]])))
  else PageAnswer (PageResponse 200 "OK" (Some (JArr []))).

(** The same feed with a server error in place of the second page *)
Definition broken_feed (url : string) (page per_page : Z) : page_outcome :=
  if page =? 2 then PageAnswer (PageResponse 502 "Bad Gateway" None)
  else sample_feed url page per_page.

(** * Properties *)

(** ** The path functions on examples *)

Example normpath_ex1 : posixpath.normpath "/home//u/./proj/../x/" = "/home/u/x".
Proof. reflexivity. Qed.
Example relpath_ex1 :
  posixpath.relpath "/home/u" "proj-main/src/a.py" "proj-main/" = Some "src/a.py".
Proof. reflexivity. Qed.
Example relpath_ex2 :
  posixpath.relpath "/home/u" "other/b.txt" "proj-main/" = Some "../other/b.txt".
Proof. reflexivity. Qed.
Example dirname_ex1 : posixpath.dirname "/t/eng209/src/a.py" = "/t/eng209/src".
Proof. reflexivity. Qed.
Example ancestors_ex1 :
  posixpath.ancestors "/t/eng209/src" = ["/t"; "/t/eng209"; "/t/eng209/src"].
Proof. reflexivity. Qed.
Example of_Z_ex : pystr.of_Z 128 = "128" /\ pystr.of_Z 0 = "0" /\ pystr.of_Z (-9) = "-9".
Proof. repeat split; reflexivity. Qed.

(** ** Strings *)

Section StringFacts.

Lemma app_cons (a : ascii) (s t : string) :
  String a s +:+ t = String a (s +:+ t).
Proof. reflexivity. Qed.

Lemma app_empty_l (s : string) : "" +:+ s = s.
Proof. reflexivity. Qed.

Lemma app_empty_r (s : string) : s +:+ "" = s.
Proof. induction s as [|a s IH]; [done|]. by rewrite app_cons, IH. Qed.

Lemma app_assoc_str (s t u : string) : (s +:+ t) +:+ u = s +:+ (t +:+ u).
Proof. induction s as [|a s IH]; [done|]. by rewrite !app_cons, IH. Qed.

Lemma app_length_str (s t : string) :
  String.length (s +:+ t) = (String.length s + String.length t)%nat.
Proof. induction s as [|a s IH]; [done|]. rewrite app_cons. simpl. by rewrite IH. Qed.

Lemma app_neq_self (s t : string) : t ≠ "" → s +:+ t ≠ s.
Proof.
  intros Ht Heq. apply (f_equal String.length) in Heq.
  rewrite app_length_str in Heq. destruct t; [done|]. simpl in Heq. lia.
Qed.

End StringFacts.

(** ** The state monad *)

Section MonadFacts.

Lemma bind_ret_l {A B : Type} (a : A) (k : A → M B) (s : state) :
  bind (ret a) k s = k a s.
Proof. reflexivity. Qed.

Lemma bind_eq {A B : Type} (m : M A) (k : A → M B) (s s1 : state) (a : A) :
  m s = (Ret a, s1) → bind m k s = k a s1.
Proof. intros H. unfold bind. by rewrite H. Qed.

Lemma bind_raise {A B : Type} (m : M A) (k : A → M B) (s s1 : state) r :
  m s = (Raise r, s1) → bind m k s = (Raise r, s1).
Proof. intros H. unfold bind. by rewrite H. Qed.

Lemma bind_probe {A B : Type} (f : state → A) (k : A → M B) (s : state) :
  bind (probe f) k s = k (f s) s.
Proof. reflexivity. Qed.

Lemma new_events_app (s s' : state) (l : list event) :
  trace s' = trace s ++ l → new_events s s' = l.
Proof. intros H. unfold new_events. rewrite H. by rewrite drop_app_length. Qed.

End MonadFacts.

(** ** ConditionalCacheDownloader *)

Section DownloaderFacts.

Context (E : env).

Lemma meta_path_neq (url : string) : meta_path E url ≠ cache_path E url.
Proof. unfold meta_path. by apply app_neq_self. Qed.

Lemma cache_dir_nonempty : String.eqb (cache_dir E) "" = false.
Proof.
  apply String.eqb_neq. intros H. apply (f_equal String.length) in H.
  unfold cache_dir in H. rewrite app_length_str in H. simpl in H. lia.
Qed.

Lemma makedirs_present (d : string) (s : state) :
  is_dir d s = true → String.eqb d "" = false → makedirs d s = (Ret tt, s).
Proof. intros Hd Hne. unfold makedirs. by rewrite Hne, Hd. Qed.

(** With a loadable metadata document the request is built without
    touching the state. *)
Lemma build_request_entry (url text : string) fields (s : state) :
  files s !! meta_path E url = Some text →
  json_load E text = Some (JObj fields) →
  ∃ req, build_request E url s = (Ret req, s) ∧ req_url req = url.
Proof.
  intros Hf Hj. unfold build_request. rewrite bind_probe.
  assert (exists_ (meta_path E url) s = true) as ->.
  { unfold exists_, is_file. rewrite Hf. by rewrite bool_decide_eq_true_2. }
  unfold conditional_headers, bind at 1 2. unfold read_file. rewrite Hf, Hj.
  simpl. eauto.
Qed.

(** Without metadata no conditional header is sent. *)
Lemma build_request_fresh (url : string) (s : state) :
  exists_ (meta_path E url) s = false →
  build_request E url s = (Ret (Request url [("User-Agent", JStr "Client")]), s).
Proof. intros H. unfold build_request. rewrite bind_probe, H. reflexivity. Qed.

Lemma fetch_not_modified (url : string) (req : request) (s : state) :
  not_modified E req s →
  ∃ s', fetch E url req s = (Ret (cache_path E url), s') ∧
        files s' = files s ∧ dirs s' = dirs s ∧
        trace s' = trace s ++ [EvRequest req].
Proof.
  intros [(r & Hr & H304)|(reason & Hr)]; unfold fetch, try_except, bind at 1, urlopen_;
    rewrite Hr.
  - rewrite H304. simpl. eauto.
  - simpl. eauto.
Qed.

Lemma fetch_fresh_copy (url : string) (req : request) (r : response) (s : state) :
  urlopen E req s = HttpResponse r →
  status r ≠ 304 →
  is_dir (cache_path E url) s = false →
  is_dir (meta_path E url) s = false →
  ∃ s', fetch E url req s = (Ret (cache_path E url), s') ∧
        files s' = <[meta_path E url := json_dump E (response_meta url r)]>
                     (<[cache_path E url := body r]> (files s)) ∧
        dirs s' = dirs s ∧
        trace s' = trace s ++
          [EvRequest req; EvWrite (cache_path E url) (body r);
           EvWrite (meta_path E url) (json_dump E (response_meta url r))].
Proof.
  intros Hr H304 Hc Hm. unfold fetch, try_except, bind at 1, urlopen_.
  rewrite Hr. apply Z.eqb_neq in H304. rewrite H304.
  unfold bind, logger, write_file, is_dir in *. simpl in *.
  rewrite Hc. simpl. rewrite Hm. simpl.
  eexists. repeat split. by rewrite <- !app_assoc.
Qed.

End DownloaderFacts.

Section PathListFacts.

Import pystr.

Lemma split_nonempty (c : ascii) (s : string) : split c s ≠ [].
Proof.
  destruct s as [|a s]; simpl; [done|].
  destruct (Ascii.eqb a c); [done|]. by destruct (split c s).
Qed.

Lemma join_cons (sep x : string) (l : list string) :
  l ≠ [] → join sep (x :: l) = x +:+ sep +:+ join sep l.
Proof. by destruct l. Qed.

Lemma join_split (s : string) : join "/" (split slash s) = s.
Proof.
  induction s as [|a s IH]; [done|]. simpl.
  destruct (Ascii.eqb_spec a slash) as [->|Hne].
  - rewrite join_cons by apply split_nonempty. by rewrite IH.
  - pose proof (split_nonempty slash s) as Hs.
    destruct (split slash s) as [|h t]; [done|].
    destruct t as [|h' t].
    + simpl in *. by rewrite IH.
    + rewrite join_cons in IH by done. rewrite join_cons by done.
      rewrite app_cons. by rewrite IH.
Qed.

Lemma join_take_length (sep : string) (l : list string) (k : nat) :
  (String.length (join sep (take k l)) ≤ String.length (join sep l))%nat.
Proof.
  revert k. induction l as [|x l IH]; intros k.
  - by rewrite take_nil.
  - destruct k as [|k]; [simpl; lia|].
    change (take (S k) (x :: l)) with (x :: take k l).
    destruct l as [|y l].
    + by rewrite take_nil.
    + specialize (IH k). rewrite (join_cons sep x (y :: l)) by done.
      destruct (take k (y :: l)) as [|z t] eqn:Ht.
      * change (join sep [x]) with x. rewrite !app_length_str. lia.
      * rewrite join_cons by done. rewrite !app_length_str in *. lia.
Qed.

Lemma ancestors_length (d a : string) :
  a ∈ posixpath.ancestors d → (String.length a ≤ String.length d)%nat.
Proof.
  unfold posixpath.ancestors. intros Ha.
  apply list_elem_of_In, filter_In in Ha as [Ha _].
  apply in_map_iff in Ha as (k & <- & _).
  rewrite <- (join_split d) at 2. apply join_take_length.
Qed.

End PathListFacts.

Section DownloaderTheorems.

Context (E : env).

Lemma makedirs_files (d : string) (s s' : state) o :
  makedirs d s = (o, s') → files s' = files s ∧ trace s' = trace s ∧
    log s' = log s ∧ dirs s ⊆ dirs s' ∧
    ∀ p, p ∈ dirs s' → p ∈ dirs s ∨ p ∈ posixpath.ancestors d.
Proof.
  unfold makedirs. intros H.
  assert (s' = s ∨ s' = State (files s)
            (dirs s ∪ list_to_set (posixpath.ancestors d))
            (clock s) (cwd s) (log s) (trace s)) as [->| ->].
  { destruct (String.eqb d ""); [left; congruence|].
    destruct (is_dir d s); [left; congruence|].
    destruct (existsb _ _); [left|right]; congruence. }
  - repeat split; auto.
  - simpl. repeat split; [set_solver|]. intros p Hp.
    apply elem_of_union in Hp as [?|Hp]; [by left|right].
    by apply elem_of_list_to_set in Hp.
Qed.

Lemma build_request_state (url : string) (s s' : state) o :
  build_request E url s = (o, s') → s' = s.
Proof.
  unfold build_request. rewrite bind_probe.
  destruct (exists_ _ s); [|by intros [= _ <-]].
  unfold conditional_headers, bind at 1 2, read_file.
  destruct (files s !! meta_path E url); [|by intros [= _ <-]].
  destruct (json_load E s0) as [[]|]; simpl; by intros [= _ <-].
Qed.

Lemma meta_path_fresh_after_makedirs (url : string) (s s1 : state) o :
  makedirs (cache_dir E) s = (o, s1) →
  exists_ (meta_path E url) s = false →
  exists_ (meta_path E url) s1 = false.
Proof.
  intros Hmk Hex. apply makedirs_files in Hmk as (Hf & _ & _ & _ & Hd).
  unfold exists_, is_file, is_dir in *. rewrite Hf.
  apply orb_false_iff in Hex as [Hfile Hdir]. rewrite Hfile. simpl.
  apply bool_decide_eq_false_2. intros Hin.
  apply Hd in Hin as [Hin|Hin].
  - by apply bool_decide_eq_false_1 in Hdir.
  - apply ancestors_length in Hin. unfold meta_path, cache_path in Hin.
    rewrite !app_length_str in Hin. simpl in Hin. lia.
Qed.

(** C1: with a prior cache entry, a 304 answer (a response or the
    error the transport raises) makes [download_with_etag] return the
    cached path and leave every file as it was; any other response
    puts its body in the content file and its headers in the metadata
    file. *)
Theorem download_with_etag_revalidates (url : string) (s : state) :
  cache_entry E url s →
  ∃ req,
    build_request E url s = (Ret req, s) ∧
    req_url req = url ∧
    (not_modified E req s →
     ∃ s', download_with_etag E url s = (Ret (cache_path E url), s') ∧
           files s' = files s ∧
           new_events s s' = [EvRequest req]) ∧
    (∀ r, urlopen E req s = HttpResponse r → status r ≠ 304 →
     ∃ s', download_with_etag E url s = (Ret (cache_path E url), s') ∧
           files s' =
             <[meta_path E url := json_dump E (response_meta url r)]>
               (<[cache_path E url := body r]> (files s)) ∧
           files s' !! cache_path E url = Some (body r) ∧
           files s' !! meta_path E url =
             Some (json_dump E (response_meta url r))).
Proof.
  intros [Hdir (text & fields & Hmeta & Hload) _ [Hc Hm]].
  destruct (build_request_entry E url text fields s Hmeta Hload)
    as (req & Hreq & Hurl).
  exists req. split; [done|]. split; [done|].
  assert (download_with_etag E url s = fetch E url req s) as ->.
  { unfold download_with_etag.
    rewrite (bind_eq _ _ s s tt)
      by (apply makedirs_present; [done|apply cache_dir_nonempty]).
    by rewrite (bind_eq _ _ s s req). }
  split.
  - intros H304. destruct (fetch_not_modified E url req s H304)
      as (s' & Hs' & Hf & _ & Ht).
    exists s'. split; [done|]. split; [done|]. by apply new_events_app.
  - intros r Hr Hne.
    destruct (fetch_fresh_copy E url req r s Hr Hne Hc Hm)
      as (s' & Hs' & Hf & _ & _).
    exists s'. split; [done|]. split; [done|]. rewrite Hf. split.
    + rewrite lookup_insert_ne by apply meta_path_neq.
      by rewrite lookup_insert_eq.
    + by rewrite lookup_insert_eq.
Qed.

(** C10: a 304 answer for a URL without cache metadata, to a request
    that carries no conditional header, returns the cache path and
    creates no file; a returned path names an existing file except
    after such an answer with no content file in the cache. *)
Theorem download_with_etag_304_without_entry (url : string) (s s1 : state) :
  let req := Request url [("User-Agent", JStr "Client")] in
  (exists_ (meta_path E url) s = false →
   makedirs (cache_dir E) s = (Ret tt, s1) →
   not_modified E req s1 →
   ∃ s', download_with_etag E url s = (Ret (cache_path E url), s') ∧
         files s' = files s ∧
         new_events s s' = [EvRequest req] ∧
         is_file (cache_path E url) s' = is_file (cache_path E url) s) ∧
  (∀ p s', download_with_etag E url s = (Ret p, s') →
     p = cache_path E url ∧
     (is_file p s' = true ∨
      (files s' = files s ∧ is_file p s = false ∧
       ∃ req' s2, EvRequest req' ∈ new_events s s' ∧ not_modified E req' s2))).
Proof.
  intros req. split.
  - intros Hfresh Hmk H304.
    pose proof (meta_path_fresh_after_makedirs url s s1 _ Hmk Hfresh) as Hfresh1.
    apply makedirs_files in Hmk as Hs1. destruct Hs1 as (Hf1 & Ht1 & _).
    destruct (fetch_not_modified E url req s1 H304) as (s' & Hs' & Hf & _ & Ht).
    exists s'. split.
    { unfold download_with_etag. rewrite (bind_eq _ _ s s1 tt) by done.
      by rewrite (bind_eq _ _ s1 s1 req) by by apply build_request_fresh. }
    split; [congruence|]. split.
    { apply new_events_app. congruence. }
    unfold is_file. by rewrite Hf, Hf1.
  - intros p s'. unfold download_with_etag, bind at 1.
    destruct (makedirs (cache_dir E) s) as [[u|e] s2] eqn:Hmk; [|done].
    apply makedirs_files in Hmk as (Hf2 & Ht2 & _).
    unfold bind at 1.
    destruct (build_request E url s2) as [[rq|e] s3] eqn:Hrq; [|done].
    apply build_request_state in Hrq as ->.
    unfold fetch, try_except, bind at 1, urlopen_.
    destruct (urlopen E rq s2) as [r|[e| |code]] eqn:Hr; [| |done..].
    + destruct (status r =? 304) eqn:H304.
      * simpl. intros [= <- <-]. split; [done|]. apply Z.eqb_eq in H304.
        unfold is_file. simpl. rewrite Hf2.
        destruct (bool_decide (is_Some (files s !! cache_path E url))) eqn:Hc;
          [by left|right].
        split; [done|]. split; [done|]. exists rq, s2. split.
        -- unfold new_events. simpl. rewrite Ht2, drop_app_length. set_solver.
        -- left. eauto.
      * unfold bind, logger, write_file. simpl.
        destruct (is_dir (cache_path E url) _); [done|]. simpl.
        destruct (is_dir (meta_path E url) _); [done|]. simpl.
        intros [= <- <-]. split; [done|]. left. unfold is_file. simpl.
        rewrite lookup_insert_ne by apply meta_path_neq.
        rewrite lookup_insert_eq. by apply bool_decide_eq_true_2.
    + destruct e as [| | | | |code reason| |]; try done.
      destruct (decide (code = 304)) as [->|Hne].
      * simpl. intros [= <- <-]. split; [done|].
        unfold is_file. simpl. rewrite Hf2.
        destruct (bool_decide (is_Some (files s !! cache_path E url))) eqn:Hc;
          [by left|right].
        split; [done|]. split; [done|]. exists rq, s2. split.
        -- unfold new_events. simpl. rewrite Ht2, drop_app_length. set_solver.
        -- right. eauto.
      * apply Z.eqb_neq in Hne. by rewrite Hne.
Qed.

End DownloaderTheorems.

(** ** ArchiveExtractor *)

Section LocateFacts.

Lemma grows_refl (s : state) : grows s s.
Proof. by repeat split. Qed.

Lemma grows_trans (s1 s2 s3 : state) : grows s1 s2 → grows s2 s3 → grows s1 s3.
Proof.
  intros (Hc1 & Hd1 & Hf1) (Hc2 & Hd2 & Hf2). split; [congruence|].
  split; [set_solver|]. intros p Hp. by apply Hf2, Hf1.
Qed.

Lemma is_dir_grows (s s' : state) (p : string) :
  grows s s' → is_dir p s = true → is_dir p s' = true.
Proof.
  intros (_ & Hd & _). unfold is_dir. intros Hp%bool_decide_eq_true_1.
  apply bool_decide_eq_true_2. by apply Hd.
Qed.

Lemma exists_grows (s s' : state) (p : string) :
  grows s s' → exists_ p s = true → exists_ p s' = true.
Proof.
  intros Hg. unfold exists_. intros [Hp|Hp]%orb_true_iff.
  - destruct Hg as (_ & _ & Hf). by rewrite (Hf p Hp).
  - by rewrite (is_dir_grows s s' p Hg Hp), orb_true_r.
Qed.

Lemma dir_at_grows (s s' : state) (here : string) :
  grows s s' → dir_at here s = true → dir_at here s' = true.
Proof.
  intros Hg. unfold dir_at. intros [Hp|Hp]%orb_true_iff; [by rewrite Hp|].
  by rewrite (is_dir_grows s s' here Hg Hp), orb_true_r.
Qed.

Lemma walk_grows (s s' : state) (comps : list string) :
  grows s s' →
  ∀ here q, walk s here comps = Some q → walk s' here comps = Some q.
Proof.
  intros Hg. induction comps as [|c comps IH]; intros here q; [done|].
  simpl. destruct (String.eqb c ""); [apply IH|].
  destruct (String.eqb c ".").
  { destruct (dir_at here s) eqn:Hd; [|done].
    rewrite (dir_at_grows s s' here Hg Hd). apply IH. }
  destruct (String.eqb c ".."); [|apply IH].
  destruct (dir_at here s) eqn:Hd; [|done].
  rewrite (dir_at_grows s s' here Hg Hd).
  destruct Hg as (-> & _). apply IH.
Qed.

Lemma locate_grows (s s' : state) (p q : string) :
  grows s s' → locate s p = Some q → locate s' p = Some q.
Proof.
  intros Hg. unfold locate. destruct (has_dots p); [|done].
  by apply walk_grows.
Qed.

Lemma path_exists_grows (s s' : state) (p : string) :
  grows s s' → path_exists p s = true → path_exists p s' = true.
Proof.
  intros Hg. unfold path_exists. destruct (has_dots p) eqn:Hdots.
  - destruct (locate s p) as [q|] eqn:Hq; [|done].
    rewrite (locate_grows s s' p q Hg Hq).
    intros [Hp|Hp]%orb_true_iff.
    + destruct Hg as (_ & _ & Hf). by rewrite (Hf q Hp).
    + by rewrite (dir_at_grows s s' q Hg Hp), orb_true_r.
  - by apply exists_grows.
Qed.

Lemma locate_plain (s : state) (p : string) :
  has_dots p = false → locate s p = Some p.
Proof. intros H. unfold locate. by rewrite H. Qed.


Lemma makedirs_cwd (d : string) (s s' : state) o :
  makedirs d s = (o, s') → cwd s' = cwd s.
Proof. unfold makedirs. intros H. repeat case_match; by simplify_eq. Qed.

Lemma makedirs_grows (d : string) (s s' : state) o :
  makedirs d s = (o, s') →
  grows s s' ∧ files s' = files s ∧ trace s' = trace s ∧ log s' = log s.
Proof.
  intros Hmk. pose proof (makedirs_cwd _ _ _ _ Hmk) as Hc.
  apply makedirs_files in Hmk as (Hf & Ht & Hl & Hd & _).
  repeat split; try done. unfold is_file. by rewrite Hf.
Qed.

Lemma ensure_dir_grows (here : string) (s s' : state) o :
  ensure_dir here s = (o, s') →
  grows s s' ∧ files s' = files s ∧ trace s' = trace s ∧ log s' = log s.
Proof.
  unfold ensure_dir. destruct (_ || _).
  - intros [= _ <-]. split; [apply grows_refl|done].
  - apply makedirs_grows.
Qed.

Lemma walk_make_grows (comps : list string) :
  ∀ here s s' o,
    walk_make here comps s = (o, s') →
    grows s s' ∧ files s' = files s ∧ trace s' = trace s ∧ log s' = log s.
Proof.
  induction comps as [|c comps IH]; intros here s s' o; simpl.
  { apply ensure_dir_grows. }
  destruct (String.eqb c ""); [apply IH|].
  assert (∀ k : unit → M unit,
            (∀ u s1 s2 o2, k u s1 = (o2, s2) →
               grows s1 s2 ∧ files s2 = files s1 ∧ trace s2 = trace s1 ∧
               log s2 = log s1) →
            (ensure_dir here ;; k tt) s = (o, s') →
            grows s s' ∧ files s' = files s ∧ trace s' = trace s ∧
            log s' = log s) as Hthen.
  { intros k Hk. unfold bind.
    destruct (ensure_dir here s) as [[[]|r] s1] eqn:He.
    - apply ensure_dir_grows in He as (Hg1 & Hf1 & Ht1 & Hl1).
      intros (Hg2 & Hf2 & Ht2 & Hl2)%Hk.
      split; [by eapply grows_trans|]. split; [congruence|].
      split; congruence.
    - intros [= _ <-]. by apply ensure_dir_grows in He. }
  destruct (String.eqb c ".").
  { apply (Hthen (λ _, walk_make here comps)). intros _. apply IH. }
  destruct (String.eqb c ".."); [|apply IH].
  apply (Hthen (λ _, wd <- probe cwd ;; walk_make (parent wd here) comps)).
  intros _ s1 s2 o2. rewrite bind_probe. apply IH.
Qed.

Lemma os_makedirs_grows (d : string) (s s' : state) o :
  os_makedirs d s = (o, s') →
  grows s s' ∧ files s' = files s ∧ trace s' = trace s ∧ log s' = log s.
Proof.
  unfold os_makedirs. destruct (has_dots d).
  - apply walk_make_grows.
  - apply makedirs_grows.
Qed.

(** A write that ends well puts the data at the place the path leads
    to, and the path then exists. *)
Lemma open_write_ret (p data : string) (s s' : state) :
  open_write p data s = (Ret tt, s') →
  ∃ q, locate s' p = Some q ∧ files s' = <[q := data]> (files s) ∧
       dirs s' = dirs s ∧ cwd s' = cwd s ∧ log s' = log s ∧
       trace s' = trace s ++ [EvWrite p data] ∧
       path_exists p s' = true.
Proof.
  unfold open_write. destruct (String.eqb p ""); [done|].
  destruct (locate s p) as [q|] eqn:Hq; [|done].
  destruct (dir_at q s); [done|]. intros [= <-]. exists q.
  set (s' := State _ _ _ _ _ _).
  assert (grows s s') as Hg.
  { repeat split; [done|]. intros p' Hp'. unfold is_file in *. simpl.
    apply bool_decide_eq_true_1 in Hp'. apply bool_decide_eq_true_2.
    destruct (decide (q = p')) as [->|Hne];
      [rewrite lookup_insert_eq; by eexists|by rewrite lookup_insert_ne]. }
  pose proof (locate_grows s s' p q Hg Hq) as Hq'.
  repeat split; try done.
  assert (is_file q s' = true) as Hfile.
  { unfold is_file. simpl. rewrite lookup_insert_eq.
    apply bool_decide_eq_true_2. by eexists. }
  unfold path_exists. destruct (has_dots p) eqn:Hdots.
  - by rewrite Hq', Hfile.
  - rewrite locate_plain in Hq' by done. injection Hq' as <-.
    unfold exists_. by rewrite Hfile.
Qed.

Lemma open_write_raise (p data : string) (s s' : state) r :
  open_write p data s = (Raise r, s') → s' = s.
Proof.
  unfold open_write. destruct (String.eqb p ""); [by intros [= _ <-]|].
  destruct (locate s p) as [q|]; [|by intros [= _ <-]].
  destruct (dir_at q s); [by intros [= _ <-]|done].
Qed.

End LocateFacts.

Section ExtractorFacts.

Context (E : env).

Lemma must_write_decide (ow : bool) (force : gset string) (rel target : string)
  (s : state) :
  ow || negb (path_exists target s) || bool_decide (rel ∈ force) = true ↔
  must_write ow force rel target s.
Proof.
  unfold must_write. rewrite !orb_true_iff, negb_true_iff, bool_decide_eq_true.
  tauto.
Qed.

Lemma member_relpath_eq (root rel : string) (m : zip_member) (s : state) :
  posixpath.relpath (cwd s) (filename m) root = Some rel →
  member_relpath root m s = (Ret rel, s).
Proof. intros H. unfold member_relpath. rewrite bind_probe. by rewrite H. Qed.

(** A directory entry is passed over. *)
Lemma extract_member_dir (root extract_to : string) (ow : bool)
  (force : gset string) (m : zip_member) (s : state) :
  is_dir_member m = true →
  extract_member root extract_to ow force m s = (Ret tt, s).
Proof. intros H. unfold extract_member. by rewrite H. Qed.

Lemma extract_member_skip (root extract_to rel : string) (ow : bool)
  (force : gset string) (m : zip_member) (s : state) :
  is_dir_member m = false →
  posixpath.relpath (cwd s) (filename m) root = Some rel →
  ¬ must_write ow force rel (posixpath.join2 extract_to rel) s →
  extract_member root extract_to ow force m s =
    logger DEBUG ("Skipped existing file: " +:+ posixpath.join2 extract_to rel) s.
Proof.
  intros Hd Hrel Hno. unfold extract_member. rewrite Hd.
  rewrite (bind_eq _ _ s s rel) by by apply member_relpath_eq.
  rewrite bind_probe. rewrite <- must_write_decide in Hno.
  by apply not_true_is_false in Hno as ->.
Qed.

Lemma extract_member_write (root extract_to rel : string) (ow : bool)
  (force : gset string) (m : zip_member) (s : state) :
  is_dir_member m = false →
  posixpath.relpath (cwd s) (filename m) root = Some rel →
  must_write ow force rel (posixpath.join2 extract_to rel) s →
  extract_member root extract_to ow force m s =
    (os_makedirs (posixpath.dirname (posixpath.join2 extract_to rel)) ;;
     open_write (posixpath.join2 extract_to rel) (payload m)) s.
Proof.
  intros Hd Hrel Hyes. unfold extract_member. rewrite Hd.
  rewrite (bind_eq _ _ s s rel) by by apply member_relpath_eq.
  rewrite bind_probe. rewrite <- must_write_decide in Hyes. by rewrite Hyes.
Qed.

Lemma write_after_makedirs (d p data : string) (s s' : state) :
  (os_makedirs d ;; open_write p data) s = (Ret tt, s') →
  grows s s' ∧ log s' = log s ∧
  trace s' = trace s ++ [EvWrite p data] ∧
  path_exists p s' = true ∧
  ∃ q, locate s' p = Some q ∧ files s' = <[q := data]> (files s).
Proof.
  unfold bind. destruct (os_makedirs d s) as [[u|e] s1] eqn:Hmk; [|done].
  apply os_makedirs_grows in Hmk as (Hg & Hf & Ht & Hl).
  intros (q & Hq & Hf' & Hd' & Hc' & Hl' & Ht' & Hex)%open_write_ret.
  split.
  { eapply grows_trans; [done|]. repeat split; [done|by rewrite Hd'|].
    intros p' Hp'. unfold is_file in *. rewrite Hf'.
    apply bool_decide_eq_true_1 in Hp'. apply bool_decide_eq_true_2.
    destruct (decide (q = p')) as [->|Hne];
      [rewrite lookup_insert_eq; by eexists|by rewrite lookup_insert_ne]. }
  split; [congruence|]. split; [congruence|]. split; [done|].
  exists q. split; [done|congruence].
Qed.

Lemma write_after_makedirs_raise (d p data : string) (s s' : state) r :
  (os_makedirs d ;; open_write p data) s = (Raise r, s') →
  grows s s' ∧ files s' = files s ∧ trace s' = trace s.
Proof.
  unfold bind. destruct (os_makedirs d s) as [[u|e] s1] eqn:Hmk.
  - apply os_makedirs_grows in Hmk as (Hg & Hf & Ht & Hl).
    by intros ->%open_write_raise.
  - intros [= _ <-]. by apply os_makedirs_grows in Hmk as (Hg & Hf & Ht & Hl).
Qed.

(** What one round of the loop can do: nothing to the files, or the one
    write the policy asks for. *)
Lemma extract_member_effect (root extract_to : string) (ow : bool)
  (force : gset string) (m : zip_member) (s s' : state) o :
  extract_member root extract_to ow force m s = (o, s') →
  grows s s' ∧
  ((files s' = files s ∧ trace s' = trace s) ∨
   ∃ rel q, is_dir_member m = false ∧
          posixpath.relpath (cwd s) (filename m) root = Some rel ∧
          locate s' (posixpath.join2 extract_to rel) = Some q ∧
          files s' = <[q := payload m]> (files s) ∧
          trace s' =
            trace s ++ [EvWrite (posixpath.join2 extract_to rel) (payload m)] ∧
          must_write ow force rel (posixpath.join2 extract_to rel) s).
Proof.
  intros H. destruct (is_dir_member m) eqn:Hd.
  { rewrite extract_member_dir in H by done. simplify_eq.
    split; [apply grows_refl|auto]. }
  destruct (posixpath.relpath (cwd s) (filename m) root) as [rel|] eqn:Hrel.
  - destruct (decide (must_write ow force rel (posixpath.join2 extract_to rel) s))
      as [Hyes|Hno].
    + rewrite (extract_member_write _ _ rel) in H by done.
      destruct o as [[]|r].
      * apply write_after_makedirs in H as (Hg & _ & Ht & _ & q & Hq & Hf).
        split; [done|]. right. by exists rel, q.
      * apply write_after_makedirs_raise in H as (Hg & Hf & Ht). auto.
    + rewrite (extract_member_skip _ _ rel) in H by done.
      unfold logger in H. simplify_eq. split; [|auto].
      by repeat split.
  - unfold extract_member in H. rewrite Hd in H. unfold bind at 1 in H.
    unfold member_relpath in H. rewrite bind_probe, Hrel in H.
    simpl in H. simplify_eq. split; [apply grows_refl|auto].
Qed.

Lemma extract_archive_prelude (path extract_to : string) (ow v : bool)
  (force : gset string) (s : state) :
  ∃ s0, files s0 = files s ∧ dirs s0 = dirs s ∧ cwd s0 = cwd s ∧
        trace s0 = trace s ∧
        extract_archive E path extract_to ow v force s =
          (members <- zip_open E path ;;
           root_prefix <- root_prefix_of members ;;
           for_each members
             (extract_member root_prefix extract_to ow force)) s0.
Proof.
  unfold extract_archive. unfold bind at 1. simpl. rewrite bind_probe.
  set (s1 := State _ _ _ _ _ _).
  destruct (path_exists extract_to s1); [destruct ow|]; unfold bind at 1; simpl;
    eexists; (split; [|split; [|split; [|split; [|reflexivity]]]]); done.
Qed.

(** On an archive with a first member the extraction is the loop over
    the members, with the root prefix taken from the first one. *)
Lemma extract_archive_loop (path extract_to : string) (ow v : bool)
  (force : gset string) (s : state) (data : string) (first : zip_member)
  (rest : list zip_member) :
  files s !! path = Some data →
  zip_infolist E data = Some (first :: rest) →
  ∃ s0, files s0 = files s ∧ dirs s0 = dirs s ∧ cwd s0 = cwd s ∧
        trace s0 = trace s ∧
        extract_archive E path extract_to ow v force s =
          for_each (first :: rest)
            (extract_member
               (hd "" (pystr.split pystr.slash (filename first)) +:+ "/")
               extract_to ow force) s0.
Proof.
  intros Hdata Hzip.
  destruct (extract_archive_prelude path extract_to ow v force s)
    as (s0 & Hf0 & Hd0 & Hc0 & Ht0 & ->).
  exists s0. repeat split; try done.
  unfold bind at 1, zip_open. unfold bind at 1, read_file.
  rewrite Hf0, Hdata, Hzip. simpl. by unfold bind at 1.
Qed.

End ExtractorFacts.

Section ExtractorTheorems.

Context (E : env).

(** C9: on an archive without entries [extract_archive] raises at the
    indexing of the first member, before anything is written; on an
    archive with an entry the root prefix is computed. *)
Theorem extract_archive_needs_member (path extract_to : string)
  (ow v : bool) (force : gset string) (s : state) (data : string) :
  files s !! path = Some data →
  (zip_infolist E data = Some [] →
   ∃ s', extract_archive E path extract_to ow v force s =
           (Raise (Exception (IndexError "list index out of range")), s') ∧
         files s' = files s ∧ dirs s' = dirs s ∧ new_events s s' = []) ∧
  (∀ first rest s0,
     root_prefix_of (first :: rest) s0 =
       (Ret (hd "" (pystr.split pystr.slash (filename first)) +:+ "/"), s0)).
Proof.
  intros Hdata. split; [|done]. intros Hzip.
  destruct (extract_archive_prelude E path extract_to ow v force s)
    as (s0 & Hf0 & Hd0 & _ & Ht0 & ->).
  exists s0. unfold bind at 1, zip_open. unfold bind at 1, read_file.
  rewrite Hf0, Hdata, Hzip. simpl. repeat split; [done..|].
  apply new_events_app. by rewrite Ht0, app_nil_r.
Qed.

End ExtractorTheorems.

(** ** Paths *)

Section PathFacts.

Import pystr posixpath.

Lemma contains_slash_cons (a : ascii) (s : string) :
  contains "/" (String a s) = Ascii.eqb a slash || contains "/" s.
Proof. simpl. by rewrite andb_true_r, (Ascii.eqb_sym a). Qed.

Lemma split_slash_free_one (c : string) :
  slash_free c → split slash c = [c].
Proof.
  unfold slash_free. induction c as [|a c IH]; [done|].
  rewrite contains_slash_cons. intros [Ha Hc]%orb_false_iff.
  cbn [split]. rewrite Ha. by rewrite IH.
Qed.

Lemma split_slash_free (s c : string) : c ∈ split slash s → slash_free c.
Proof.
  unfold slash_free. revert c. induction s as [|a s IH]; intros c Hc.
  { apply list_elem_of_singleton in Hc as ->. done. }
  cbn [split] in Hc. destruct (Ascii.eqb a slash) eqn:Ha.
  - apply elem_of_cons in Hc as [->|Hc]; [done|by apply IH].
  - pose proof (split_nonempty slash s) as Hne.
    destruct (split slash s) as [|h t]; [done|].
    apply elem_of_cons in Hc as [->|Hc].
    + rewrite contains_slash_cons, Ha. simpl.
      apply IH. by left.
    + apply IH. by right.
Qed.

Lemma split_app_sep (a b : string) :
  split slash (a +:+ "/" +:+ b) = split slash a ++ split slash b.
Proof.
  induction a as [|c a IH]; [done|]. rewrite app_cons. cbn [split].
  rewrite IH. destruct (Ascii.eqb c slash); [done|].
  pose proof (split_nonempty slash a) as Hne.
  by destruct (split slash a).
Qed.

Lemma split_join (l : list string) :
  l ≠ [] → Forall slash_free l → split slash (join "/" l) = l.
Proof.
  induction l as [|x l IH]; [done|]. intros _ Hall.
  apply Forall_cons in Hall as [Hx Hl]. destruct l as [|y l].
  - by apply split_slash_free_one.
  - rewrite join_cons by done. rewrite split_app_sep.
    rewrite split_slash_free_one by done. by rewrite IH.
Qed.

Lemma endswith_slash_app (a : string) :
  endswith_char slash a = true → ∃ a', a = a' +:+ "/".
Proof.
  induction a as [|c a IH]; [done|]. destruct a as [|c' a].
  - simpl. intros ->%Ascii.eqb_eq. by exists "".
  - intros H. destruct IH as [a' Ha']; [done|].
    exists (String c a'). by rewrite app_cons, <- Ha'.
Qed.

Lemma clean_spec (c : string) :
  clean c = true → c ≠ "" ∧ c ≠ "." ∧ c ≠ ".." ∧ slash_free c.
Proof.
  unfold clean, nonempty, slash_free.
  rewrite !andb_true_iff, !negb_true_iff, !String.eqb_neq. tauto.
Qed.

Lemma clean_not_abs (c r : string) : clean c = true → isabs (c +:+ r) = false.
Proof.
  intros (Hne & _ & _ & Hs)%clean_spec. destruct c as [|a c]; [done|].
  unfold slash_free in Hs. rewrite contains_slash_cons in Hs.
  apply orb_false_iff in Hs as [Ha _]. rewrite app_cons. unfold isabs.
  cbn [startswith]. rewrite andb_true_r, Ascii.eqb_sym. exact Ha.
Qed.

Lemma norm_fold_app (k : bool) (l1 l2 acc : list string) :
  norm_fold k (l1 ++ l2) acc = norm_fold k l2 (norm_fold k l1 acc).
Proof. apply fold_left_app. Qed.

Lemma norm_step_clean (k : bool) (acc : list string) (c : string) :
  clean c = true → norm_step k acc c = c :: acc.
Proof.
  intros (H1 & H2 & H3 & _)%clean_spec. unfold norm_step.
  apply String.eqb_neq in H1, H2, H3. by rewrite H1, H2, H3.
Qed.

Lemma norm_fold_clean (k : bool) (l acc : list string) :
  forallb clean l = true → norm_fold k l acc = rev l ++ acc.
Proof.
  revert acc. induction l as [|c l IH]; intros acc; [done|].
  intros [Hc Hl]%andb_true_iff. unfold norm_fold in *. simpl.
  rewrite norm_step_clean by done. rewrite IH by done.
  by rewrite <- app_assoc.
Qed.

Lemma norm_fold_named (k : bool) (l acc : list string) :
  Forall slash_free l →
  Forall (λ c, c ≠ "" ∧ slash_free c) acc →
  Forall (λ c, c ≠ "" ∧ slash_free c) (norm_fold k l acc).
Proof.
  revert acc. induction l as [|c l IH]; intros acc Hl Hacc; [done|].
  apply Forall_cons in Hl as [Hc Hl]. unfold norm_fold in *. simpl.
  apply IH; [done|]. unfold norm_step.
  destruct (String.eqb_spec c ""); [done|].
  destruct (String.eqb c "."); [done|]. simpl.
  destruct (String.eqb c ".."); simpl.
  - destruct acc as [|top rest].
    { destruct k; [done|]. by apply Forall_singleton. }
    apply Forall_cons in Hacc as [? ?].
    destruct (String.eqb top ".."); [|done].
    apply Forall_cons. split; [done|]. by apply Forall_cons.
  - by apply Forall_cons.
Qed.

End PathFacts.

Section ComponentFacts.

Import pystr posixpath.

Lemma split_trailing (a : string) :
  split slash (a +:+ "/") = split slash a ++ [""].
Proof.
  replace (a +:+ "/") with (a +:+ "/" +:+ "") by by rewrite app_empty_r.
  by rewrite split_app_sep.
Qed.

Lemma join2_empty_l (b : string) : join2 "" b = b.
Proof. unfold join2. by destruct (startswith "/" b). Qed.

Lemma norm_fold_join2 (k : bool) (a b : string) (acc : list string) :
  isabs b = false →
  norm_fold k (split slash (join2 a b)) acc =
  norm_fold k (split slash a ++ split slash b) acc.
Proof.
  intros Hb. unfold join2. unfold isabs in Hb. rewrite Hb.
  destruct (String.eqb_spec a "") as [->|Hne]; [done|]. simpl.
  destruct (endswith_char slash a) eqn:Hend.
  - apply endswith_slash_app in Hend as [a' ->].
    rewrite app_assoc_str, split_app_sep, split_trailing.
    by rewrite <- app_assoc, !norm_fold_app.
  - by rewrite split_app_sep.
Qed.

Lemma isabs_app (a b : string) : isabs a = true → isabs (a +:+ b) = true.
Proof. destruct a as [|c a]; [done|]. by rewrite app_cons. Qed.

Lemma isabs_join2 (a b : string) : isabs a = true → isabs (join2 a b) = true.
Proof.
  intros Ha. unfold join2. destruct (startswith "/" b) eqn:Hb; [done|].
  destruct (_ || _); by apply isabs_app.
Qed.

Lemma isabs_join2_rel (a b : string) :
  isabs a = false → isabs b = false → isabs (join2 a b) = false.
Proof.
  intros Ha Hb. unfold join2. unfold isabs in Hb. rewrite Hb.
  destruct a as [|c a]; [exact Hb|].
  change (String.eqb (String c a) "") with false. rewrite orb_false_l.
  destruct (endswith_char slash (String c a)); by rewrite app_cons.
Qed.

Lemma filter_split_join (l : list string) :
  Forall (λ c, c ≠ "" ∧ slash_free c) l →
  List.filter nonempty (split slash (join "/" l)) = l.
Proof.
  intros Hl. destruct l as [|x l]; [done|].
  rewrite split_join; [|done|by eapply Forall_impl; [done|intros ? []]].
  induction Hl as [|y t [Hy _] _ IH]; [done|]. simpl. rewrite IH.
  unfold nonempty. apply String.eqb_neq in Hy. by rewrite Hy.
Qed.

Lemma norm_comps_named (k : bool) (l : list string) :
  Forall slash_free l →
  Forall (λ c, c ≠ "" ∧ slash_free c) (norm_comps k l).
Proof.
  intros Hl. unfold norm_comps. apply Forall_rev.
  by apply (norm_fold_named k l []).
Qed.

Lemma components_abs (p : string) :
  isabs p = true →
  List.filter nonempty (split slash (normpath p)) =
  norm_comps true (split slash p).
Proof.
  intros Hp. unfold normpath.
  destruct (String.eqb_spec p "") as [->|_]; [done|].
  assert (Forall (λ c, c ≠ "" ∧ slash_free c) (norm_comps true (split slash p)))
    as Hnamed.
  { apply norm_comps_named, Forall_forall. apply split_slash_free. }
  unfold initial_slashes. unfold isabs in Hp. rewrite Hp.
  destruct (startswith "//" p && negb (startswith "///" p)); simpl.
  - by apply filter_split_join.
  - by apply filter_split_join.
Qed.

Lemma components_eq (wd p : string) :
  isabs wd = true → components wd p = norm_comps true (abs_comps wd p).
Proof.
  intros Hwd. unfold components, abspath, abs_comps.
  destruct (isabs p) eqn:Hp.
  - by apply components_abs.
  - rewrite components_abs by by apply isabs_join2.
    unfold norm_comps. f_equal. by apply norm_fold_join2.
Qed.

Lemma abs_comps_join2 (k : bool) (wd e rel : string) (acc : list string) :
  isabs rel = false →
  norm_fold k (abs_comps wd (join2 e rel)) acc =
  norm_fold k (abs_comps wd e ++ split slash rel) acc.
Proof.
  intros Hrel. unfold abs_comps. destruct (isabs e) eqn:He.
  - rewrite isabs_join2 by done. by apply norm_fold_join2.
  - rewrite isabs_join2_rel by done.
    rewrite <- app_assoc, !norm_fold_app. rewrite norm_fold_join2 by done.
    by rewrite norm_fold_app.
Qed.

Lemma clean_forall (l : list string) :
  forallb clean l = true → Forall slash_free l.
Proof.
  intros H. apply Forall_forall. intros c Hc.
  rewrite forallb_forall in H. apply list_elem_of_In, H, clean_spec in Hc. tauto.
Qed.

Lemma join_clean_not_abs (l : list string) :
  l ≠ [] → forallb clean l = true → isabs (join "/" l) = false.
Proof.
  destruct l as [|x l]; [done|]. intros _ [Hx _]%andb_true_iff.
  destruct l as [|y l].
  - rewrite <- (app_empty_r x). by apply clean_not_abs.
  - rewrite join_cons by done. by apply clean_not_abs.
Qed.

(** The components of a target under [dir]: those of [dir], then the
    clean components of the relative path. *)
Lemma components_join2 (wd dir : string) (rel_comps : list string) :
  isabs wd = true → rel_comps ≠ [] → forallb clean rel_comps = true →
  components wd (join2 dir (join "/" rel_comps)) =
  components wd dir ++ rel_comps.
Proof.
  intros Hwd Hne Hclean. rewrite !components_eq by done. unfold norm_comps.
  change (fold_left (norm_step true) ?l ?a) with (norm_fold true l a).
  rewrite abs_comps_join2 by by apply join_clean_not_abs.
  rewrite norm_fold_app, split_join by (done || by apply clean_forall).
  rewrite norm_fold_clean by done. by rewrite rev_app_distr, rev_involutive.
Qed.

Lemma commonprefix_len_app (l a b : list string) :
  commonprefix_len (l ++ a) (l ++ b) = (length l + commonprefix_len a b)%nat.
Proof.
  induction l as [|x l IH]; [done|]. simpl. by rewrite String.eqb_refl, IH.
Qed.

(** The relative path of a member below the root prefix is the member
    name without the prefix. *)
Lemma relpath_under_root (wd root : string) (rel_comps : list string) :
  isabs wd = true → clean root = true →
  rel_comps ≠ [] → forallb clean rel_comps = true →
  relpath wd (join "/" (root :: rel_comps)) (root +:+ "/") =
    Some (join "/" rel_comps).
Proof.
  intros Hwd Hroot Hne Hclean. unfold relpath.
  assert (join "/" (root :: rel_comps) ≠ "") as Hpath.
  { rewrite join_cons by done. apply clean_spec in Hroot as [Hr _].
    by destruct root. }
  apply String.eqb_neq in Hpath. rewrite Hpath.
  change (List.filter nonempty (split slash (abspath wd ?p)))
    with (components wd p).
  assert (forallb clean (root :: rel_comps) = true) as Hall
    by by simpl; rewrite Hroot.
  pose proof (components_join2 wd "" (root :: rel_comps) Hwd) as Hp.
  rewrite join2_empty_l in Hp. rewrite Hp by done.
  pose proof (components_join2 wd "" [root] Hwd) as Hs.
  rewrite join2_empty_l in Hs.
  assert (components wd (root +:+ "/") = components wd "" ++ [root]) as ->.
  { rewrite <- Hs by (done || by simpl; rewrite Hroot).
    rewrite !components_eq by done. unfold norm_comps. f_equal.
    change (fold_left (norm_step true) ?l ?a) with (norm_fold true l a).
    unfold abs_comps. rewrite clean_not_abs by done.
    change (join "/" [root]) with root.
    assert (isabs root = false) as ->.
    { rewrite <- (app_empty_r root). by apply clean_not_abs. }
    rewrite split_trailing. by rewrite !app_assoc, norm_fold_app. }
  set (C := components wd "").
  rewrite commonprefix_len_app. cbn [commonprefix_len].
  rewrite String.eqb_refl.
  replace (length C + 1)%nat with (length (C ++ [root]))
    by (rewrite length_app; simpl; lia).
  rewrite Nat.sub_diag.
  replace (C ++ root :: rel_comps) with ((C ++ [root]) ++ rel_comps)
    by (by rewrite <- app_assoc).
  rewrite drop_app_length. simpl. by destruct rel_comps.
Qed.

End ComponentFacts.

Section PlacementFacts.

Context (E : env).

Import pystr posixpath.

Lemma placed_inside (wd root extract_to : string) (members : list zip_member)
  (p d : string) :
  isabs wd = true → placed root extract_to members (EvWrite p d) →
  inside wd extract_to p.
Proof.
  intros Hwd (m & rel_comps & _ & _ & Hne & Hclean & _ & [= -> _]).
  unfold inside. rewrite components_join2 by done. by apply prefix_app_r.
Qed.

Lemma str_drop_app (a b : string) :
  pyslice.str_drop (String.length a) (a +:+ b) = b.
Proof. induction a as [|c a IH]; [by destruct b|]. by rewrite app_cons. Qed.

Lemma below_root_under (root : string) (m : zip_member)
  (rel_comps : list string) :
  rel_comps ≠ [] → filename m = join "/" (root :: rel_comps) →
  below_root root m = join "/" rel_comps.
Proof.
  intros Hne Hname. unfold below_root. rewrite Hname, join_cons by done.
  replace (S (String.length root)) with (String.length (root +:+ "/")).
  - by rewrite <- app_assoc_str, str_drop_app.
  - rewrite app_length_str. simpl. lia.
Qed.



Lemma extract_member_grows (root extract_to : string) (ow : bool)
  (force : gset string) (m : zip_member) (s s' : state) o :
  extract_member root extract_to ow force m s = (o, s') → grows s s'.
Proof. by intros [? _]%extract_member_effect. Qed.

Lemma for_each_extract_grows (root extract_to : string) (ow : bool)
  (force : gset string) (members : list zip_member) :
  ∀ s o s',
    for_each members (extract_member root extract_to ow force) s = (o, s') →
    grows s s'.
Proof.
  induction members as [|m members IH]; intros s o s' Hrun.
  { simpl in Hrun. injection Hrun as _ <-. apply grows_refl. }
  simpl in Hrun. unfold bind at 1 in Hrun.
  destruct (extract_member root extract_to ow force m s) as [[[]|r] s1] eqn:Hm.
  - eapply grows_trans; [by eapply extract_member_grows|by eapply IH].
  - injection Hrun as _ <-. by eapply extract_member_grows.
Qed.




(** In an archive of the convention the loop writes file members at
    their places, in order: all of them with the overwrite flag, and
    when it comes to its end every one is in place. *)
Lemma for_each_extract_placements (root extract_to : string) (ow : bool)
  (force : gset string) (members : list zip_member) :
  clean root = true →
  (∀ m, m ∈ members → is_dir_member m = false → under_root root m) →
  ∀ s o s',
    isabs (cwd s) = true →
    for_each members (extract_member (root +:+ "/") extract_to ow force) s
      = (o, s') →
    ∃ l, trace s' = trace s ++ l ∧
         l `sublist_of` placements root extract_to members ∧
         (ow = true → o = Ret tt → l = placements root extract_to members) ∧
         (o = Ret tt →
          ∀ m, m ∈ members → is_dir_member m = false →
               path_exists (join2 extract_to (below_root root m)) s' = true).
Proof.
  intros Hroot. induction members as [|m members IH];
    intros Hall s o s' Hwd Hrun.
  { simpl in Hrun. injection Hrun as <- <-. exists [].
    rewrite app_nil_r. repeat split; try done.
    intros _ m Hm. by apply elem_of_nil in Hm. }
  simpl in Hrun. unfold bind at 1 in Hrun.
  destruct (extract_member _ extract_to ow force m s) as [o1 s1] eqn:Hm.
  pose proof (extract_member_grows _ _ _ _ _ _ _ _ Hm) as Hg1.
  assert (isabs (cwd s1) = true) as Hwd1.
  { destruct Hg1 as (-> & _). done. }
  assert (∀ m', m' ∈ members → is_dir_member m' = false → under_root root m')
    as Hall'.
  { intros m' Hm'. apply Hall. by right. }
  destruct (is_dir_member m) eqn:Hd.
  { rewrite extract_member_dir in Hm by done. injection Hm as <- <-.
    destruct (IH Hall' s o s' Hwd Hrun) as (l & Ht & Hsub & Hfull & Hplace).
    exists l. unfold placements in *. simpl. rewrite Hd. simpl.
    split; [done|]. split; [done|]. split; [done|].
    intros Ho m' [->|Hin]%elem_of_cons Hfile; [congruence|].
    by apply Hplace. }
  destruct (Hall m) as (rel_comps & Hne & Hclean & Hname); [by left|done|].
  pose proof (relpath_under_root (cwd s) root rel_comps Hwd Hroot Hne Hclean)
    as Hrel.
  rewrite <- Hname in Hrel.
  pose proof (below_root_under root m rel_comps Hne Hname) as Hbelow.
  set (target := join2 extract_to (join "/" rel_comps)) in *.
  assert (placements root extract_to (m :: members) =
          EvWrite target (payload m) :: placements root extract_to members)
    as Hcons.
  { unfold placements. simpl. rewrite Hd. simpl. by rewrite Hbelow. }
  rewrite Hcons.
  destruct (decide (must_write ow force (join "/" rel_comps) target s))
    as [Hyes|Hno].
  - rewrite (extract_member_write _ _ (join "/" rel_comps)) in Hm by done.
    destruct o1 as [[]|r].
    + apply write_after_makedirs in Hm as (_ & _ & Ht1 & Hex1 & _).
      destruct (IH Hall' s1 o s' Hwd1 Hrun) as (l & Ht & Hsub & Hfull & Hplace).
      exists (EvWrite target (payload m) :: l). split.
      { rewrite Ht, Ht1. by rewrite <- app_assoc. }
      split; [by apply sublist_skip|]. split.
      { intros Hyes' Ho. by rewrite Hfull. }
      intros Ho m' [->|Hin]%elem_of_cons Hfile; [|by apply Hplace].
      rewrite Hbelow. eapply path_exists_grows; [|exact Hex1].
      by eapply for_each_extract_grows.
    + injection Hrun as <- <-.
      apply write_after_makedirs_raise in Hm as (_ & _ & Ht1).
      exists []. rewrite app_nil_r. split; [done|].
      split; [apply sublist_nil_l|]. split; done.
  - rewrite (extract_member_skip _ _ (join "/" rel_comps)) in Hm by done.
    unfold logger in Hm. injection Hm as <- <-. simpl in Hrun.
    match type of Hrun with
    | for_each _ _ ?s0 = _ =>
        destruct (IH Hall' s0 o s' Hwd Hrun) as (l & Ht & Hsub & Hfull & Hplace);
        assert (grows s0 s') as Hg by by eapply for_each_extract_grows
    end.
    exists l. split; [done|]. split; [by apply sublist_cons|]. split.
    { intros ->. destruct Hno. by left. }
    intros Ho m' [->|Hin]%elem_of_cons Hfile; [|by apply Hplace].
    rewrite Hbelow. eapply path_exists_grows; [exact Hg|].
    eapply (path_exists_grows s); [by repeat split|].
    destruct (path_exists target s) eqn:Hex; [done|].
    destruct Hno. right. by left.
Qed.

(** The writes of the loop on an archive of the convention are those
    of members at their places. *)
Lemma placements_placed (root extract_to : string) (members : list zip_member)
  (ev : event) :
  (∀ m, m ∈ members → is_dir_member m = false → under_root root m) →
  ev ∈ placements root extract_to members → placed root extract_to members ev.
Proof.
  intros Hall. unfold placements.
  intros (m & -> & Hm)%list_elem_of_fmap.
  apply list_elem_of_In, filter_In in Hm as [Hin Hfile].
  apply list_elem_of_In in Hin. apply negb_true_iff in Hfile.
  destruct (Hall m Hin Hfile) as (rel_comps & Hne & Hclean & Hname).
  exists m, rel_comps. repeat split; try done.
  by rewrite (below_root_under root m rel_comps).
Qed.


End PlacementFacts.

Section PlacementTheorems.

Context (E : env).

Import pystr posixpath.

(** C6, as the code has it: in an archive of the single-root-folder
    convention the root prefix is the first top-level entry name
    followed by a slash, directory entries are passed over, and the
    writes of an extraction are writes of file members, in the order of
    the archive, each at the target directory joined with the member's
    path without the root prefix: all of them when the overwrite flag
    is set and the extraction comes to its end. When it comes to its
    end every file member is in place, and every written path lies
    inside the target directory. *)
Theorem extract_places_members_under_target (path extract_to : string)
  (ow v : bool) (force : gset string) (s : state) (data root : string)
  (members : list zip_member) :
  isabs (cwd s) = true →
  files s !! path = Some data →
  zip_infolist E data = Some members →
  single_rooted root members →
  let r := extract_archive E path extract_to ow v force s in
  root_prefix_of members s = (Ret (root +:+ "/"), s) ∧
  (∀ m rel_comps,
     rel_comps ≠ [] → forallb clean rel_comps = true →
     filename m = join "/" (root :: rel_comps) →
     is_dir_member m = false ∧
     below_root root m = join "/" rel_comps ∧
     member_relpath (root +:+ "/") m s = (Ret (join "/" rel_comps), s)) ∧
  (∀ m s0,
     is_dir_member m = true →
     extract_member (root +:+ "/") extract_to ow force m s0 = (Ret tt, s0)) ∧
  new_events s r.2 `sublist_of` placements root extract_to members ∧
  (ow = true → r.1 = Ret tt →
   new_events s r.2 = placements root extract_to members) ∧
  (r.1 = Ret tt →
   ∀ m, m ∈ members → is_dir_member m = false →
     path_exists (join2 extract_to (below_root root m)) r.2 = true) ∧
  (∀ p d,
     EvWrite p d ∈ new_events s r.2 →
     placed root extract_to members (EvWrite p d) ∧
     inside (cwd s) extract_to p).
Proof.
  intros Hwd Hdata Hzip (Hroot & (first & rest & -> & Hfirst) & Hall) r.
  assert (∃ l,
            new_events s r.2 = l ∧
            l `sublist_of` placements root extract_to (first :: rest) ∧
            (ow = true → r.1 = Ret tt →
             l = placements root extract_to (first :: rest)) ∧
            (r.1 = Ret tt →
             ∀ m, m ∈ first :: rest → is_dir_member m = false →
               path_exists (join2 extract_to (below_root root m)) r.2 = true))
    as (l & Hl & Hsub & Hfull & Hplace).
  { subst r.
    destruct (extract_archive_loop E path extract_to ow v force s data
                first rest Hdata Hzip) as (s0 & Hf0 & _ & Hc0 & Ht0 & ->).
    rewrite <- Hfirst.
    destruct (for_each _ _ s0) as [o s'] eqn:Hrun. simpl.
    apply (for_each_extract_placements root extract_to ow force
             (first :: rest) Hroot Hall) in Hrun
      as (l & Ht & Hsub & Hfull & Hplace); [|by rewrite Hc0].
    exists l. split; [|done]. apply new_events_app. by rewrite Ht, Ht0. }
  split; [by rewrite Hfirst|]. split; [|split; [|split; [|split; [|split]]]].
  - intros m rel_comps Hne Hclean Hname. split; [|split].
    + unfold is_dir_member. rewrite Hname.
      assert (∃ l' c, rel_comps = l' ++ [c]) as (l' & c & ->).
      { destruct rel_comps using rev_ind; [done|eauto]. }
      rewrite forallb_app in Hclean.
      apply andb_true_iff in Hclean as [Hl' Hc]. simpl in Hc.
      rewrite andb_true_r in Hc.
      apply not_true_is_false. intros Hend.
      apply endswith_slash_app in Hend as [a' Ha'].
      apply (f_equal (split slash)) in Ha'.
      rewrite split_trailing in Ha'.
      rewrite split_join in Ha'; [|done|].
      * rewrite app_comm_cons in Ha'. apply app_inj_tail in Ha' as [_ ->].
        done.
      * apply clean_forall. simpl. rewrite Hroot, forallb_app. simpl.
        by rewrite Hc, andb_true_r.
    + by apply below_root_under.
    + apply member_relpath_eq. rewrite Hname. by apply relpath_under_root.
  - intros m s0 Hd. by apply extract_member_dir.
  - by rewrite Hl.
  - intros How Hret. rewrite Hl. by apply Hfull.
  - exact Hplace.
  - intros p d Hin. rewrite Hl in Hin.
    assert (placed root extract_to (first :: rest) (EvWrite p d)) as Hp.
    { apply placements_placed; [done|]. by eapply elem_of_sublist. }
    split; [done|]. by eapply placed_inside.
Qed.


End PlacementTheorems.

(** ** The downloader and the extractor on the sample machine *)

Section StorageInstances.

Lemma download_with_etag_revalidates_witness :
  cache_entry quiet_env sample_url cached_state ∧
  (∃ s', download_with_etag quiet_env sample_url cached_state =
           (Ret (cache_path quiet_env sample_url), s') ∧
         files s' = files cached_state) ∧
  (∃ s', download_with_etag updated_env sample_url cached_state =
           (Ret (cache_path updated_env sample_url), s') ∧
         files s' !! cache_path updated_env sample_url = Some "PK:stray" ∧
         files s' !! meta_path updated_env sample_url = Some "ETag=v2").
Proof.
  assert (∀ E, home E = sample_home → sha256_hex E = sample_digest →
               json_load E = sample_json_load →
               cache_entry E sample_url cached_state) as Hentry.
  { intros E Hh Hd Hj. constructor.
    - unfold cache_dir. rewrite Hh. by vm_compute.
    - exists "ETag=v1", [("ETag", JStr "v1")].
      unfold meta_path, cache_path, cache_dir. rewrite Hh, Hd, Hj.
      split; by vm_compute.
    - exists "PK:course". unfold cache_path, cache_dir. rewrite Hh, Hd.
      by vm_compute.
    - unfold meta_path, cache_path, cache_dir. rewrite Hh, Hd.
      split; by vm_compute. }
  split; [by apply Hentry|]. split.
  - destruct (download_with_etag_revalidates quiet_env sample_url cached_state)
      as (req & Hreq & _ & H304 & _); [by apply Hentry|].
    vm_compute in Hreq. injection Hreq as <-.
    destruct H304 as (s' & Hrun & Hf & _).
    { right. exists "Not Modified". by vm_compute. }
    exists s'. split; [exact Hrun|exact Hf].
  - destruct (download_with_etag_revalidates updated_env sample_url cached_state)
      as (req & Hreq & _ & _ & Hnew); [by apply Hentry|].
    vm_compute in Hreq. injection Hreq as <-.
    destruct (Hnew (Response 200 "PK:stray" [("ETag", "v2")]))
      as (s' & Hrun & _ & Hc & Hm); [by vm_compute|done|].
    exists s'. split; [exact Hrun|]. split; [exact Hc|exact Hm].
Defined.

Lemma download_with_etag_304_without_entry_witness :
  let s := sample_state ∅ ∅ in
  ∃ s', download_with_etag unchanged_env sample_url s =
          (Ret (cache_path unchanged_env sample_url), s') ∧
        files s' = ∅ ∧
        is_file (cache_path unchanged_env sample_url) s' = false.
Proof.
  intros s.
  destruct (download_with_etag_304_without_entry unchanged_env sample_url s
              (makedirs (cache_dir unchanged_env) s).2) as [H304 _].
  destruct H304 as (s' & Hrun & Hf & _ & Hfile).
  - by vm_compute.
  - by vm_compute.
  - left. by exists (Response 304 "" []).
  - exists s'. split; [done|]. split; [done|]. by rewrite Hfile.
Defined.

Lemma course_archive_single_rooted :
  single_rooted "eng209_2025-main" course_archive.
Proof.
  split; [by vm_compute|]. split.
  { eexists _, _. split; [reflexivity|]. by vm_compute. }
  intros m Hm Hd. unfold course_archive in Hm.
  repeat (apply elem_of_cons in Hm as [->|Hm]); try done.
  - exists ["update.py"]. by vm_compute.
  - exists ["notebooks"; "week1.ipynb"]. by vm_compute.
  - by apply elem_of_nil in Hm.
Defined.



Lemma extract_archive_needs_member_witness :
  let s := edited_state "PK:empty" in
  ∃ s', extract_archive quiet_env "/tmp/main.zip" sample_dest true false
          {["update.py"]} s =
          (Raise (Exception (IndexError "list index out of range")), s') ∧
        files s' = files s.
Proof.
  intros s.
  destruct (extract_archive_needs_member quiet_env "/tmp/main.zip" sample_dest
              true false {["update.py"]} s "PK:empty") as [Hempty _];
    [by vm_compute|].
  destruct Hempty as (s' & Hrun & Hf & _); [by vm_compute|].
  exists s'. split; [exact Hrun|exact Hf].
Defined.

Lemma extract_places_members_under_target_witness :
  let s := edited_state "PK:course" in
  let r := extract_archive quiet_env "/tmp/main.zip" sample_dest true false
             {["update.py"]} s in
  single_rooted "eng209_2025-main" course_archive ∧
  new_events s r.2 =
    [EvWrite (sample_dest +:+ "/update.py") "print('updated')";
     EvWrite (sample_dest +:+ "/notebooks/week1.ipynb") "{}"] ∧
  Forall (λ ev, match ev with
                | EvWrite p _ => inside (cwd s) sample_dest p
                | _ => True
                end)
    (new_events s r.2).
Proof.
  intros s r. split; [apply course_archive_single_rooted|].
  destruct (extract_places_members_under_target quiet_env "/tmp/main.zip"
              sample_dest true false {["update.py"]} s "PK:course"
              "eng209_2025-main" course_archive)
    as (_ & _ & _ & _ & Hfull & _ & Hwrites).
  - by vm_compute.
  - by vm_compute.
  - by vm_compute.
  - apply course_archive_single_rooted.
  - split.
    + subst r. rewrite Hfull; [by vm_compute|done|by vm_compute].
    + apply Forall_forall. intros ev Hin.
      destruct ev as [| |p d|]; try exact I.
      by apply Hwrites in Hin as [_ ?].
Defined.

(** C6 as stated fails on an archive with a second top-level entry:
    the member outside the first one is written next to the target
    directory, not inside it. *)
Lemma extract_escapes_target :
  let s := edited_state "PK:stray" in
  ¬ ∀ p d,
      EvWrite p d ∈
        new_events s (extract_archive quiet_env "/tmp/main.zip" sample_dest
                        false false {["update.py"]} s).2 →
      inside (cwd s) sample_dest p.
Proof.
  intros s Hall.
  specialize (Hall (sample_dest +:+ "/../extras/notes.txt") "notes").
  destruct Hall as [k Hk].
  - vm_compute. apply list_elem_of_In. right. by left.
  - vm_compute in Hk. discriminate Hk.
Qed.

End StorageInstances.

(** ** ExtensionReconciler *)

Section ReconcilerFacts.

Context (E : env).

Lemma aborted_nil (x : raised) : ¬ aborted [] x.
Proof. intros [[cmd Hin] _]. by apply elem_of_nil in Hin. Qed.

Lemma spawned_app (l1 l2 : list event) :
  spawned (l1 ++ l2) = spawned l1 ++ spawned l2.
Proof. apply omap_app. Qed.

Lemma aborted_app (l1 l2 : list event) (x : raised) :
  aborted (l1 ++ l2) x ↔ aborted l1 x ∨ aborted l2 x.
Proof.
  unfold aborted. rewrite spawned_app. split.
  - intros [[cmd [Hin|Hin]%elem_of_app] Hx]; [left|right]; eauto.
  - intros [[[cmd Hin] Hx]|[[cmd Hin] Hx]]; (split; [exists cmd|done]);
      apply elem_of_app; auto.
Qed.

(** A round ends with an error exactly when its subprocess left with
    one that is not a [CalledProcessError]. *)
Lemma round_result_cases (cmd : list string) (res : proc_outcome)
  (l : list event) :
  spawned l = [(cmd, res)] →
  (∃ x, round_result res = Raise x ∧ aborted l x) ∨
  (round_result res = Ret (failed res) ∧ ∀ x, ¬ aborted l x).
Proof.
  intros Hl. unfold aborted. rewrite Hl.
  destruct res as [rc out err|[[c rc| | | | | | |]| |]]; simpl.
  { right. split; [done|].
    by intros x [[c' Hin%list_elem_of_singleton] Hx]. }
  { right. split; [done|].
    intros x [[c' Hin%list_elem_of_singleton] Hx]. injection Hin as _ ->.
    by eapply Hx. }
  all: left; eexists; split; [reflexivity|]; split; [|done];
    eexists; by apply list_elem_of_singleton.
Qed.

Lemma round_result_failed (x : raised) :
  (∀ cmd rc, x ≠ Exception (CalledProcessError cmd rc)) →
  round_result (Failed x) = Raise x.
Proof.
  intros Hx. destruct x as [[c rc| | | | | | |]| |]; try done.
  by destruct (Hx c rc).
Qed.

(** One command of the editor under the handler of the loops *)
Lemma command_round (cmd : list string) (v : bool) (s : state) :
  ∃ l s',
    try_except (run E cmd v false true ;; sleep 500 ;; ret false)
      (catch_called_process_error (ret true)) s =
      (round_result (answer (spawn E cmd s)), s') ∧
    trace s' = trace s ++ l ∧
    spawned l = [(cmd, answer (spawn E cmd s))] ∧
    log s' = log s.
Proof.
  unfold try_except, bind, run.
  destruct (answer (spawn E cmd s)) as [rc out err|x]; simpl.
  - destruct (rc =? 0); simpl.
    + eexists [_; _], _. split; [reflexivity|]. simpl.
      split; [by rewrite <- app_assoc|done].
    + eexists [_], _. split; [reflexivity|done].
  - destruct x as [[c rc| | | | | | |]| |]; simpl;
      eexists [_], _; (split; [reflexivity|done]).
Qed.

Lemma install_extension_round (v : bool) :
  one_command_round (install_extension E v) install_command.
Proof.
  intros ext s.
  destruct (command_round (install_command ext) v s) as (l & s' & Hrun & H).
  exists (answer (spawn E (install_command ext) s)), l, s'.
  split; [|done]. rewrite <- Hrun. unfold install_extension, install_command.
  by destruct (pystr.contains "@" ext).
Qed.

Lemma uninstall_extension_round (v : bool) :
  one_command_round (uninstall_extension E v) uninstall_command.
Proof.
  intros ext s.
  destruct (command_round (uninstall_command ext) v s) as (l & s' & Hrun & H).
  exists (answer (spawn E (uninstall_command ext) s)), l, s'.
  split; [|done]. by rewrite <- Hrun.
Qed.

Lemma failed_names_cons (ext : string) (r : proc_outcome)
  (names : list string) (results : list proc_outcome) :
  failed_names (ext :: names) (r :: results) =
  (if failed r then [ext] else []) ++ failed_names names results.
Proof.
  unfold failed_names. simpl. rewrite filter_cons. simpl.
  destruct (failed r); by case_decide.
Qed.

(** The loop runs the rounds in order and keeps the names that failed;
    it stops at a round that ends with an error. *)
Lemma collect_failures_all (round : string → M bool)
  (command : string → list string) (exts : list string) :
  one_command_round round command →
  ∀ fail s, ∃ o results l s',
    collect_failures round exts fail s = (o, s') ∧
    trace s' = trace s ++ l ∧
    spawned l = zip (command <$> exts) results ∧
    (length results ≤ length exts)%nat ∧
    log s' = log s ∧
    (∀ x, aborted l x → o = Raise x) ∧
    ((∀ x, ¬ aborted l x) →
     length results = length exts ∧
     o = Ret (fail ++ failed_names exts results)).
Proof.
  intros Hround. induction exts as [|ext exts IH]; intros fail s.
  { exists (Ret fail), [], [], s. simpl. unfold ret. rewrite !app_nil_r.
    repeat split; try done. intros x Hx. by apply aborted_nil in Hx. }
  destruct (Hround ext s) as (r & l1 & s1 & Hr & Ht1 & Hs1 & Hl1).
  simpl. unfold bind at 1. rewrite Hr.
  destruct (round_result_cases _ _ _ Hs1) as [(x & Hrx & Hx)|[-> Hno1]].
  - rewrite Hrx.
    exists (Raise x), [r], l1, s1. simpl. split; [done|]. split; [done|].
    split; [rewrite Hs1; by destruct (list_fmap _ _ command exts)|].
    split; [lia|].
    split; [done|]. split.
    + intros x' [[c Hin] Hx']. rewrite Hs1 in Hin.
      apply list_elem_of_singleton in Hin. injection Hin as _ <-.
      rewrite round_result_failed in Hrx by done. by injection Hrx as ->.
    + intros Hno. by destruct (Hno x).
  - destruct (IH (if failed r then fail ++ [ext] else fail) s1)
      as (o & results & l & s' & Hrun & Ht & Hs & Hlen & Hl & Habort & Hfull).
    exists o, (r :: results), (l1 ++ l), s'. rewrite Hrun.
    split; [done|]. split; [by rewrite Ht, Ht1, app_assoc|].
    split; [by rewrite spawned_app, Hs1, Hs|]. split; [simpl; lia|].
    split; [by rewrite Hl, Hl1|]. split.
    + intros x [Hx|Hx]%aborted_app; [by destruct (Hno1 x)|by apply Habort].
    + intros Hno. destruct Hfull as [Hlen' ->].
      { intros x Hx. apply (Hno x). apply aborted_app. by right. }
      split; [simpl; by rewrite Hlen'|]. rewrite failed_names_cons.
      f_equal. destruct (failed r); by rewrite <- ?app_assoc.
Qed.

Lemma for_each_logger (lv : level) (f : string → string) (l : list string)
  (s : state) :
  ∃ s', for_each l (λ x, logger lv (f x)) s = (Ret tt, s') ∧
        log s' = log s ++ ((λ x, (lv, f x)) <$> l) ∧ trace s' = trace s.
Proof.
  revert s. induction l as [|x l IH]; intros s.
  { exists s. simpl. unfold ret. by rewrite app_nil_r. }
  simpl. unfold bind at 1. simpl.
  destruct (IH (State (files s) (dirs s) (clock s) (cwd s)
                  (log s ++ [(lv, f x)]) (trace s))) as (s' & Hrun & Hl & Ht).
  exists s'. rewrite Hrun, Hl, Ht. simpl. by rewrite <- app_assoc.
Qed.

Lemma report_failures_logs (fails : list string * list string) (s : state) :
  ∃ s', report_failures fails s = (Ret tt, s') ∧ trace s' = trace s ∧
        log s' = log s ++ (install_warning <$> fails.1) ++
                 (uninstall_warning <$> fails.2).
Proof.
  unfold report_failures.
  destruct (for_each_logger WARNING
              (λ ext, "Could not install VS Code extension '" +:+ ext +:+ "'")
              fails.1 s) as (s1 & Hrun1 & Hl1 & Ht1).
  destruct (for_each_logger WARNING
              (λ ext, "Could not uninstall extension '" +:+ ext
                        +:+ "' (maybe not installed)")
              fails.2 s1) as (s2 & Hrun2 & Hl2 & Ht2).
  exists s2. rewrite (bind_eq _ _ s s1 _ Hrun1), Hrun2.
  split; [done|]. split; [congruence|]. rewrite Hl2, Hl1.
  by rewrite <- app_assoc.
Qed.

(** The function is its two processing loops followed by its two
    reporting loops. *)
Lemma manage_vscode_extensions_stages (exts : extension_set) (v : bool)
  (s : state) :
  manage_vscode_extensions E exts v s =
  (fails <- process_extensions E exts v ;; report_failures fails) s.
Proof.
  unfold manage_vscode_extensions, process_extensions, report_failures, bind.
  simpl.
  destruct (collect_failures _ (install exts) _ _) as [[fi|r] s1]; [|done].
  destruct (collect_failures _ (uninstall exts) _ _) as [[fu|r] s2]; done.
Qed.

(** The processing loops: the commands of the entries in order, up to
    one that cannot be launched. *)
Lemma process_extensions_runs (exts : extension_set) (v : bool) (s : state) :
  ∃ o s' l,
    process_extensions E exts v s = (o, s') ∧
    trace s' = trace s ++ l ∧
    (spawned l).*1 `prefix_of` reconcile_commands exts ∧
    log s' = log s ++ [(INFO, "Managing VS Code extensions (user-level)")] ∧
    (∀ x, aborted l x → o = Raise x) ∧
    ((∀ x, ¬ aborted l x) →
     ∃ installs uninstalls,
       length installs = length (install exts) ∧
       length uninstalls = length (uninstall exts) ∧
       spawned l = zip (install_command <$> install exts) installs ++
                   zip (uninstall_command <$> uninstall exts) uninstalls ∧
       o = Ret (failed_names (install exts) installs,
                failed_names (uninstall exts) uninstalls)).
Proof.
  unfold process_extensions. unfold bind at 1. simpl.
  set (s0 := State _ _ _ _ _ _).
  assert (∀ (cmds : list (list string)) (results : list proc_outcome),
            (length results ≤ length cmds)%nat →
            (zip cmds results).*1 = take (length results) cmds) as Hzip.
  { intros cmds results. revert cmds.
    induction results as [|r results IH]; intros [|c cmds] Hlen; try done.
    simpl in *. rewrite IH; [done|]. lia. }
  destruct (collect_failures_all _ _ (install exts)
              (install_extension_round v) [] s0)
    as (o1 & installs & l1 & s1 & Hrun1 & Ht1 & Hs1 & Hlen1 & Hl1 & Hab1 & Hfull1).
  unfold bind at 1. rewrite Hrun1.
  destruct o1 as [fail_install|x].
  2:{ exists (Raise x), s1, l1. split; [done|]. split; [done|]. split.
      { rewrite Hs1, Hzip by by rewrite length_fmap.
        unfold reconcile_commands. apply prefix_app_r, prefix_take. }
      split; [by rewrite Hl1|]. split.
      - intros x' Hx'. apply Hab1 in Hx'. by injection Hx' as ->.
      - intros Hno. by destruct (Hfull1 Hno) as [_ ?]. }
  assert (∀ x, ¬ aborted l1 x) as Hno1.
  { intros x Hx. by apply Hab1 in Hx. }
  destruct (Hfull1 Hno1) as [Hlen1' [= ->]]. simpl.
  destruct (collect_failures_all _ _ (uninstall exts)
              (uninstall_extension_round v) [] s1)
    as (o2 & uninstalls & l2 & s2 & Hrun2 & Ht2 & Hs2 & Hlen2 & Hl2 & Hab2 & Hfull2).
  unfold bind at 1. rewrite Hrun2.
  assert ((spawned (l1 ++ l2)).*1 `prefix_of` reconcile_commands exts) as Hpre.
  { rewrite spawned_app, fmap_app, Hs1, Hs2, !Hzip
      by (rewrite length_fmap; lia).
    rewrite Hlen1', <- (length_fmap install_command), firstn_all.
    unfold reconcile_commands. apply prefix_app, prefix_take. }
  destruct o2 as [fail_uninstall|x].
  - assert (∀ x, ¬ aborted l2 x) as Hno2.
    { intros x Hx. by apply Hab2 in Hx. }
    destruct (Hfull2 Hno2) as [Hlen2' [= ->]].
    exists (Ret (failed_names (install exts) installs,
                 failed_names (uninstall exts) uninstalls)), s2, (l1 ++ l2).
    split; [done|]. split; [by rewrite Ht2, Ht1, app_assoc|].
    split; [done|]. split; [by rewrite Hl2, Hl1|]. split.
    + intros x [Hx|Hx]%aborted_app; [by destruct (Hno1 x)|by destruct (Hno2 x)].
    + intros _. exists installs, uninstalls. split; [done|]. split; [done|].
      split; [by rewrite spawned_app, Hs1, Hs2|done].
  - exists (Raise x), s2, (l1 ++ l2).
    split; [done|]. split; [by rewrite Ht2, Ht1, app_assoc|].
    split; [done|]. split; [by rewrite Hl2, Hl1|]. split.
    + intros x' [Hx'|Hx']%aborted_app; [by destruct (Hno1 x')|].
      apply Hab2 in Hx'. by injection Hx' as ->.
    + intros Hno. destruct (Hfull2) as [_ ?]; [|done].
      intros x' Hx'. apply (Hno x'). apply aborted_app. by right.
Qed.

(** C7, as the code has it. The reconciler runs the commands of the
    entries in order, those to install first. A command that ends with
    a return code other than 0 is a failure the batch survives: when
    every command ends with a return code, all entries are processed,
    the function returns, and the warnings, one for each name that
    failed, are logged after the last command. A command that cannot be
    launched, or is interrupted, ends the batch with its error: the
    entries after it are not processed and no warning is logged. *)
Theorem manage_vscode_extensions_completes (exts : extension_set)
  (v : bool) (s : state) :
  ∃ o s' l,
    manage_vscode_extensions E exts v s = (o, s') ∧
    manage_vscode_extensions E exts v s =
      (fails <- process_extensions E exts v ;; report_failures fails) s ∧
    trace s' = trace s ++ l ∧
    (spawned l).*1 `prefix_of` reconcile_commands exts ∧
    (∀ x, aborted l x →
       o = Raise x ∧
       log s' = log s ++ [(INFO, "Managing VS Code extensions (user-level)")]) ∧
    ((∀ x, ¬ aborted l x) →
     ∃ installs uninstalls s_mid,
       o = Ret tt ∧
       length installs = length (install exts) ∧
       length uninstalls = length (uninstall exts) ∧
       spawned l = zip (install_command <$> install exts) installs ++
                   zip (uninstall_command <$> uninstall exts) uninstalls ∧
       process_extensions E exts v s =
         (Ret (failed_names (install exts) installs,
               failed_names (uninstall exts) uninstalls), s_mid) ∧
       trace s_mid = trace s ++ l ∧
       log s_mid =
         log s ++ [(INFO, "Managing VS Code extensions (user-level)")] ∧
       report_failures (failed_names (install exts) installs,
                        failed_names (uninstall exts) uninstalls) s_mid =
         (Ret tt, s') ∧
       log s' = log s_mid ++
         (install_warning <$> failed_names (install exts) installs) ++
         (uninstall_warning <$> failed_names (uninstall exts) uninstalls)).
Proof.
  pose proof (manage_vscode_extensions_stages exts v s) as Hstages.
  destruct (process_extensions_runs exts v s)
    as (o1 & s1 & l & Hrun & Ht & Hpre & Hl & Habort & Hfull).
  assert (manage_vscode_extensions E exts v s =
          match o1 with
          | Ret fails => report_failures fails s1
          | Raise x => (Raise x, s1)
          end) as Hm.
  { rewrite Hstages. unfold bind at 1. by rewrite Hrun. }
  destruct o1 as [fails|x].
  - destruct (report_failures_logs fails s1) as (s' & Hrep & Ht' & Hl').
    exists (Ret tt), s', l. split; [by rewrite Hm|]. split; [done|].
    split; [congruence|]. split; [done|]. split.
    { intros x Hx. by apply Habort in Hx. }
    intros Hno.
    destruct (Hfull Hno) as (installs & uninstalls & Hlen1 & Hlen2 & Hs & [= ->]).
    exists installs, uninstalls, s1. repeat split; done.
  - exists (Raise x), s1, l. split; [done|]. split; [done|]. split; [done|].
    split; [done|]. split.
    + intros x' Hx'. apply Habort in Hx'. injection Hx' as ->. done.
    + intros Hno. by destruct (Hfull Hno) as (? & ? & _ & _ & _ & ?).
Qed.

End ReconcilerFacts.

Section ClonerFacts.

Context (E : env).

Lemma clone_attempts_step (url dest : string) (timeout : Z) (v deep : bool)
  (start : Z) (s : state) :
  clone_attempts E url dest timeout v deep start s =
  if clock s - start <? 1000 * timeout then
    match run E (clone_command url dest deep) v false true s with
    | (Ret _, s1) => (Ret true, s1)
    | (Raise (Exception (CalledProcessError _ _)), s1) =>
        clone_attempts E url dest timeout v deep start (sleep 1000 s1).2
    | (Raise r, s1) => (Raise r, s1)
    end
  else (Ret false, s).
Proof.
  funelim (clone_attempts E url dest timeout v deep start s).
  all: try (rewrite e; reflexivity).
  all: match goal with
       | Hg : (clock _ - _ <? _) = true,
         Hr : run _ _ _ _ _ _ = _ |- _ => rewrite Hg, Hr
       end.
  all: try reflexivity.
Qed.

(** An attempt that the loop takes up again does not count. *)
Lemma aborted_retried (cmd : list string) (res : proc_outcome)
  (l : list event) (x : raised) :
  (∀ y, res = Failed y → ∃ c rc, y = Exception (CalledProcessError c rc)) →
  aborted (EvSpawn cmd res :: EvSleep 1000 :: l) x ↔ aborted l x.
Proof.
  intros Hres. unfold aborted. simpl. split.
  - intros [[c [Heq|Hin]%elem_of_cons] Hx]; [|by eauto].
    injection Heq as _ Hr.
    destruct (Hres x) as (c' & rc & ->); [done|]. by destruct (Hx c' rc).
  - intros [[c Hin] Hx]. split; [|done]. exists c. by right.
Qed.

Lemma all_failed_cons (cmd : list string) (res : proc_outcome)
  (l : list event) :
  all_failed (EvSpawn cmd res :: EvSleep 1000 :: l) ↔
  failed res = true ∧ all_failed l.
Proof. unfold all_failed. simpl. by rewrite Forall_cons. Qed.

(** The attempts of the loop. An attempt that leaves with anything but
    a return code other than 0 ends the loop: with [true] after a
    success, with the error of a launch that failed. Otherwise the
    loop goes on until the time is used up, and leaves with [false]. *)
Lemma clone_attempts_outcomes (url dest : string) (timeout : Z)
  (v deep : bool) (start : Z) :
  ∀ s, ∃ o s' l,
    clone_attempts E url dest timeout v deep start s = (o, s') ∧
    trace s' = trace s ++ l ∧
    log s' = log s ∧
    Forall (λ cr, cr.1 = clone_command url dest deep) (spawned l) ∧
    (∀ x, aborted l x → o = Raise x) ∧
    ((∀ x, ¬ aborted l x) →
     (o = Ret true ∧ ¬ all_failed l) ∨
     (o = Ret false ∧ all_failed l ∧ 1000 * timeout ≤ clock s' - start)) ∧
    (∀ d,
       (∀ s0, Z.of_N (elapsed (spawn E (clone_command url dest deep) s0)) ≤ d) →
       o = Ret false →
       clock s - start < Z.max 0 (1000 * timeout) + d + 1000 →
       clock s' - start < Z.max 0 (1000 * timeout) + d + 1000).
Proof.
  intros s.
  remember (Z.to_nat (start + 1000 * timeout - clock s)) as n eqn:Hn.
  revert s Hn. induction n as [n IH] using lt_wf_ind. intros s Hn.
  rewrite clone_attempts_step.
  destruct (clock s - start <? 1000 * timeout) eqn:Hguard.
  2:{ apply Z.ltb_ge in Hguard. exists (Ret false), s, [].
      rewrite app_nil_r. split; [done|]. split; [done|]. split; [done|].
      split; [apply Forall_nil_2|]. split.
      { intros x Hx. by apply aborted_nil in Hx. }
      split; [|done]. intros _. right. split; [done|].
      split; [apply Forall_nil_2|done]. }
  apply Z.ltb_lt in Hguard.
  set (cmd := clone_command url dest deep).
  destruct (run E cmd v false true s) as [o1 s1] eqn:Hrun.
  assert (trace s1 = trace s ++ [EvSpawn cmd (answer (spawn E cmd s))] ∧
          log s1 = log s ∧
          clock s1 = clock s + Z.of_N (elapsed (spawn E cmd s))) as (Ht1 & Hl1 & Hc1).
  { unfold run in Hrun. destruct (answer (spawn E cmd s)) as [rc out err|e];
      [destruct (true && negb (rc =? 0))|]; by injection Hrun as _ <-. }
  assert (∀ res, answer (spawn E cmd s) = res →
            (∀ y, res = Failed y → ∃ c rc, y = Exception (CalledProcessError c rc)) →
            failed res = true →
            ∃ o s' l,
              clone_attempts E url dest timeout v deep start (sleep 1000 s1).2
                = (o, s') ∧
              trace s' = trace s ++ l ∧ log s' = log s ∧
              Forall (λ cr, cr.1 = cmd) (spawned l) ∧
              (∀ x, aborted l x → o = Raise x) ∧
              ((∀ x, ¬ aborted l x) →
               (o = Ret true ∧ ¬ all_failed l) ∨
               (o = Ret false ∧ all_failed l ∧
                1000 * timeout ≤ clock s' - start)) ∧
              (∀ d,
                 (∀ s0, Z.of_N (elapsed (spawn E cmd s0)) ≤ d) →
                 o = Ret false →
                 clock s - start < Z.max 0 (1000 * timeout) + d + 1000 →
                 clock s' - start < Z.max 0 (1000 * timeout) + d + 1000))
    as Hretry.
  { intros res Hres Hcpe Hfail.
    destruct (IH (Z.to_nat (start + 1000 * timeout - clock (sleep 1000 s1).2))
                ltac:(simpl; lia) (sleep 1000 s1).2 eq_refl)
      as (o & s' & l & Hloop & Ht & Hl & Hcmd & Habort & Hends & Htime).
    exists o, s', (EvSpawn cmd res :: EvSleep 1000 :: l).
    split; [done|]. split.
    { rewrite Ht. simpl. rewrite Ht1, Hres. by rewrite <- !app_assoc. }
    split; [by rewrite Hl|]. split.
    { simpl. by apply Forall_cons. }
    split.
    { intros x Hx. apply Habort. by apply aborted_retried in Hx. }
    split.
    - intros Hno.
      destruct Hends as [[-> Hnot]|(-> & Hall & Hlow)].
      + intros x Hx. apply (Hno x). by apply aborted_retried.
      + left. split; [done|]. rewrite all_failed_cons. tauto.
      + right. split; [done|]. rewrite all_failed_cons. done.
    - intros d Hd Ho _. apply (Htime d Hd Ho). simpl.
      specialize (Hd s). fold cmd in Hd. lia. }
  assert (o1 = match answer (spawn E cmd s) with
               | Completed rc out err =>
                   if rc =? 0 then Ret (CompletedProcess rc out err)
                   else Raise (Exception (CalledProcessError cmd rc))
               | Failed x => Raise x
               end) as Ho1.
  { unfold run in Hrun. destruct (answer (spawn E cmd s)) as [rc out err|e];
      [destruct (rc =? 0)|]; simpl in Hrun; by injection Hrun as <- _. }
  clear Hrun.
  destruct (answer (spawn E cmd s)) as [rc out err|x] eqn:Hres.
  - destruct (rc =? 0) eqn:Hrc; subst o1.
    + exists (Ret true), s1, [EvSpawn cmd (Completed rc out err)].
      split; [done|]. split; [done|]. split; [done|].
      split; [by apply Forall_singleton|]. split.
      { intros x [[c Hin] _]. simpl in Hin.
        by apply list_elem_of_singleton in Hin. }
      split; [|done]. intros _. left. split; [done|].
      unfold all_failed. simpl. intros Hall.
      apply (proj1 (Forall_singleton _ _)) in Hall. simpl in Hall.
      by rewrite Hrc in Hall.
    + apply (Hretry (Completed rc out err)); [done|done|].
      simpl. by rewrite Hrc.
  - subst o1.
    assert ((∃ c rc, x = Exception (CalledProcessError c rc)) ∨
            (∀ c rc, x ≠ Exception (CalledProcessError c rc)))
      as [(c & rc & ->)|Hx].
    { destruct x as [[c rc| | | | | | |]| |];
        [left; eauto|right; intros ? ?; discriminate..]. }
    + apply (Hretry (Failed (Exception (CalledProcessError c rc)))); [done| |done].
      intros y [= <-]. eauto.
    + exists (Raise x), s1, [EvSpawn cmd (Failed x)].
      split.
      { destruct x as [[c rc| | | | | | |]| |]; try done.
        by destruct (Hx c rc). }
      split; [done|]. split; [done|]. split; [by apply Forall_singleton|].
      split.
      { intros x' [[c Hin] _]. simpl in Hin.
        apply list_elem_of_singleton in Hin. by injection Hin as _ <-. }
      split; [|done]. intros Hno. destruct (Hno x). split; [|done].
      exists cmd. simpl. by apply list_elem_of_singleton.
Qed.

(** C4, as the code has it. An attempt that cannot be launched, or is
    interrupted, ends [git_clone_with_retries] with its error at once.
    When every attempt ends with a return code, the function raises
    its own error exactly when no attempt succeeded before the time ran
    out and the destination does not exist at that point, and returns
    otherwise; and when attempts take at most [d] milliseconds and all
    fail, at least [timeout] seconds have passed at the end, and less
    than [timeout] seconds plus one attempt and one pause. *)
Theorem git_clone_with_retries_fails_iff (url dest : string) (timeout : Z)
  (v deep : bool) (s : state) :
  ∃ o s' l,
    git_clone_with_retries E url dest timeout v deep s = (o, s') ∧
    trace s' = trace s ++ l ∧
    Forall (λ cr, cr.1 = clone_command url dest deep) (spawned l) ∧
    (∀ x, aborted l x → o = Raise x) ∧
    ((∀ x, ¬ aborted l x) →
     (o = Raise (Exception (RuntimeError ("Failed to clone " +:+ url))) ↔
      all_failed l ∧ exists_ dest s' = false) ∧
     (o = Ret tt ↔ ¬ (all_failed l ∧ exists_ dest s' = false))) ∧
    (∀ d,
       (∀ s0, Z.of_N (elapsed (spawn E (clone_command url dest deep) s0)) ≤ d) →
       (∀ x, ¬ aborted l x) → all_failed l →
       1000 * timeout ≤ clock s' - clock s ∧
       clock s' - clock s < Z.max 0 (1000 * timeout) + d + 1000).
Proof.
  unfold git_clone_with_retries.
  unfold bind at 1. simpl. rewrite bind_probe. simpl.
  set (s0 := State _ _ _ _ _ _).
  destruct (clone_attempts_outcomes url dest timeout v deep (clock s) s0)
    as (o1 & s' & l & Hloop & Ht & Hl & Hcmd & Habort & Hends & Htime).
  unfold bind at 1. rewrite Hloop.
  destruct o1 as [returned|x].
  2:{ exists (Raise x), s', l. split; [done|]. split; [done|]. split; [done|].
      split; [intros x0 Hx0; apply Habort in Hx0; by injection Hx0 as ->|].
      split.
      - intros Hno. by destruct (Hends Hno) as [[? _]|[? _]].
      - intros d Hd Hno. by destruct (Hends Hno) as [[? _]|[? _]]. }
  assert (∀ x, ¬ aborted l x) as Hno.
  { intros x Hx. by apply Habort in Hx. }
  destruct (Hends Hno) as [[[= ->] Hnot]|([= ->] & Hall & Hlow)].
  - exists (Ret tt), s', l. split; [done|]. split; [done|]. split; [done|].
    split; [intros x Hx; by destruct (Hno x)|]. split; [|tauto].
    intros _. split; [split; [done|tauto]|tauto].
  - rewrite bind_probe.
    assert (∀ d,
              (∀ s1, Z.of_N (elapsed (spawn E (clone_command url dest deep) s1))
                     ≤ d) →
              1000 * timeout ≤ clock s' - clock s ∧
              clock s' - clock s < Z.max 0 (1000 * timeout) + d + 1000)
      as Hbounds.
    { intros d Hd. split; [done|]. apply (Htime d Hd eq_refl). simpl.
      specialize (Hd s). lia. }
    destruct (exists_ dest s') eqn:Hex.
    + exists (Ret tt), s', l. split; [done|]. split; [done|]. split; [done|].
      split; [intros x Hx; by destruct (Hno x)|]. split.
      * intros _. split; [split; [done|]|split; [|done]].
        -- intros [_ ?]. congruence.
        -- intros _ [_ ?]. congruence.
      * intros d Hd _ _. by apply Hbounds.
    + exists (Raise (Exception (RuntimeError ("Failed to clone " +:+ url)))),
        s', l.
      split; [done|]. split; [done|]. split; [done|].
      split; [intros x Hx; by destruct (Hno x)|]. split.
      * intros _. split; [done|]. split; [done|]. intros Hnot.
        by destruct Hnot.
      * intros d Hd _ _. by apply Hbounds.
Qed.

End ClonerFacts.

(** ** The cloner and the reconciler on the sample machine *)

Section ProcessInstances.

Lemma git_clone_with_retries_fails_iff_witness :
  (∃ s', git_clone_with_retries failing_remote_env (sample_project +:+ ".git")
           sample_dest 3 false false (sample_state ∅ ∅) =
           (Raise (Exception (RuntimeError
              ("Failed to clone " +:+ sample_project +:+ ".git"))), s') ∧
         3000 ≤ clock s' < 3000 + 200 + 1000) ∧
  (git_clone_with_retries interrupted_env (sample_project +:+ ".git")
     sample_dest 3 false false (sample_state ∅ ∅)).1 = Raise KeyboardInterrupt.
Proof.
  split.
  - destruct (git_clone_with_retries_fails_iff failing_remote_env
                (sample_project +:+ ".git") sample_dest 3 false false
                (sample_state ∅ ∅))
      as (o & s' & l & Hrun & Ht & _ & _ & Hiff & Htime).
    assert (all_failed l ∧ exists_ sample_dest s' = false ∧
            ∀ x, ¬ aborted l x) as (Hall & Hdest & Hno).
    { vm_compute in Hrun. injection Hrun as _ <-. simpl in Ht. subst l.
      split; [|split; [by vm_compute|]].
      - unfold all_failed. vm_compute spawned.
        repeat (apply Forall_cons; split; [reflexivity|]). apply Forall_nil_2.
      - intros x [[cmd Hin] _]. vm_compute spawned in Hin.
        repeat (apply elem_of_cons in Hin as [Hin|Hin]; [discriminate Hin|]).
        by apply elem_of_nil in Hin. }
    exists s'. rewrite <- (proj2 (proj1 (Hiff Hno)) (conj Hall Hdest)).
    split; [exact Hrun|].
    assert (∀ s0, Z.of_N (elapsed (spawn failing_remote_env
                    (clone_command (sample_project +:+ ".git") sample_dest false)
                    s0)) ≤ 200) as Hd.
    { intros s0. simpl. lia. }
    pose proof (Htime 200 Hd Hno Hall) as Hbound. simpl in Hbound. lia.
  - destruct (git_clone_with_retries_fails_iff interrupted_env
                (sample_project +:+ ".git") sample_dest 3 false false
                (sample_state ∅ ∅))
      as (o & s' & l & Hrun & Ht & _ & Habort & _).
    rewrite Hrun. simpl. apply Habort.
    vm_compute in Hrun. injection Hrun as _ <-. simpl in Ht. subst l.
    split; [|done]. eexists. vm_compute spawned. by left.
Defined.

(** C4 as stated fails when the failed attempts leave the destination
    behind: no attempt succeeds, and the function returns. *)
Lemma git_clone_with_retries_returns_after_failures :
  let s := sample_state ∅ ∅ in
  let r := git_clone_with_retries littering_env (sample_project +:+ ".git")
             sample_dest 3 false false s in
  ¬ (all_failed (new_events s r.2) → ∃ e, r.1 = Raise e).
Proof.
  intros s r Hclaim. destruct Hclaim as [e He].
  - unfold all_failed. vm_compute.
    repeat (apply Forall_cons; split; [reflexivity|]). apply Forall_nil_2.
  - vm_compute in He. discriminate He.
Qed.

Lemma manage_vscode_extensions_completes_witness :
  ∃ s', manage_vscode_extensions picky_env VSCODE_EXTENSIONS false
          (sample_state ∅ ∅) = (Ret tt, s') ∧
        log s' =
          [(INFO, "Managing VS Code extensions (user-level)");
           install_warning "matangover.mypy@0.4.2";
           uninstall_warning "formulahendry.code-runner"] ∧
        length (spawned (trace s')) = 7%nat.
Proof.
  destruct (manage_vscode_extensions_completes picky_env VSCODE_EXTENSIONS
              false (sample_state ∅ ∅))
    as (o & s' & l & Hrun & _ & Ht & _ & _ & Hfull).
  destruct Hfull as (installs & uninstalls & s_mid & -> & _).
  - vm_compute in Hrun. injection Hrun as _ <-. simpl in Ht. subst l.
    intros x [[cmd Hin] _]. vm_compute spawned in Hin.
    repeat (apply elem_of_cons in Hin as [Hin|Hin]; [discriminate Hin|]).
    by apply elem_of_nil in Hin.
  - exists s'. split; [exact Hrun|].
    vm_compute in Hrun. injection Hrun as <-. by vm_compute.
Defined.

(** C7 as stated fails when a command cannot be launched: the batch
    stops at this entry, the entries after it are not processed, and
    no warning tells of it. *)
Lemma manage_vscode_extensions_aborts :
  let r := manage_vscode_extensions vanishing_env VSCODE_EXTENSIONS false
             (sample_state ∅ ∅) in
  ¬ (r.1 = Ret tt ∧ length (spawned (trace r.2)) = 7%nat).
Proof. intros r [Hret _]. vm_compute in Hret. discriminate Hret. Qed.

End ProcessInstances.

(** ** GitRepoUpdater *)

Section UpdaterFacts.

Context (E : env).

(** A subprocess either hands its result to the caller or raises; in
    both cases it is the one new event. *)
Lemma run_cases (cmd : list string) (v c k : bool) (s : state) :
  ∃ res s',
    trace s' = trace s ++ [EvSpawn cmd res] ∧ log s' = log s ∧
    ((∃ rc out err, res = Completed rc out err ∧
        run E cmd v c k s = (Ret (CompletedProcess rc out err), s')) ∨
     (∃ r, run E cmd v c k s = (Raise r, s') ∧
           (res = Failed r ∨
            k = true ∧ ∃ rc out err,
              res = Completed rc out err ∧
              r = Exception (CalledProcessError cmd rc)))).
Proof.
  set (r := spawn E cmd s).
  exists (answer r),
    (State (files_after r) (dirs_after r) (clock s + Z.of_N (elapsed r))
       (cwd s) (log s) (trace s ++ [EvSpawn cmd (answer r)])).
  split; [done|]. split; [done|]. unfold run. fold r.
  destruct (answer r) as [rc out err|e].
  - destruct k; simpl; [|left; eauto].
    destruct (negb (rc =? 0)); [right|left]; eauto 10.
  - right. eauto.
Qed.

Lemma update_failure_message_differs (cmd : list string) (rc : Z) :
  "Update failed: " +:+ str_exn (CalledProcessError cmd rc) ≠
  "Update failed: " +:+ conflict_message.
Proof.
  intros H. apply (inj (String.app _)) in H. simpl in H.
  by destruct (rc <? 0).
Qed.

Lemma conflict_detected (rc : Z) (out err : string) :
  conflict_reported (Completed rc out err) →
  pystr.contains "conflict" (pystr.lower out)
  || pystr.contains "conflict" (pystr.lower err) = true.
Proof.
  intros (? & ? & ? & [= <- <- <-] & H). by apply orb_true_iff.
Qed.

Ltac chain_traces :=
  repeat match goal with
         | H : trace _ = _ ++ _ |- _ => rewrite H; clear H
         end;
  rewrite <- ?app_assoc; reflexivity.

Ltac chain_logs :=
  repeat match goal with
         | H : log _ = log _ |- _ => rewrite H; clear H
         end;
  reflexivity.

Ltac spawned_cases H :=
  cbn in H;
  repeat (apply elem_of_cons in H as [H|H]; [try (by simplify_eq)|]);
  try (by apply elem_of_nil in H).

Ltac update_step s0 :=
  lazymatch goal with
  | |- context [bind (run ?X ?cmd ?v ?c ?k) ?f s0] =>
      let res := fresh "res" in
      let s1 := fresh "s" in
      let Ht := fresh "Ht" in
      let Hl := fresh "Hl" in
      let Hrun := fresh "Hrun" in
      let rc := fresh "rc" in
      let out := fresh "out" in
      let err := fresh "err" in
      let x := fresh "x" in
      let Hwhy := fresh "Hwhy" in
      destruct (run_cases cmd v c k s0)
        as (res & s1 & Ht & Hl
            & [(rc & out & err & -> & Hrun)|(x & Hrun & Hwhy)]);
      [rewrite (bind_eq _ _ s0 s1 _ Hrun)
      |rewrite (bind_raise _ _ s0 s1 x Hrun)]
  end.

(** The commands of an update: never a [stash drop], and the
    [stash pop], when it is reached, is the last one; a conflict in its
    output raises the conflict error. *)
Lemma update_commands_shape (v : bool) (s : state) :
  ∃ o s' l,
    update_commands E v s = (o, s') ∧
    trace s' = trace s ++ l ∧
    log s' = log s ∧
    (∀ c r, (c, r) ∈ spawned l → c ≠ stash_drop) ∧
    (∀ res, (stash_pop, res) ∈ spawned l →
       (∃ before, spawned l = before ++ [(stash_pop, res)]) ∧
       (conflict_reported res →
        o = Raise (Exception (RuntimeError conflict_message)))).
Proof.
  unfold update_commands, stash_pop, stash_drop.
  update_step s.
  2:{ eexists _, _, _. split; [reflexivity|]. split; [chain_traces|].
      split; [chain_logs|]. split; [intros ? ? Hin|intros ? Hin]; spawned_cases Hin. }
  update_step s0.
  2:{ eexists _, _, _. split; [reflexivity|]. split; [chain_traces|].
      split; [chain_logs|]. split; [intros ? ? Hin|intros ? Hin]; spawned_cases Hin. }
  update_step s1.
  2:{ eexists _, _, _. split; [reflexivity|]. split; [chain_traces|].
      split; [chain_logs|]. split; [intros ? ? Hin|intros ? Hin]; spawned_cases Hin. }
  update_step s2.
  2:{ eexists _, _, _. split; [reflexivity|]. split; [chain_traces|].
      split; [chain_logs|]. split; [intros ? ? Hin|intros ? Hin]; spawned_cases Hin. }
  cbn [stdout].
  update_step s3.
  2:{ eexists _, _, _. split; [reflexivity|]. split; [chain_traces|].
      split; [chain_logs|]. split; [intros ? ? Hin|intros ? Hin]; spawned_cases Hin. }
  update_step s4.
  2:{ eexists _, _, _. split; [reflexivity|]. split; [chain_traces|].
      split; [chain_logs|]. split; [intros ? ? Hin|intros ? Hin]; spawned_cases Hin.
      simplify_eq. split; [by eexists [_; _; _; _; _]|].
      destruct Hwhy as [->|[? _]]; [|done]. by intros (? & ? & ? & ? & _). }
  cbn [stdout stderr].
  destruct (_ || _) eqn:Hconflict.
  - eexists _, _, _. split; [reflexivity|]. split; [chain_traces|].
    split; [chain_logs|]. split; [intros ? ? Hin|intros ? Hin]; spawned_cases Hin.
    simplify_eq. split; [by eexists [_; _; _; _; _]|done].
  - eexists _, _, _. split; [reflexivity|]. split; [chain_traces|].
    split; [chain_logs|]. split; [intros ? ? Hin|intros ? Hin]; spawned_cases Hin.
    simplify_eq. split; [by eexists [_; _; _; _; _]|].
    intros Hrep%conflict_detected. congruence.
Qed.

End UpdaterFacts.

Section UpdaterTheorems.

Context (E : env).

(** What the handler around the update leaves: the result of the
    commands, an exception turned into two log entries. *)
Lemma update_project_cases (v : bool) (s : state) :
  ∃ o s1 l,
    update_commands E v s = (o, s1) ∧
    trace s1 = trace s ++ l ∧ log s1 = log s ∧
    new_events s (update_project E v s).2 = l ∧
    match o with
    | Raise (Exception e) =>
        (update_project E v s).1 = Ret tt ∧
        log (update_project E v s).2 =
          log s ++ [(ERROR, "Update failed: " +:+ str_exn e);
                    (ERROR, stash_advice)]
    | _ => update_project E v s = (o, s1)
    end.
Proof.
  destruct (update_commands_shape E v s) as (o & s1 & l & Hrun & Ht & Hl & _).
  exists o, s1, l. split; [done|]. split; [done|]. split; [done|].
  unfold update_project, try_except. rewrite Hrun.
  destruct o as [u|[e| |code]]; simpl.
  - split; [by apply new_events_app|done].
  - split; [by apply new_events_app|]. split; [done|].
    by rewrite Hl, <- app_assoc.
  - split; [by apply new_events_app|done].
  - split; [by apply new_events_app|done].
Qed.

(** C3: a conflict reported by the stash pop raises the conflict
    error inside the update; the handler around the update catches it,
    like every exception of the update, logs its cause and the advice
    that the changes may still be stashed, and the pipeline goes on; no
    command follows the pop and none drops the stash; the logged
    message of the conflict differs from that of a failed command. *)
Theorem update_project_reports_conflict (v : bool) (s : state) :
  let r := update_project E v s in
  (∀ e, r.1 ≠ Raise (Exception e)) ∧
  (∀ c res, (c, res) ∈ spawned (new_events s r.2) → c ≠ stash_drop) ∧
  (∀ res,
     (stash_pop, res) ∈ spawned (new_events s r.2) →
     conflict_reported res →
     (∃ s1, update_commands E v s =
              (Raise (Exception (RuntimeError conflict_message)), s1)) ∧
     r.1 = Ret tt ∧
     log r.2 = log s ++ [(ERROR, "Update failed: " +:+ conflict_message);
                         (ERROR, stash_advice)] ∧
     (∃ before, spawned (new_events s r.2) = before ++ [(stash_pop, res)]) ∧
     (∀ (A : Type) (k : unit → M A), bind (update_project E v) k s = k tt r.2)) ∧
  (∀ e s1,
     update_commands E v s = (Raise (Exception e), s1) →
     r.1 = Ret tt ∧
     log r.2 = log s ++ [(ERROR, "Update failed: " +:+ str_exn e);
                         (ERROR, stash_advice)] ∧
     (∀ (A : Type) (k : unit → M A), bind (update_project E v) k s = k tt r.2)) ∧
  (∀ cmd rc,
     "Update failed: " +:+ str_exn (CalledProcessError cmd rc) ≠
     "Update failed: " +:+ conflict_message) ∧
  (∀ args course s0 e,
     clone args = false → deep_clone args = false →
     is_dir (course +:+ "/.git") s0 = true → is_dir course s0 = true →
     (main_checkout E args true course s0).1 ≠ Raise (Exception e)).
Proof.
  intros r.
  assert (∀ s0 e, (update_project E v s0).1 ≠ Raise (Exception e)) as Hcaught.
  { intros s0 e.
    destruct (update_project_cases v s0) as (o & s1 & l & _ & _ & _ & _ & Ho).
    destruct o as [u|[e'| |code]]; [by rewrite Ho|by rewrite (proj1 Ho)|
                                    by rewrite Ho..]. }
  assert (∀ (A : Type) (k : unit → M A),
            r.1 = Ret tt → bind (update_project E v) k s = k tt r.2) as Hgo.
  { intros A k Hret. subst r. unfold bind.
    destruct (update_project E v s) as [o s']. simpl in Hret. by subst o. }
  destruct (update_commands_shape E v s)
    as (o & s1 & l & Hrun & Ht & Hl & Hdrop & Hpop).
  destruct (update_project_cases v s)
    as (o' & s1' & l' & Hrun' & Ht' & _ & Hnew & Ho).
  rewrite Hrun in Hrun'. injection Hrun' as <- <-.
  assert (l' = l) as ->.
  { rewrite Ht in Ht'. by apply app_inv_head in Ht'. }
  subst r. rewrite Hnew. split; [by apply Hcaught|]. split; [done|].
  split; [|split; [|split]].
  - intros res Hin Hconflict. destruct (Hpop res Hin) as [Hlast Hraise].
    specialize (Hraise Hconflict). subst o. destruct Ho as [Hret Hlog].
    split; [by exists s1|]. split; [done|]. split; [done|]. split; [done|].
    intros A k. by apply Hgo.
  - intros e s2 Hrun2. rewrite Hrun in Hrun2. injection Hrun2 as -> _.
    destruct Ho as [Hret Hlog]. split; [done|]. split; [done|].
    intros A k. by apply Hgo.
  - apply update_failure_message_differs.
  - intros args course s0 e Hc Hd Hgit Hdir. unfold main_checkout.
    rewrite Hc, Hd. simpl. rewrite bind_ret_l, bind_probe, Hgit.
    unfold bind at 1, chdir. rewrite Hdir. unfold bind at 1. simpl.
    destruct args as [b c d f vb]. simpl.
    assert (∀ s2 e2, (update_project E vb s2).1 ≠ Raise (Exception e2)) as Hvb.
    { intros s2 e2.
      destruct (update_project_cases vb s2) as (o2 & s3 & l2 & _ & _ & _ & _ & Ho2).
      destruct o2 as [u|[e'| |code]]; [by rewrite Ho2|by rewrite (proj1 Ho2)|
                                       by rewrite Ho2..]. }
    apply Hvb.
Qed.

End UpdaterTheorems.

(** ** Process boundary *)

Section EntryTheorems.

Context (E : env).

Lemma error_message_not_interrupted (e : exn) :
  "Error: " +:+ str_exn e ≠ interrupted_message.
Proof. done. Qed.

(** C8: an exception that leaves [main] ends the process with status
    1 after one CRITICAL entry that carries its text; a normal return
    and an interrupt end it with status 0, the interrupt after the one
    entry "Interrupted", which no error entry equals; an exit request
    keeps its code. *)
Theorem dunder_main_exit_status (s : state) :
  (∀ e s',
     main E s = (Raise (Exception e), s') →
     ∃ s'', dunder_main E s = (1, s'') ∧
            log s'' = log s' ++ [(CRITICAL, "Error: " +:+ str_exn e)] ∧
            trace s'' = trace s' ∧ files s'' = files s') ∧
  (∀ u s', main E s = (Ret u, s') → dunder_main E s = (0, s')) ∧
  (∀ s',
     main E s = (Raise KeyboardInterrupt, s') →
     ∃ s'', dunder_main E s = (0, s'') ∧
            log s'' = log s' ++ [(CRITICAL, interrupted_message)] ∧
            trace s'' = trace s' ∧ files s'' = files s') ∧
  (∀ code s',
     main E s = (Raise (SystemExit code), s') → dunder_main E s = (code, s')) ∧
  ((dunder_main E s).1 ≠ 0 ↔
   (∃ e, (main E s).1 = Raise (Exception e)) ∨
   (∃ code, code ≠ 0 ∧ (main E s).1 = Raise (SystemExit code))) ∧
  (∀ e, "Error: " +:+ str_exn e ≠ interrupted_message).
Proof.
  unfold dunder_main. split; [|split; [|split; [|split; [|split]]]].
  - intros e s' ->. eexists. split; [reflexivity|]. done.
  - by intros u s' ->.
  - intros s' ->. eexists. split; [reflexivity|]. done.
  - by intros code s' ->.
  - destruct (main E s) as [[u|[e| |code]] s']; simpl.
    + split; [done|]. intros [[e ?]|(code & _ & ?)]; done.
    + split; [eauto|done].
    + split; [done|]. intros [[e ?]|(code & _ & ?)]; done.
    + split.
      * intros Hne. right. by exists code.
      * intros [[e ?]|(c & Hc & [= ->])]; done.
  - apply error_message_not_interrupted.
Qed.

End EntryTheorems.

(** ** The updater and the entry point on the sample machine *)

Section PipelineInstances.

Lemma update_project_reports_conflict_witness :
  let r := update_project conflicting_env false git_checkout in
  r.1 = Ret tt ∧
  log r.2 = [(ERROR, "Update failed: " +:+ conflict_message);
             (ERROR, stash_advice)] ∧
  (main_checkout conflicting_env sample_arguments true sample_dest
     git_checkout).1 = Ret tt.
Proof.
  intros r.
  destruct (update_project_reports_conflict conflicting_env false git_checkout)
    as (_ & _ & Hconflict & _ & _ & Hmain).
  destruct (Hconflict (Completed 1 "Auto-merging notes.md"
              "CONFLICT (content): Merge conflict in notes.md"))
    as (_ & Hret & Hlog & _).
  - vm_compute. apply list_elem_of_In. do 5 right. by left.
  - eexists _, _, _. split; [reflexivity|]. right. by vm_compute.
  - split; [exact Hret|]. split; [exact Hlog|].
    specialize (Hmain sample_arguments sample_dest git_checkout).
    destruct (main_checkout _ _ _ _ _).1 as [[]|[e| |code]] eqn:Hrun;
      [done|by destruct (Hmain e)|by vm_compute in Hrun..].
Defined.

Lemma dunder_main_exit_status_witness :
  (∃ s', dunder_main quiet_env (sample_state ∅ ∅) = (1, s') ∧
         last (log s') =
           Some (CRITICAL,
                 "Error: Target folder /home/student/Desktop/myfiles does not exist")) ∧
  (∃ s', dunder_main interrupted_env (sample_state ∅ ∅) = (0, s') ∧
         last (log s') = Some (CRITICAL, interrupted_message)).
Proof.
  split.
  - destruct (dunder_main_exit_status quiet_env (sample_state ∅ ∅))
      as (Hfatal & _).
    destruct (Hfatal (RuntimeError
                "Target folder /home/student/Desktop/myfiles does not exist")
                (main quiet_env (sample_state ∅ ∅)).2)
      as (s'' & Hrun & Hlog & _); [by vm_compute|].
    exists s''. split; [exact Hrun|]. rewrite Hlog. by rewrite last_snoc.
  - destruct (dunder_main_exit_status interrupted_env (sample_state ∅ ∅))
      as (_ & _ & Hint & _).
    destruct (Hint (main interrupted_env (sample_state ∅ ∅)).2)
      as (s'' & Hrun & Hlog & _); [by vm_compute|].
    exists s''. split; [exact Hrun|]. rewrite Hlog. by rewrite last_snoc.
Defined.

End PipelineInstances.

(** ** Release selection *)

Section TagFacts.

Import pystr get_release.

Lemma span_digits_split (s : string) :
  s = (span_digits s).1 +:+ (span_digits s).2 ∧
  isdigits (span_digits s).1 = true ∧ ends_number (span_digits s).2.
Proof.
  induction s as [|c s (IH1 & IH2 & IH3)]; [done|]. simpl.
  destruct (isdigit c) eqn:Hc.
  - destruct (span_digits s) as [d rest]. simpl in *.
    rewrite app_cons, <- IH1. unfold isdigits in *. simpl. by rewrite Hc, IH2.
  - done.
Qed.

Lemma span_digits_number (d rest : string) :
  isdigits d = true → ends_number rest → span_digits (d +:+ rest) = (d, rest).
Proof.
  intros Hd Hrest. induction d as [|c d IH].
  - destruct rest as [|c r]; [done|]. simpl in *. by rewrite Hrest.
  - unfold isdigits in *. simpl in Hd. apply andb_true_iff in Hd as [Hc Hd].
    rewrite app_cons. simpl. by rewrite Hc, IH.
Qed.

Lemma join_dotted (x : string) (ds : list string) :
  join "." (x :: ds) = x +:+ dotted ds.
Proof.
  revert x. induction ds as [|d ds IH]; intros x.
  - by rewrite app_empty_r.
  - rewrite join_cons by done. by rewrite IH.
Qed.

Lemma dotted_ends_number (ds : list string) (rest : string) :
  ends_number rest → ends_number (dotted ds +:+ rest).
Proof. by destruct ds. Qed.

Lemma digits_spec (d : string) : digits d ↔ d ≠ "" ∧ isdigits d = true.
Proof. done. Qed.

Lemma dot_groups_split (n : nat) (s : string) :
  ∃ ds, (length ds ≤ n)%nat ∧ Forall digits ds ∧
        (dot_groups n s).1 = dotted ds ∧
        s = dotted ds +:+ (dot_groups n s).2.
Proof.
  revert s. induction n as [|n IH]; intros s.
  { exists []. split; [simpl; lia|done]. }
  assert (∀ t : string, ∃ ds, (length ds ≤ S n)%nat ∧ Forall digits ds ∧
            "" = dotted ds ∧ t = dotted ds +:+ t) as Hnone.
  { intros t. exists []. split; [simpl; lia|done]. }
  destruct s as [|c r]; [apply Hnone|]. simpl.
  destruct (Ascii.eqb_spec c ".") as [->|Hc]; [|apply Hnone].
  destruct (span_digits_split r) as (Hr & Hd & _).
  destruct (span_digits r) as [d rest]. simpl in *.
  destruct d as [|a d]; [apply Hnone|].
  destruct (IH rest) as (ds & Hlen & Hall & Hg & Hrest).
  destruct (dot_groups n rest) as [g rest']. simpl in *.
  exists (String a d :: ds). split; [simpl; lia|]. split.
  { apply Forall_cons. split; [|done]. by split. }
  simpl. rewrite Hg. split; [done|].
  rewrite Hr, Hrest. by rewrite !app_assoc_str.
Qed.

Lemma dot_groups_numbers (n : nat) (ds : list string) (rest : string) :
  (length ds ≤ n)%nat → Forall digits ds →
  rest = "" ∨ (∃ r, rest = "-" +:+ r) →
  dot_groups n (dotted ds +:+ rest) = (dotted ds, rest).
Proof.
  intros Hlen Hall Hrest. revert n Hlen.
  assert (ends_number rest) as Hend.
  { destruct Hrest as [->|[r ->]]; done. }
  induction Hall as [|d ds [Hne Hd] _ IH]; intros n Hlen.
  - destruct n; [done|]. destruct Hrest as [->|[r ->]]; done.
  - destruct n as [|n]; [simpl in Hlen; lia|].
    simpl dotted. rewrite !app_cons, !app_assoc_str. simpl.
    rewrite !app_empty_l.
    rewrite (span_digits_number d (dotted ds +:+ rest))
      by (done || by apply dotted_ends_number).
    destruct d as [|a d]; [done|].
    rewrite IH by (simpl in Hlen; lia). done.
Qed.

Lemma no_newline_cons (c : ascii) (s : string) :
  no_newline (String c s) = negb (Ascii.eqb c nl) && no_newline s.
Proof.
  unfold no_newline. simpl. rewrite andb_true_r, (Ascii.eqb_sym c).
  by rewrite negb_orb.
Qed.

Lemma no_newline_app (a b : string) :
  no_newline (a +:+ b) = no_newline a && no_newline b.
Proof.
  induction a as [|c a IH]; [done|].
  rewrite app_cons, !no_newline_cons, IH. by rewrite andb_assoc.
Qed.

Lemma no_newline_end (s : string) :
  no_newline s = true → endswith_char nl s = false.
Proof.
  induction s as [|c s IH]; [done|]. rewrite no_newline_cons.
  intros [Hc Hs]%andb_true_iff. apply negb_true_iff in Hc.
  destruct s as [|c' s]; [done|]. by apply IH.
Qed.

Lemma label_suffix_some (l : string) : label_suffix (Some l) = String "-" l.
Proof. reflexivity. Qed.

(** Without a newline in the text, the tail of the pattern accepts
    nothing, or a dash and a label that is not empty. *)
Lemma label_tail_spec (rest : string) (label : option string) :
  no_newline rest = true →
  label_tail rest = Some label ↔
  label ≠ Some "" ∧ rest = label_suffix label.
Proof.
  intros Hnl. destruct rest as [|c r].
  { simpl. split.
    - by intros [= <-].
    - intros [_ Hl]. by destruct label. }
  unfold label_tail.
  destruct (String.eqb_spec (String c r) (String nl "")) as [Heq|_].
  { by rewrite Heq in Hnl. }
  rewrite no_newline_cons in Hnl. apply andb_true_iff in Hnl as [_ Hr].
  rewrite (no_newline_end r Hr).
  destruct (Ascii.eqb_spec c "-") as [->|Hc].
  - rewrite Hr, andb_true_r. destruct (String.eqb_spec r "") as [->|Hne]; simpl.
    + split; [done|]. intros [Hl Hs]. destruct label as [l|]; [|done].
      rewrite label_suffix_some in Hs. by injection Hs as <-.
    + split.
      * intros [= <-]. split; [|done]. by intros [= ->].
      * intros [_ Hs]. destruct label as [l|]; [|done].
        rewrite label_suffix_some in Hs. by injection Hs as <-.
  - split; [done|]. intros [_ Hs]. destruct label as [l|]; [|done].
    rewrite label_suffix_some in Hs. by injection Hs as -> _.
Qed.

Lemma label_suffix_shape (label : option string) :
  label_suffix label = "" ∨ ∃ r, label_suffix label = "-" +:+ r.
Proof. destruct label; [right; eauto|by left]. Qed.

(** [parse_tag] accepts exactly the strict pattern. *)
Lemma parse_tag_strict (tag version_tag : string) (label : option string) :
  no_newline tag = true →
  parse_tag tag = (Some version_tag, label) ↔ strict_tag tag version_tag label.
Proof.
  intros Hnl. split.
  - unfold parse_tag. destruct tag as [|c r]; [done|].
    destruct (Ascii.eqb_spec c "v") as [->|_]; [|done].
    destruct (span_digits_split r) as (Hr & Hmajor & _).
    destruct (span_digits r) as [major rest]. simpl in Hr, Hmajor.
    destruct major as [|a major]; [done|].
    destruct (dot_groups_split 2 rest) as (ds & Hlen & Hds & Hg & Hrest).
    destruct (dot_groups 2 rest) as [groups rest']. simpl in Hg, Hrest.
    destruct (label_tail rest') as [lab|] eqn:Htail; [|done].
    intros [= <- <-].
    rewrite no_newline_cons, Hr, Hrest, !no_newline_app in Hnl.
    apply andb_true_iff in Hnl as [_ Hnl].
    apply andb_true_iff in Hnl as [_ Hnl].
    apply andb_true_iff in Hnl as [_ Hnl].
    apply label_tail_spec in Htail as [Hlab Hsuffix]; [|done].
    exists (String a major :: ds). split; [simpl; lia|]. split.
    { apply Forall_cons. split; [|done]. by split. }
    split; [done|]. rewrite join_dotted, Hg. split; [done|].
    rewrite Hr, Hrest, Hsuffix. by rewrite !app_assoc_str.
  - intros (nums & Hlen & Hnums & Hlab & -> & ->).
    destruct nums as [|major ds]; [simpl in Hlen; lia|].
    apply Forall_cons in Hnums as [[Hne Hmajor] Hds].
    rewrite join_dotted in *. rewrite !app_cons, !app_assoc_str in *.
    rewrite app_empty_l in *.
    rewrite no_newline_cons, !no_newline_app in Hnl.
    apply andb_true_iff in Hnl as [_ Hnl].
    apply andb_true_iff in Hnl as [_ Hnl].
    apply andb_true_iff in Hnl as [_ Hnl].
    unfold parse_tag. rewrite Ascii.eqb_refl.
    pose proof (label_suffix_shape label) as Hshape.
    rewrite span_digits_number;
      [|done|apply dotted_ends_number; by destruct Hshape as [->|[r ->]]].
    destruct major as [|a major]; [done|].
    rewrite dot_groups_numbers by (done || simpl in Hlen; lia).
    by rewrite (proj2 (label_tail_spec _ label Hnl)).
Qed.

End TagFacts.

Section VersionOrder.

Import get_release.

Lemma tuple_lt_irrefl (a : list N) : tuple_lt a a = false.
Proof.
  induction a as [|x a IH]; [done|]. simpl. by rewrite N.ltb_irrefl.
Qed.

Lemma tuple_lt_trans (a b c : list N) :
  tuple_lt a b = true → tuple_lt b c = true → tuple_lt a c = true.
Proof.
  revert b c. induction a as [|x a IH]; intros [|y b] [|z c]; simpl; try done.
  destruct (N.ltb_spec x y), (N.ltb_spec y x), (N.ltb_spec y z),
    (N.ltb_spec z y), (N.ltb_spec x z), (N.ltb_spec z x);
    try done; try lia.
  apply IH.
Qed.

Lemma version_gt_irrefl (a : list N) : version_gt a a = false.
Proof. apply tuple_lt_irrefl. Qed.

Lemma version_gt_trans (a b c : list N) :
  version_gt a b = true → version_gt b c = true → version_gt a c = true.
Proof. unfold version_gt. intros H1 H2. by eapply tuple_lt_trans. Qed.

(** [max] returns an element that no element exceeds. *)
Lemma max_from_greatest {A : Type} (l : list (list N * A))
  (best : list N * A) (seen : list (list N * A)) :
  (∀ x, x ∈ seen → version_gt x.1 best.1 = false) →
  (max_from best l = best ∨ max_from best l ∈ l) ∧
  (∀ x, x ∈ seen ++ best :: l → version_gt x.1 (max_from best l).1 = false).
Proof.
  revert best seen. induction l as [|y l IH]; intros best seen Hseen.
  { simpl. split; [by left|]. intros x [Hx|Hx%list_elem_of_singleton]%elem_of_app.
    - by apply Hseen.
    - subst. apply version_gt_irrefl. }
  simpl. destruct (version_gt y.1 best.1) eqn:Hgt.
  - destruct (IH y (seen ++ [best])) as [Hin Hmax].
    { intros x [Hx|Hx%list_elem_of_singleton]%elem_of_app.
      - apply not_true_is_false. intros Hxy.
        pose proof (version_gt_trans _ _ _ Hxy Hgt) as Hxb.
        by rewrite (Hseen x Hx) in Hxb.
      - subst x. apply not_true_is_false. intros Hby.
        pose proof (version_gt_trans _ _ _ Hby Hgt) as Hbb.
        by rewrite version_gt_irrefl in Hbb. }
    split.
    + right. destruct Hin as [->|Hin]; [by left|by right].
    + intros x Hx. apply Hmax. rewrite <- app_assoc. done.
  - destruct (IH best (seen ++ [y])) as [Hin Hmax].
    { intros x [Hx|Hx%list_elem_of_singleton]%elem_of_app.
      - by apply Hseen.
      - by subst x. }
    split.
    + destruct Hin as [->|Hin]; [by left|right; by right].
    + intros x Hx. apply Hmax.
      rewrite !elem_of_app, !elem_of_cons in *. rewrite elem_of_nil. tauto.
Qed.

End VersionOrder.

Section SelectionFacts.

Import get_release.

Variable re_match : string → string → option bool.

(** A round of the loop keeps exactly the candidates. *)
Lemma consider_eligible (vp lr : option string) (r : release) :
  no_newline (tag_name r) = true →
  compiles re_match lr →
  ∃ x, consider re_match vp lr r = Some x ∧
       ∀ ver r', x = Some (ver, r') ↔ r' = r ∧ eligible re_match vp lr r ver.
Proof.
  intros Hnl Hcompiles. unfold consider.
  destruct (parse_tag (tag_name r)) as [[vt|] lab] eqn:Hparse.
  2:{ exists None. split; [done|]. intros ver r'. split; [done|].
      intros [_ (vt & lab' & Hstrict & _)].
      apply parse_tag_strict in Hstrict; [|done]. congruence. }
  assert (∀ vt' lab', strict_tag (tag_name r) vt' lab' → vt' = vt ∧ lab' = lab)
    as Hunique.
  { intros vt' lab' Hs. apply parse_tag_strict in Hs; [|done].
    rewrite Hparse in Hs. by injection Hs as <- <-. }
  apply parse_tag_strict in Hparse as Hstrict; [|done].
  destruct (is_set vp && negb (pystr.startswith (default "" vp) vt)) eqn:Hprefix.
  { exists None. split; [done|]. intros ver r'. split; [done|].
    intros [_ (vt' & lab' & Hs & Hp & _)].
    apply Hunique in Hs as [-> ->].
    apply andb_true_iff in Hprefix as [Hset Hno]. rewrite (Hp Hset) in Hno.
    done. }
  assert (is_set vp = true → pystr.startswith (default "" vp) vt = true)
    as Hprefix'.
  { intros Hset. rewrite Hset in Hprefix. simpl in Hprefix.
    by apply negb_false_iff in Hprefix. }
  set (version := Version (String.substring 1 (String.length vt - 1) vt)).
  assert (∀ skip : bool,
            (skip = false ↔
             (is_set lr = true →
              ∃ l, lab = Some l ∧ re_match (default "" lr) l = Some true)) →
            ∃ x, (if skip then Some None
                  else match version with
                       | Some version_obj => Some (Some (version_obj, r))
                       | None => Some None
                       end) = Some x ∧
                 ∀ ver r', x = Some (ver, r') ↔
                           r' = r ∧ eligible re_match vp lr r ver) as Hrest.
  { intros skip Hskip. destruct skip.
    - exists None. split; [done|]. intros ver r'. split; [done|].
      intros [_ (vt' & lab' & Hs & _ & Hl & _)].
      apply Hunique in Hs as [-> ->]. by apply Hskip in Hl.
    - destruct version as [version_obj|] eqn:Hv.
      + exists (Some (version_obj, r)). split; [done|]. intros ver r'. split.
        * intros [= <- <-]. split; [done|]. exists vt, lab.
          split; [done|]. split; [done|]. split; [by apply Hskip|done].
        * intros [-> (vt' & lab' & Hs & _ & _ & Hver)].
          apply Hunique in Hs as [-> ->]. fold version in Hver. congruence.
      + exists None. split; [done|]. intros ver r'. split; [done|].
        intros [_ (vt' & lab' & Hs & _ & _ & Hver)].
        apply Hunique in Hs as [-> ->]. fold version in Hver. congruence. }
  destruct (is_set lr) eqn:Hset.
  - destruct lab as [l|].
    + destruct (Hcompiles Hset l) as [b Hb]. rewrite Hb.
      apply (Hrest (negb b)). split.
      * intros ->%negb_false_iff _. by exists l.
      * intros Hl. destruct (Hl eq_refl) as (l' & [= <-] & Hm).
        rewrite Hb in Hm. by injection Hm as ->.
    + apply (Hrest true). split; [done|].
      intros Hl. by destruct (Hl eq_refl) as (l' & ? & _).
  - apply (Hrest false). split; [done|]. by intros _.
Qed.

Lemma matches_of_eligible (vp lr : option string) (releases : list release) :
  Forall (λ r, no_newline (tag_name r) = true) releases →
  compiles re_match lr →
  ∃ ms, matches_of re_match vp lr releases = Some ms ∧
        ∀ ver r, (ver, r) ∈ ms ↔
                 r ∈ releases ∧ eligible re_match vp lr r ver.
Proof.
  intros Hnl Hcompiles. induction Hnl as [|r releases Hr _ IH].
  { exists []. split; [done|]. intros ver r. split.
    - by intros ?%elem_of_nil.
    - by intros [?%elem_of_nil _]. }
  destruct IH as (ms & Hms & Hin).
  destruct (consider_eligible vp lr r Hr Hcompiles) as (x & Hx & Hspec).
  simpl. rewrite Hx, Hms. simpl. destruct x as [[ver0 r0]|].
  - exists ((ver0, r0) :: ms). split; [done|]. intros ver r'.
    rewrite elem_of_cons, Hin, elem_of_cons. split.
    + intros [Heq|[? ?]]; [|by auto].
      injection Heq as -> ->.
      destruct (proj1 (Hspec ver0 r0) eq_refl) as [-> ?]. auto.
    + intros [[->|?] Hel]; [|by auto]. left.
      pose proof (proj2 (Hspec ver r) (conj eq_refl Hel)) as Heq.
      by injection Heq as <- <-.
  - exists ms. split; [done|]. intros ver r'. rewrite Hin, elem_of_cons. split.
    + intros [? ?]. auto.
    + intros [[->|?] Hel]; [|by auto].
      pose proof (proj2 (Hspec ver r) (conj eq_refl Hel)) as Heq. done.
Qed.

(** C5: the selection considers exactly the releases whose tag
    matches the strict pattern and that pass the prefix filter and the
    label filter, and returns one whose parsed version no candidate
    exceeds; on the three tags of the example the prefix [v1.2] selects
    [v1.2.5] and the label pattern [beta] selects [v1.3.0-beta]. *)
Theorem select_latest_matching_release_maximal (releases : list release)
  (vp lr : option string) :
  Forall (λ r, no_newline (tag_name r) = true) releases →
  compiles re_match lr →
  (∃ res,
     select_latest_matching_release re_match releases vp lr = Some res ∧
     (res = None ↔
      ∀ r ver, r ∈ releases → ¬ eligible re_match vp lr r ver) ∧
     (∀ r, res = Some r →
        r ∈ releases ∧
        ∃ ver, eligible re_match vp lr r ver ∧
               ∀ r' ver', r' ∈ releases → eligible re_match vp lr r' ver' →
                          version_gt ver' ver = false)) ∧
  (∀ tag version_tag label,
     no_newline tag = true →
     parse_tag tag = (Some version_tag, label) ↔
     strict_tag tag version_tag label) ∧
  select_latest_matching_release re_match sample_releases (Some "v1.2") None
    = Some (Some (Release "v1.2.5" [])) ∧
  (re_match "beta" "beta" = Some true →
   select_latest_matching_release re_match sample_releases None (Some "beta")
     = Some (Some (Release "v1.3.0-beta" []))).
Proof.
  intros Hnl Hcompiles. split; [|split; [|split]].
  - destruct (matches_of_eligible vp lr releases Hnl Hcompiles)
      as (ms & Hms & Hin).
    unfold select_latest_matching_release. rewrite Hms. simpl.
    destruct ms as [|first rest].
    + exists None. split; [done|]. split; [|done]. split; [|done].
      intros _ r ver Hr Hel.
      assert ((ver, r) ∈ []) as Hnil by by apply Hin. by apply elem_of_nil in Hnil.
    + exists (Some (max_from first rest).2). split; [done|]. split.
      * split; [done|]. intros Hnone. destruct first as [ver r].
        destruct (proj1 (Hin ver r)) as [Hr Hel]; [by left|].
        by destruct (Hnone r ver).
      * intros r [= <-].
        destruct (max_from_greatest rest first []) as [Hmem Hmax].
        { by intros x ?%elem_of_nil. }
        assert (max_from first rest ∈ first :: rest) as Hmem'.
        { destruct Hmem as [->|?]; [by left|by right]. }
        destruct (max_from first rest) as [ver r] eqn:Hm. simpl.
        apply Hin in Hmem' as [Hr Hel]. split; [done|]. exists ver.
        split; [done|]. intros r' ver' Hr' Hel'.
        apply (Hmax (ver', r')). simpl. apply Hin. done.
  - intros tag vt lab Htag. by apply parse_tag_strict.
  - reflexivity.
  - intros Hbeta. unfold select_latest_matching_release, sample_releases.
    vm_compute. rewrite Hbeta. reflexivity.
Qed.

End SelectionFacts.

Section SelectionInstances.

Import get_release.

Lemma select_latest_matching_release_maximal_witness :
  select_latest_matching_release literal_match sample_releases None
    (Some "beta") = Some (Some (Release "v1.3.0-beta" [])) ∧
  ∀ r' ver', r' ∈ sample_releases →
    eligible literal_match None (Some "beta") r' ver' →
    version_gt ver' [1; 3; 0]%N = false.
Proof.
  destruct (select_latest_matching_release_maximal literal_match
              sample_releases None (Some "beta"))
    as ((res & Hres & _ & Hmax) & _ & _ & Hbeta).
  - unfold sample_releases. repeat (apply Forall_cons; split; [reflexivity|]).
    apply Forall_nil_2.
  - intros _ l. by eexists.
  - split; [by apply Hbeta|]. rewrite (Hbeta eq_refl) in Hres.
    injection Hres as <-.
    destruct (Hmax _ eq_refl) as (_ & ver & Hel & Hall).
    assert (ver = [1; 3; 0]%N) as ->; [|done].
    destruct Hel as (vt & lab & Hs & _ & _ & Hver).
    apply parse_tag_strict in Hs; [|done]. vm_compute in Hs.
    injection Hs as <- <-. vm_compute in Hver. by injection Hver as <-.
Defined.

End SelectionInstances.

(** * Further properties *)

(** ** Checked and unchecked commands *)

Section RunFacts.

Context (E : env).

Lemma run_checked_cases (cmd : list string) (v c : bool) (s : state) :
  ∃ res s',
    trace s' = trace s ++ [EvSpawn cmd res] ∧ log s' = log s ∧
    ((∃ out err, res = Completed 0 out err ∧
                 run E cmd v c true s = (Ret (CompletedProcess 0 out err), s')) ∨
     (failed res = true ∧ ∃ r, raised_by cmd res r ∧
                               run E cmd v c true s = (Raise r, s'))).
Proof.
  exists (answer (spawn E cmd s)), (run E cmd v c true s).2.
  unfold run. destruct (answer (spawn E cmd s)) as [rc out err|r].
  - simpl. destruct (rc =? 0) eqn:Hrc; simpl.
    + apply Z.eqb_eq in Hrc as ->. split; [done|]. split; [done|].
      left. by exists out, err.
    + split; [done|]. split; [done|]. right. split; [done|]. eexists.
      split; [|reflexivity]. split; [|done]. by apply Z.eqb_neq.
  - simpl. split; [done|]. split; [done|]. right. split; [done|]. by exists r.
Qed.

Lemma run_unchecked_cases (cmd : list string) (v c : bool) (s : state) :
  ∃ res s',
    trace s' = trace s ++ [EvSpawn cmd res] ∧ log s' = log s ∧
    ((∃ rc out err, res = Completed rc out err ∧
        run E cmd v c false s = (Ret (CompletedProcess rc out err), s')) ∨
     (∃ r, res = Failed r ∧ run E cmd v c false s = (Raise r, s'))).
Proof.
  exists (answer (spawn E cmd s)), (run E cmd v c false s).2.
  unfold run. destruct (answer (spawn E cmd s)) as [rc out err|r]; simpl.
  - split; [done|]. split; [done|]. left. by exists rc, out, err.
  - split; [done|]. split; [done|]. right. by exists r.
Qed.

End RunFacts.

(** ** The cloner's attempts *)

Section ClonerBounds.

Context (E : env).

Lemma run_clock (cmd : list string) (v c k : bool) (s s' : state) o :
  run E cmd v c k s = (o, s') → clock s ≤ clock s'.
Proof.
  unfold run. destruct (answer (spawn E cmd s)) as [rc out err|r];
    [destruct (k && negb (rc =? 0))|]; intros [= _ <-]; simpl; lia.
Qed.

Lemma clone_attempts_count (url dest : string) (timeout : Z) (v deep : bool)
  (start : Z) (n : nat) :
  ∀ s, start + 1000 * timeout - clock s ≤ 1000 * Z.of_nat n →
  ∃ o s' l,
    clone_attempts E url dest timeout v deep start s = (o, s') ∧
    trace s' = trace s ++ l ∧
    (length (spawned l) ≤ n)%nat ∧
    Forall (λ ev, ev = EvSleep 1000 ∨
                  ∃ res, ev = EvSpawn (clone_command url dest deep) res) l.
Proof.
  induction n as [|n IH]; intros s Hn; rewrite clone_attempts_step.
  - destruct (clock s - start <? 1000 * timeout) eqn:Hguard.
    { apply Z.ltb_lt in Hguard. lia. }
    exists (Ret false), s, []. by rewrite app_nil_r.
  - destruct (clock s - start <? 1000 * timeout) eqn:Hguard.
    2:{ exists (Ret false), s, []. rewrite app_nil_r. repeat split; auto.
        simpl. lia. }
    destruct (run_cases E (clone_command url dest deep) v false true s)
      as (res & s1 & Ht1 & _ & Hrun).
    assert (clock s ≤ clock s1) as Hclock.
    { destruct Hrun as [(? & ? & ? & _ & Hrun)|(? & Hrun & _)];
        by apply run_clock in Hrun. }
    assert (Forall (λ ev, ev = EvSleep 1000 ∨
                      ∃ res, ev = EvSpawn (clone_command url dest deep) res)
              [EvSpawn (clone_command url dest deep) res]) as Hone.
    { apply Forall_singleton. right. by exists res. }
    destruct Hrun as [(rc & out & err & -> & Hrun)|(r & Hrun & _)];
      rewrite Hrun.
    + eexists _, s1, _. split; [reflexivity|]. split; [done|].
      split; [simpl; lia|done].
    + destruct r as [e| |code];
        [destruct e as [cmd rc| | | | | | |]|..];
        try (eexists _, s1, _; split; [reflexivity|]; split; [done|];
             split; [simpl; lia|done]).
      destruct (IH (sleep 1000 s1).2 ltac:(simpl; lia))
        as (o & s' & l & Hloop & Ht & Hlen & Hall).
      exists o, s', (EvSpawn (clone_command url dest deep) res
                       :: EvSleep 1000 :: l).
      split; [done|]. split; [|split].
      * rewrite Ht. simpl. rewrite Ht1. by rewrite <- !app_assoc.
      * simpl. lia.
      * apply Forall_cons. split; [right; by exists res|].
        apply Forall_cons. split; [by left|done].
Qed.

Lemma git_clone_with_retries_loop (url dest : string) (timeout : Z)
  (v deep : bool) (s : state) :
  let s0 := (logger INFO ("Cloning project: " +:+ url) s).2 in
  git_clone_with_retries E url dest timeout v deep s =
  match clone_attempts E url dest timeout v deep (clock s) s0 with
  | (Ret true, s') => (Ret tt, s')
  | (Ret false, s') =>
      if exists_ dest s' then (Ret tt, s')
      else (Raise (Exception (RuntimeError ("Failed to clone " +:+ url))), s')
  | (Raise r, s') => (Raise r, s')
  end.
Proof.
  intros s0. subst s0. unfold git_clone_with_retries.
  unfold bind at 1. simpl. rewrite bind_probe. unfold bind at 1. simpl.
  match goal with
  | |- context [clone_attempts ?a ?b ?c ?d ?e ?f ?g ?h] =>
      destruct (clone_attempts a b c d e f g h) as [[[]|r] s']
  end; try done.
  rewrite bind_probe. by destruct (exists_ dest s').
Qed.

(** X5: the loop of [git_clone_with_retries] launches the clone command at
    most [timeout] times, with nothing between two attempts but the
    pause of one second; with a budget of zero or less it launches
    nothing and the outcome depends on the destination alone. *)
Theorem git_clone_with_retries_attempts_bounded (url dest : string)
  (timeout : Z) (v deep : bool) (s : state) :
  let r := git_clone_with_retries E url dest timeout v deep s in
  Z.of_nat (length (spawned (new_events s r.2))) ≤ Z.max 0 timeout ∧
  Forall (λ ev, ev = EvSleep 1000 ∨
                ∃ res, ev = EvSpawn (clone_command url dest deep) res)
    (new_events s r.2) ∧
  (timeout ≤ 0 →
   new_events s r.2 = [] ∧
   (r.1 = Ret tt ↔ exists_ dest s = true) ∧
   (r.1 = Raise (Exception (RuntimeError ("Failed to clone " +:+ url))) ↔
    exists_ dest s = false)).
Proof.
  intros r. subst r. rewrite git_clone_with_retries_loop.
  set (s0 := (logger _ _ s).2).
  assert (trace s0 = trace s) as Hs0 by done.
  assert (∀ p, exists_ p s0 = exists_ p s) as Hex by done.
  destruct (clone_attempts_count url dest timeout v deep (clock s)
              (Z.to_nat (Z.max 0 timeout)) s0 ltac:(simpl; lia))
    as (o & s' & l & Hloop & Ht & Hlen & Hall).
  assert (new_events s s' = l) as Hnew.
  { apply new_events_app. by rewrite Ht, Hs0. }
  assert (timeout ≤ 0 → o = Ret false ∧ s' = s0) as Hzero.
  { intros Hle. rewrite clone_attempts_step in Hloop.
    assert ((clock s0 - clock s <? 1000 * timeout) = false) as Hguard.
    { apply Z.ltb_ge. simpl. lia. }
    rewrite Hguard in Hloop. by injection Hloop as <- <-. }
  rewrite Hloop.
  destruct o as [[]|x]; simpl.
  - rewrite Hnew. split; [lia|]. split; [done|]. intros Hle.
    by destruct (Hzero Hle).
  - destruct (exists_ dest s') eqn:Hdest; simpl; rewrite Hnew;
      (split; [lia|]); (split; [done|]); intros Hle;
      destruct (Hzero Hle) as [_ ->]; rewrite Hex in Hdest;
      rewrite new_events_app with (l := []) in Hnew
        by (by rewrite app_nil_r); subst l;
      (split; [done|]); rewrite Hdest; split; split; done.
  - rewrite Hnew. split; [lia|]. split; [done|]. intros Hle.
    by destruct (Hzero Hle).
Qed.

End ClonerBounds.

(** ** Package installation *)

Section InstallerFacts.

Context (E : env).

(** A loop of checked commands, one per name: the commands run in the
    order of the names, and the first one that does not end well ends
    the loop with its error. *)
Lemma for_each_checked (command : string → list string) (v c : bool)
  (names : list string) :
  ∀ s, ∃ o s' l oks,
    for_each names (λ x, run E (command x) v c true ;; ret tt) s = (o, s') ∧
    trace s' = trace s ++ l ∧ log s' = log s ∧
    Forall (λ r, failed r = false) oks ∧
    ((o = Ret tt ∧ length oks = length names ∧
      spawned l = zip (command <$> names) oks) ∨
     (∃ x res r,
        names !! length oks = Some x ∧ failed res = true ∧
        raised_by (command x) res r ∧ o = Raise r ∧
        spawned l = zip (command <$> names) (oks ++ [res]))).
Proof.
  induction names as [|x names IH]; intros s.
  - exists (Ret tt), s, [], []. rewrite app_nil_r.
    split; [done|]. split; [done|]. split; [done|]. split; [done|].
    by left.
  - cbn [for_each].
    destruct (run_checked_cases E (command x) v c s)
      as (res & s1 & Ht1 & Hl1
          & [(out & err & -> & Hrun)|(Hbad & r & Hr & Hrun)]).
    + unfold bind at 1. unfold bind at 1. rewrite Hrun. simpl.
      destruct (IH s1) as (o & s' & l & oks & Hloop & Ht & Hl & Hoks & Hres).
      exists o, s', (EvSpawn (command x) (Completed 0 out err) :: l),
        (Completed 0 out err :: oks).
      split; [done|]. split; [|split; [congruence|split]].
      * rewrite Ht, Ht1. by rewrite <- app_assoc.
      * by apply Forall_cons.
      * destruct Hres as [(-> & Hlen & Hs)|(y & res' & r & Hy & Hbad & Hr & -> & Hs)].
        -- left. split; [done|]. split; [simpl; congruence|]. simpl.
           by rewrite Hs.
        -- right. exists y, res', r. split; [done|]. split; [done|].
           split; [done|]. split; [done|]. simpl. by rewrite Hs.
    + unfold bind at 1. unfold bind at 1. rewrite Hrun. simpl.
      exists (Raise r), s1, [EvSpawn (command x) res], [].
      split; [done|]. split; [done|]. split; [done|]. split; [done|].
      right. exists x, res, r. split; [done|]. split; [done|].
      split; [done|]. split; [done|]. simpl. by rewrite zip_with_nil_r.
Qed.

(** X8: [install_packages] runs pip once per package, in the order of
    [PACKAGES], and stops at the first package whose command does not
    end well: the error of that command leaves the function and the
    packages after it are not attempted. *)
Theorem install_packages_stops_at_first_failure (venv_path : string)
  (v : bool) (s : state) :
  ∃ o s' l oks,
    install_packages E venv_path v s = (o, s') ∧
    trace s' = trace s ++ l ∧
    log s' = log s ++ [(INFO, "Installing Python packages to venv")] ∧
    Forall (λ r, failed r = false) oks ∧
    ((o = Ret tt ∧ length oks = length PACKAGES ∧
      spawned l = zip (pip_command venv_path <$> PACKAGES) oks) ∨
     (∃ pkg res r,
        PACKAGES !! length oks = Some pkg ∧ failed res = true ∧
        raised_by (pip_command venv_path pkg) res r ∧ o = Raise r ∧
        spawned l = zip (pip_command venv_path <$> PACKAGES) (oks ++ [res]))).
Proof.
  unfold install_packages. unfold bind at 1. simpl.
  set (s0 := State _ _ _ _ _ _).
  destruct (for_each_checked (pip_command venv_path) v false PACKAGES s0)
    as (o & s' & l & oks & Hloop & Ht & Hl & Hoks & Hres).
  exists o, s', l, oks. split; [exact Hloop|]. split; [exact Ht|].
  split; [exact Hl|]. split; [exact Hoks|exact Hres].
Qed.

End InstallerFacts.

(** ** The version probes *)

Section ProbeFacts.

Context (E : env).

Lemma verify_tool_cases (tool label missing : string) (s : state) :
  let s1 := (run E [tool; "--version"] false true false s).2 in
  verify_tool E tool label missing s =
  match answer (spawn E [tool; "--version"] s) with
  | Completed rc out err =>
      if rc =? 0 then
        match pystr.first_line (pystr.strip out) with
        | Some line => (Ret true, (logger INFO (label +:+ line) s1).2)
        | None => (Ret false, (logger WARNING missing s1).2)
        end
      else (Ret false, (logger WARNING missing s1).2)
  | Failed (Exception e) => (Ret false, (logger WARNING missing s1).2)
  | Failed x => (Raise x, s1)
  end.
Proof.
  unfold verify_tool, try_except, bind, run.
  destruct (answer (spawn E [tool; "--version"] s)) as [rc out err|x]; simpl.
  - destruct (rc =? 0); simpl; [|done].
    by destruct (pystr.first_line (pystr.strip out)).
  - by destruct x.
Qed.

(** X7: [verify_git] and [verify_vscode] launch one version query. An
    answer with code 0 and a first line gives [True] and the line in
    the log; every other ending that is an [Exception] (a code other
    than 0, an answer of white space only, a launch that raised) gives
    [False] and the warning, and no [Exception] leaves the function;
    an interrupt of the launch passes through. *)
Theorem verify_tool_reports (tool label missing : string) (s : state) :
  let res := answer (spawn E [tool; "--version"] s) in
  let r := verify_tool E tool label missing s in
  new_events s r.2 = [EvSpawn [tool; "--version"] res] ∧
  (∀ line, version_answer res line →
     r.1 = Ret true ∧ log r.2 = log s ++ [(INFO, label +:+ line)]) ∧
  ((∀ line, ¬ version_answer res line) →
   (∀ x, res = Failed x → ∃ e, x = Exception e) →
   r.1 = Ret false ∧ log r.2 = log s ++ [(WARNING, missing)]) ∧
  (∀ out err, res = Completed 0 out err → pystr.strip out = "" →
     r.1 = Ret false) ∧
  (∀ x, res = Failed x → (∀ e, x ≠ Exception e) →
     r.1 = Raise x ∧ log r.2 = log s) ∧
  (∀ e, r.1 ≠ Raise (Exception e)) ∧
  (∀ v, verify_git E v = verify_tool E "git" "GIT OK: " "Git not found") ∧
  (∀ v, verify_vscode E v =
        verify_tool E "code" "VS Code OK: "
          "VS Code not found (Skipping extension setup)").
Proof.
  intros res r. subst res r. rewrite verify_tool_cases.
  assert (trace (run E [tool; "--version"] false true false s).2 =
          trace s ++ [EvSpawn [tool; "--version"]
                        (answer (spawn E [tool; "--version"] s))]) as Ht.
  { unfold run. by destruct (answer (spawn E [tool; "--version"] s)). }
  assert (log (run E [tool; "--version"] false true false s).2 = log s) as Hl.
  { unfold run. by destruct (answer (spawn E [tool; "--version"] s)). }
  set (s1 := (run E [tool; "--version"] false true false s).2) in *.
  destruct (answer (spawn E [tool; "--version"] s)) as [rc out err|x].
  - destruct (rc =? 0) eqn:Hrc.
    + apply Z.eqb_eq in Hrc as ->.
      destruct (pystr.strip out) as [|c rest] eqn:Hout; simpl.
      * split; [by apply new_events_app|]. split.
        { intros line (out' & err' & [= <- <-] & Hne & _). by rewrite Hout in Hne. }
        split; [by rewrite Hl|]. split; [done|]. split; [done|]. done.
      * split; [by apply new_events_app|]. split.
        { intros line (out' & err' & [= <- <-] & _ & ->). by rewrite Hout, Hl. }
        split.
        { intros Hno. exfalso. eapply Hno. exists out, err. by rewrite Hout. }
        split; [intros out' err' [= <- <-]; by rewrite Hout|].
        split; [done|]. done.
    + simpl. split; [by apply new_events_app|]. split.
      { intros line (out' & err' & [= -> <- <-] & _). done. }
      split; [by rewrite Hl|]. split; [intros out' err' [= -> _ _]; done|].
      split; [done|]. done.
  - destruct x as [e| |code]; simpl.
    + split; [by apply new_events_app|]. split.
      { intros line (out' & err' & Heq & _). done. }
      split; [by rewrite Hl|]. split; [done|]. split; [|done].
      intros x [= <-] Hne. by destruct (Hne e).
    + split; [by apply new_events_app|]. split.
      { intros line (out' & err' & Heq & _). done. }
      split. { intros _ Hx. by destruct (Hx _ eq_refl). }
      split; [done|]. split; [|done]. by intros x [= <-] _.
    + split; [by apply new_events_app|]. split.
      { intros line (out' & err' & Heq & _). done. }
      split. { intros _ Hx. by destruct (Hx _ eq_refl). }
      split; [done|]. split; [|done]. by intros x [= <-] _.
Qed.

End ProbeFacts.

(** ** The order of an update *)

Section UpdateOrder.

Context (E : env).

Ltac chain_traces :=
  repeat match goal with
         | H : trace _ = _ ++ _ |- _ => rewrite H; clear H
         end;
  rewrite <- ?app_assoc; reflexivity.

Ltac checked_step s0 :=
  lazymatch goal with
  | |- context [bind (run ?X ?cmd ?v ?c true) ?f s0] =>
      let res := fresh "res" in
      let s1 := fresh "s" in
      let Ht := fresh "Ht" in
      let Hrun := fresh "Hrun" in
      let out := fresh "out" in
      let err := fresh "err" in
      let x := fresh "x" in
      let Hbad := fresh "Hbad" in
      let Hwhy := fresh "Hwhy" in
      destruct (run_checked_cases E cmd v c s0)
        as (res & s1 & Ht & _
            & [(out & err & -> & Hrun)|(Hbad & x & Hwhy & Hrun)]);
      [rewrite (bind_eq _ _ s0 s1 _ Hrun)
      |rewrite (bind_raise _ _ s0 s1 x Hrun)]
  end.

Ltac early_exit branch :=
  eexists _, _, _; split; [reflexivity|]; split; [chain_traces|];
  split;
  [exists branch; split;
   [eexists; reflexivity
   |intros ? ? ? Hin; cbn in Hin;
    repeat (apply elem_of_cons in Hin as [Hin|Hin]; [by simplify_eq|]);
    by apply elem_of_nil in Hin]
  |split;
   [intros i ? ? Hi Hlt; cbn in Hi, Hlt;
    destruct i as [|[|[|[|[|[|i]]]]]];
    first [simpl in Hlt; lia|simpl in Hi; simplify_eq; by eauto]
   |split; [intros [=]|intros (? & ? & ? & Hi & _); cbn in Hi; done]]].

(** X10: the update runs its six commands in order and stops at the first
    one that does not end with code 0, the last one apart; the reset
    names the branch the fourth command printed; the update ends well
    exactly when the stash pop ran to its end without a conflict in its
    output, whatever its return code. *)
Theorem update_commands_in_order (v : bool) (s : state) :
  ∃ o s' l,
    update_commands E v s = (o, s') ∧
    trace s' = trace s ++ l ∧
    (∃ branch,
       (spawned l).*1 `prefix_of` update_plan branch ∧
       ∀ rc out err,
         (rev_parse, Completed rc out err) ∈ spawned l →
         branch = pystr.strip out) ∧
    (∀ i c res,
       spawned l !! i = Some (c, res) → (S i < length (spawned l))%nat →
       ∃ out err, res = Completed 0 out err) ∧
    (o = Ret tt ↔
     ∃ rc out err,
       spawned l !! 5%nat = Some (stash_pop, Completed rc out err) ∧
       ¬ conflict_reported (Completed rc out err)).
Proof.
  unfold update_commands, update_plan, rev_parse, stash_pop, stash_push,
    fetch_tags, fetch_origin, reset_hard.
  checked_step s; [|early_exit ""].
  checked_step s0; [|early_exit ""].
  checked_step s1; [|early_exit ""].
  checked_step s2;
    [|destruct res as [rc' out' err'|]; [early_exit (pystr.strip out')
                                        |early_exit ""]].
  cbn [stdout].
  checked_step s3; [|early_exit (pystr.strip out2)].
  destruct (run_unchecked_cases E ["git"; "stash"; "pop"] v true s4)
    as (res & s5 & Htpop & _
        & [(rc & out4 & err4 & -> & Hpop)|(x & -> & Hpop)]).
  2:{ rewrite (bind_raise _ _ s4 s5 x Hpop).
      eexists _, _, _. split; [reflexivity|]. split; [chain_traces|].
      split.
      { exists (pystr.strip out2). split; [by exists []|].
        intros ? ? ? Hin. cbn in Hin.
        repeat (apply elem_of_cons in Hin as [Hin|Hin]; [by simplify_eq|]).
        by apply elem_of_nil in Hin. }
      split.
      { intros i ? ? Hi Hlt. cbn in Hi, Hlt.
        destruct i as [|[|[|[|[|[|i]]]]]];
          first [simpl in Hlt; lia|simpl in Hi; simplify_eq; by eauto]. }
      split; [intros [=]|intros (? & ? & ? & Hi & _); cbn in Hi; done]. }
  rewrite (bind_eq _ _ s4 s5 _ Hpop). cbn [stdout stderr].
  destruct (_ || _) eqn:Hconflict.
  - eexists _, _, _. split; [reflexivity|]. split; [chain_traces|].
    split.
    { exists (pystr.strip out2). split; [by exists []|].
      intros ? ? ? Hin. cbn in Hin.
      repeat (apply elem_of_cons in Hin as [Hin|Hin]; [by simplify_eq|]).
      by apply elem_of_nil in Hin. }
    split.
    { intros i ? ? Hi Hlt. cbn in Hi, Hlt.
      destruct i as [|[|[|[|[|[|i]]]]]];
        first [simpl in Hlt; lia|simpl in Hi; simplify_eq; by eauto]. }
    split; [intros [=]|]. intros (? & ? & ? & Hi & Hno). cbn in Hi.
    simplify_eq. exfalso. apply Hno. eexists _, _, _. split; [done|].
    by apply orb_true_iff in Hconflict.
  - eexists _, _, _. split; [reflexivity|]. split; [chain_traces|].
    split.
    { exists (pystr.strip out2). split; [by exists []|].
      intros ? ? ? Hin. cbn in Hin.
      repeat (apply elem_of_cons in Hin as [Hin|Hin]; [by simplify_eq|]).
      by apply elem_of_nil in Hin. }
    split.
    { intros i ? ? Hi Hlt. cbn in Hi, Hlt.
      destruct i as [|[|[|[|[|[|i]]]]]];
        first [simpl in Hlt; lia|simpl in Hi; simplify_eq; by eauto]. }
    split; [intros _|done]. exists rc, out4, err4. split; [done|].
    intros (? & ? & ? & [= <- <- <-] & Hc).
    apply orb_false_iff in Hconflict as [H1 H2].
    destruct Hc as [Hc|Hc]; congruence.
Qed.

End UpdateOrder.

(** ** Failed downloads and the next request *)

Section DownloaderRuns.

Context (E : env).

Lemma build_request_raises (url : string) (s s' : state) (x : raised) :
  build_request E url s = (Raise x, s') →
  ∀ code reason, x ≠ Exception (HTTPError code reason).
Proof.
  unfold build_request. rewrite bind_probe.
  destruct (exists_ _ s); [|done].
  unfold conditional_headers, bind at 1 2, read_file.
  destruct (files s !! meta_path E url); [|by intros [= <- _]].
  destruct (json_load E s0) as [[]|]; simpl; by intros [= <- _].
Qed.

Lemma makedirs_raises (d : string) (s s' : state) (x : raised) :
  makedirs d s = (Raise x, s') →
  ∀ code reason, x ≠ Exception (HTTPError code reason).
Proof. unfold makedirs. intros H. repeat case_match; by simplify_eq. Qed.

(** The ways [download_with_etag] ends: a returned path is the cache
    path, and an error of the transport leaves after the request alone,
    with no file written. *)
Lemma download_with_etag_runs (url : string) (s s' : state) o :
  download_with_etag E url s = (o, s') →
  log s `prefix_of` log s' ∧
  (∀ p, o = Ret p → p = cache_path E url) ∧
  (∀ code reason,
     o = Raise (Exception (HTTPError code reason)) →
     code ≠ 304 ∧ files s' = files s ∧
     ∃ req, new_events s s' = [EvRequest req]).
Proof.
  unfold download_with_etag, bind at 1.
  destruct (makedirs (cache_dir E) s) as [[u|e] s2] eqn:Hmk.
  2:{ intros [= <- <-]. pose proof (makedirs_raises _ _ _ _ Hmk) as Hno.
      apply makedirs_files in Hmk as (_ & _ & Hl & _). rewrite Hl.
      split; [done|]. split; [done|]. intros code reason [= ->].
      by destruct (Hno code reason). }
  apply makedirs_files in Hmk as (Hf2 & Ht2 & Hl2 & _).
  unfold bind at 1.
  destruct (build_request E url s2) as [[rq|e] s3] eqn:Hrq.
  2:{ intros [= <- <-]. pose proof (build_request_raises _ _ _ _ Hrq) as Hno.
      apply build_request_state in Hrq as ->. rewrite Hl2.
      split; [done|]. split; [done|]. intros code reason [= ->].
      by destruct (Hno code reason). }
  apply build_request_state in Hrq as ->.
  unfold fetch, try_except, bind at 1, urlopen_.
  destruct (urlopen E rq s2) as [r|[e| |code]] eqn:Hr.
  - destruct (status r =? 304) eqn:H304.
    + simpl. intros [= <- <-]. simpl. rewrite Hl2.
      split; [by eexists|]. split; [by intros ? [= <-]|done].
    + unfold bind, logger, write_file. simpl.
      destruct (is_dir (cache_path E url) _).
      { intros [= <- <-]. simpl. rewrite Hl2. split; [by eexists|]. done. }
      simpl. destruct (is_dir (meta_path E url) _).
      { intros [= <- <-]. simpl. rewrite Hl2. split; [by eexists|]. done. }
      simpl. intros [= <- <-]. simpl. rewrite Hl2.
      split; [by eexists|]. split; [by intros ? [= <-]|done].
  - assert (new_events s
              (State (files s2) (dirs s2) (clock s2) (cwd s2) (log s2)
                 (trace s2 ++ [EvRequest rq])) = [EvRequest rq]) as Hnew.
    { apply new_events_app. simpl. by rewrite Ht2. }
    destruct e as [| | | | |code reason| |];
      try (intros [= <- <-]; simpl; rewrite Hl2; split; [done|]; by split).
    destruct (code =? 304) eqn:H304.
    + simpl. intros [= <- <-]. simpl. rewrite Hl2.
      split; [by eexists|]. split; [by intros ? [= <-]|done].
    + intros [= <- <-]. simpl. rewrite Hl2. split; [done|]. split; [done|].
      intros code' reason' [= <- <-]. apply Z.eqb_neq in H304.
      split; [done|]. split; [done|]. by exists rq.
  - intros [= <- <-]. simpl. rewrite Hl2. split; [done|]. by split.
  - intros [= <- <-]. simpl. rewrite Hl2. split; [done|]. by split.
Qed.

Lemma download_github_zip_cases (url : string) (s : state) :
  download_github_zip E url s =
  match download_with_etag E url
          (logger INFO ("Download archive: " +:+ url) s).2 with
  | (Ret p, s') => (Ret p, s')
  | (Raise (Exception e), s') =>
      (Raise (Exception (RuntimeError
         ("Download failed: " +:+ url +:+ String pystr.nl "" +:+ str_exn e))),
       s')
  | (Raise r, s') => (Raise r, s')
  end.
Proof.
  unfold download_github_zip, bind at 1, try_except. simpl.
  match goal with
  | |- context [download_with_etag ?a ?b ?c] =>
      destruct (download_with_etag a b c) as [[p|[e| |code]] s']
  end; done.
Qed.

(** X1: [download_github_zip] announces the download and then runs
    [download_with_etag]: what that returns it returns, which is the
    cache path; an [Exception] it raises leaves as a [RuntimeError]
    whose message starts with the words [Download failed], the URL and
    a line feed, and no other [Exception] leaves; an interrupt passes
    through. When the download raises the error status of the server,
    the message ends with the status line, the status is not 304, no
    file was changed and the request is the only outside effect. *)
Theorem download_github_zip_wraps_errors (url : string) (s : state) :
  let s0 := (logger INFO ("Download archive: " +:+ url) s).2 in
  let d := download_with_etag E url s0 in
  let r := download_github_zip E url s in
  let failure := "Download failed: " +:+ url +:+ String pystr.nl "" in
  r.2 = d.2 ∧
  (∃ rest, log r.2 = log s ++ (INFO, "Download archive: " +:+ url) :: rest) ∧
  (∀ p, d.1 = Ret p → r.1 = Ret p ∧ p = cache_path E url) ∧
  (∀ cause, d.1 = Raise (Exception cause) →
     ∃ text, r.1 = Raise (Exception (RuntimeError (failure +:+ text)))) ∧
  (∀ code reason, d.1 = Raise (Exception (HTTPError code reason)) →
     r.1 = Raise (Exception (RuntimeError
             (failure +:+ "HTTP Error " +:+ pystr.of_Z code +:+ ": "
                +:+ reason))) ∧
     code ≠ 304 ∧ files r.2 = files s ∧
     ∃ req, new_events s r.2 = [EvRequest req]) ∧
  (∀ x, d.1 = Raise x → (∀ e, x ≠ Exception e) → r.1 = Raise x) ∧
  (∀ e, r.1 = Raise (Exception e) → ∃ cause, d.1 = Raise (Exception cause)).
Proof.
  intros s0 d r failure. subst r. rewrite download_github_zip_cases.
  fold s0. fold d.
  assert (log s0 = log s ++ [(INFO, "Download archive: " +:+ url)]) as Hl0
    by done.
  assert (files s0 = files s) as Hf0 by done.
  assert (∀ s', new_events s0 s' = new_events s s') as Hn0 by done.
  destruct d as [o s'] eqn:Hrun. subst d.
  apply download_with_etag_runs in Hrun as ([rest Hl] & Hret & Hhttp).
  assert (log s' = log s ++ (INFO, "Download archive: " +:+ url) :: rest)
    as Hlog.
  { rewrite Hl, Hl0. by rewrite <- app_assoc. }
  destruct o as [p|[cause| |code]]; simpl;
    (split; [done|]); (split; [by exists rest|]).
  - split; [|repeat split; done].
    intros p' [= <-]. split; [done|]. by apply Hret.
  - split; [done|]. split.
    { intros cause' [= <-]. exists (str_exn cause).
      subst failure. by rewrite !app_assoc_str. }
    split.
    { intros code reason [= ->].
      destruct (Hhttp code reason eq_refl) as (? & ? & ?).
      rewrite <- Hf0, <- Hn0. split; [|done]. subst failure. simpl.
      by rewrite !app_assoc_str. }
    split; [intros x [= <-] Hx; by destruct (Hx cause)|].
    intros e _. by exists cause.
  - repeat split; done.
  - repeat split; done.
Qed.

Lemma makedirs_again (d : string) (s s1 s2 : state) :
  makedirs d s = (Ret tt, s1) →
  dirs s2 = dirs s1 →
  (∀ a, a ∈ posixpath.ancestors d → is_file a s2 = is_file a s) →
  ∃ s3, makedirs d s2 = (Ret tt, s3) ∧ files s3 = files s2 ∧
        trace s3 = trace s2.
Proof.
  unfold makedirs. intros Hmk Hdirs Hfiles.
  destruct (String.eqb d ""); [done|].
  assert (existsb (λ a, is_file a s2) (posixpath.ancestors d) =
          existsb (λ a, is_file a s) (posixpath.ancestors d)) as Hsame.
  { apply eq_true_iff_eq. rewrite !existsb_exists.
    split; intros (a & Hin & Ha); exists a; (split; [done|]);
      apply list_elem_of_In in Hin; [by rewrite <- Hfiles|by rewrite Hfiles]. }
  destruct (is_dir d s) eqn:Hd.
  - injection Hmk as <-. unfold is_dir in *. rewrite Hdirs, Hd. by eexists.
  - destruct (is_dir d s2); [by eexists|]. rewrite Hsame.
    destruct (existsb _ _); [done|]. by eexists.
Qed.

Lemma fetch_opens (url : string) (req : request) (s : state) :
  ∃ l, trace (fetch E url req s).2 = trace s ++ EvRequest req :: l.
Proof.
  unfold fetch, try_except, bind at 1, urlopen_.
  destruct (urlopen E req s) as [r|[e| |code]].
  - destruct (status r =? 304); [by eexists|].
    unfold bind, logger, write_file. simpl.
    destruct (is_dir (cache_path E url) _); [by eexists|]. simpl.
    destruct (is_dir (meta_path E url) _); simpl;
      rewrite <- ?app_assoc; by eexists.
  - destruct e as [| | | | |code reason| |]; try by eexists.
    destruct (code =? 304); by eexists.
  - by eexists.
  - by eexists.
Qed.

Lemma build_request_validators (url : string) (r : response)
  (fields : list (string * json)) (s : state) :
  files s !! meta_path E url = Some (json_dump E (response_meta url r)) →
  json_load E (json_dump E (response_meta url r)) = Some (JObj fields) →
  default JNull (assoc "ETag" fields) =
    opt_json (header_get "ETag" (resp_headers r)) →
  default JNull (assoc "Last-Modified" fields) =
    opt_json (header_get "Last-Modified" (resp_headers r)) →
  build_request E url s =
    (Ret (Request url (("User-Agent", JStr "Client") :: validators r)), s).
Proof.
  intros Hfile Hload Htag Hdate. unfold build_request. rewrite bind_probe.
  assert (exists_ (meta_path E url) s = true) as ->.
  { unfold exists_, is_file. rewrite Hfile.
    by rewrite bool_decide_eq_true_2 by by eexists. }
  unfold conditional_headers, bind at 1 2 3, read_file. rewrite Hfile, Hload.
  simpl. rewrite Htag, Hdate. unfold validators.
  destruct (header_get "ETag" (resp_headers r)) as [tag|];
    destruct (header_get "Last-Modified" (resp_headers r)) as [date|]; simpl;
    repeat match goal with
           | |- context [String.eqb ?x ""] => destruct (String.eqb x "")
           end; reflexivity.
Qed.

(** X2: the validators a download stores are the ones the next download
    sends: after a response other than 304 whose metadata the JSON
    codec gives back, the next call opens with a request that carries
    the entity tag as [If-None-Match] and the date as
    [If-Modified-Since]. *)
Theorem download_with_etag_sends_saved_validators (url : string)
  (s s1 : state) (req : request) (r : response) (fields : list (string * json)) :
  makedirs (cache_dir E) s = (Ret tt, s1) →
  build_request E url s1 = (Ret req, s1) →
  urlopen E req s1 = HttpResponse r →
  status r ≠ 304 →
  is_dir (cache_path E url) s1 = false →
  is_dir (meta_path E url) s1 = false →
  json_load E (json_dump E (response_meta url r)) = Some (JObj fields) →
  default JNull (assoc "ETag" fields) =
    opt_json (header_get "ETag" (resp_headers r)) →
  default JNull (assoc "Last-Modified" fields) =
    opt_json (header_get "Last-Modified" (resp_headers r)) →
  ∃ s',
    download_with_etag E url s = (Ret (cache_path E url), s') ∧
    files s' !! meta_path E url = Some (json_dump E (response_meta url r)) ∧
    ∃ l, new_events s' (download_with_etag E url s').2 =
           EvRequest (Request url (("User-Agent", JStr "Client")
                                     :: validators r)) :: l.
Proof.
  intros Hmk Hreq Hopen H304 Hc Hm Hload Htag Hdate.
  destruct (fetch_fresh_copy E url req r s1 Hopen H304 Hc Hm)
    as (s' & Hfetch & Hf & Hd & Ht).
  assert (files s' !! meta_path E url =
          Some (json_dump E (response_meta url r))) as Hmeta.
  { rewrite Hf. by rewrite lookup_insert_eq. }
  exists s'. split; [|split; [done|]].
  { unfold download_with_etag. rewrite (bind_eq _ _ s s1 tt) by done.
    by rewrite (bind_eq _ _ s1 s1 req). }
  destruct (makedirs_again (cache_dir E) s s1 s' Hmk Hd) as (s3 & Hmk3 & Hf3 & Ht3).
  { intros a Ha%ancestors_length. unfold is_file. rewrite Hf.
    apply makedirs_files in Hmk as (Hf1 & _). rewrite Hf1.
    assert (a ≠ meta_path E url ∧ a ≠ cache_path E url) as [Hn1 Hn2].
    { unfold meta_path, cache_path.
      split; intros ->; rewrite !app_length_str in Ha; simpl in Ha; lia. }
    by rewrite !lookup_insert_ne. }
  unfold download_with_etag. rewrite (bind_eq _ _ s' s3 tt) by done.
  rewrite (bind_eq _ _ s3 s3 _
             (build_request_validators url r fields s3
                ltac:(by rewrite Hf3) Hload Htag Hdate)).
  destruct (fetch_opens url
              (Request url (("User-Agent", JStr "Client") :: validators r)) s3)
    as [l Hl].
  exists l. apply new_events_app. by rewrite Hl, Ht3.
Qed.

End DownloaderRuns.

(** ** The choice among releases of the same version *)

Section SelectionOrder.

Import get_release.

Lemma tuple_lt_below (a b c : list N) :
  tuple_lt a b = true → tuple_lt a c = false → tuple_lt c b = true.
Proof.
  revert b c. induction a as [|x a IH]; intros [|y b] [|z c]; simpl; try done.
  destruct (N.ltb_spec x y), (N.ltb_spec y x), (N.ltb_spec x z),
    (N.ltb_spec z x), (N.ltb_spec z y), (N.ltb_spec y z);
    try done; try lia.
  apply IH.
Qed.

Lemma version_gt_below (m best x : list N) :
  version_gt m best = true → version_gt x best = false →
  version_gt m x = true.
Proof. unfold version_gt. apply tuple_lt_below. Qed.

(** [max] returns the first of the elements that no element exceeds:
    every element before it is strictly smaller. *)
Lemma max_from_earliest {A : Type} (l : list (list N * A))
  (best : list N * A) (seen skipped : list (list N * A)) :
  (∀ x, x ∈ seen → version_gt best.1 x.1 = true) →
  (∀ x, x ∈ skipped → version_gt x.1 best.1 = false) →
  ∃ before after,
    seen ++ best :: skipped ++ l = before ++ max_from best l :: after ∧
    ∀ x, x ∈ before → version_gt (max_from best l).1 x.1 = true.
Proof.
  revert best seen skipped.
  induction l as [|y l IH]; intros best seen skipped Hseen Hskipped.
  { exists seen, skipped. by rewrite app_nil_r. }
  simpl. destruct (version_gt y.1 best.1) eqn:Hgt.
  - destruct (IH y (seen ++ best :: skipped) []) as (before & after & Heq & Hlt).
    + intros x [Hx|[->|Hx]%elem_of_cons]%elem_of_app.
      * eapply version_gt_trans; [exact Hgt|by apply Hseen].
      * done.
      * eapply version_gt_below; [exact Hgt|by apply Hskipped].
    + intros x Hx. by apply elem_of_nil in Hx.
    + exists before, after. split; [|done]. rewrite <- Heq.
      by rewrite <- !app_assoc.
  - destruct (IH best seen (skipped ++ [y])) as (before & after & Heq & Hlt).
    + done.
    + intros x [Hx|Hx%list_elem_of_singleton]%elem_of_app; [by apply Hskipped|].
      by subst x.
    + exists before, after. split; [|done]. rewrite <- Heq.
      by rewrite <- !app_assoc.
Qed.

Lemma omap_split {A B : Type} (f : A → option B) (l : list A)
  (a b : list B) (y : B) :
  omap f l = a ++ y :: b →
  ∃ l1 x l2, l = l1 ++ x :: l2 ∧ omap f l1 = a ∧ f x = Some y ∧ omap f l2 = b.
Proof.
  revert a. induction l as [|x l IH]; intros a Heq.
  { by destruct a. }
  simpl in Heq. destruct (f x) as [z|] eqn:Hx.
  - destruct a as [|a0 a]; simpl in Heq.
    + injection Heq as -> Hb. exists [], x, l. by rewrite Hx.
    + injection Heq as -> Heq. destruct (IH a Heq) as (l1 & x' & l2 & -> & Ha & Hx' & Hb).
      exists (x :: l1), x', l2. simpl. rewrite Hx. subst a b. done.
  - destruct (IH a Heq) as (l1 & x' & l2 & -> & Ha & Hx' & Hb).
    exists (x :: l1), x', l2. simpl. rewrite Hx. subst a b. done.
Qed.

Variable re_match : string → string → option bool.

(** The candidates of the selection, in the order of the releases *)
Lemma matches_of_omap (vp lr : option string) (releases : list release)
  (ms : list (list N * release)) :
  matches_of re_match vp lr releases = Some ms →
  ms = omap (λ r, default None (consider re_match vp lr r)) releases.
Proof.
  revert ms. induction releases as [|r releases IH]; intros ms.
  { by intros [= <-]. }
  simpl. destruct (consider re_match vp lr r) as [x|]; [|done].
  simpl. destruct (matches_of re_match vp lr releases) as [l|]; [|done].
  simpl. intros [= <-]. rewrite (IH l eq_refl). by destruct x.
Qed.

(** X17: of several releases that carry the greatest version the selection
    returns the one that comes first in the list: the candidates before
    the selected release have a strictly smaller version, and no
    candidate after it a greater one. *)
Theorem select_latest_matching_release_first_of_equals
  (releases : list release) (vp lr : option string) (r : release) :
  Forall (λ r, no_newline (tag_name r) = true) releases →
  compiles re_match lr →
  select_latest_matching_release re_match releases vp lr = Some (Some r) →
  ∃ before after ver,
    releases = before ++ r :: after ∧
    eligible re_match vp lr r ver ∧
    (∀ r' ver', r' ∈ before → eligible re_match vp lr r' ver' →
                version_gt ver ver' = true) ∧
    (∀ r' ver', r' ∈ after → eligible re_match vp lr r' ver' →
                version_gt ver' ver = false).
Proof.
  intros Hnl Hcompiles. unfold select_latest_matching_release.
  destruct (matches_of re_match vp lr releases) as [ms|] eqn:Hms; [|done].
  simpl. pose proof (matches_of_omap vp lr releases ms Hms) as Homap.
  destruct ms as [|first rest]; [done|]. intros [= <-].
  destruct (max_from_earliest rest first [] [])
    as (mb & ma & Heq & Hbefore).
  { intros x Hx. by apply elem_of_nil in Hx. }
  { intros x Hx. by apply elem_of_nil in Hx. }
  simpl in Heq.
  destruct (max_from_greatest rest first []) as [_ Hgreatest].
  { intros x Hx. by apply elem_of_nil in Hx. }
  simpl in Hgreatest. rewrite Heq in Homap, Hgreatest.
  symmetry in Homap.
  apply omap_split in Homap as (before & r0 & after & -> & Hmb & Hr0 & Hma).
  assert (∀ r' ver', r' ∈ before ++ r0 :: after →
            (default None (consider re_match vp lr r') = Some (ver', r') ↔
             eligible re_match vp lr r' ver')) as Hspec.
  { intros r' ver' Hin.
    assert (no_newline (tag_name r') = true) as Hr'.
    { by apply (proj1 (Forall_forall _ _) Hnl). }
    destruct (consider_eligible re_match vp lr r' Hr' Hcompiles) as (x & -> & Hx).
    simpl. rewrite Hx. split; [by intros [_ ?]|by intros ?]. }
  destruct (max_from first rest) as [ver r] eqn:Hmax. simpl in *.
  assert (r0 = r ∧ eligible re_match vp lr r ver) as [-> Hel].
  { assert (no_newline (tag_name r0) = true) as Hr0'.
    { apply (proj1 (Forall_forall _ _) Hnl). apply elem_of_app. right.
      by left. }
    destruct (consider_eligible re_match vp lr r0 Hr0' Hcompiles) as (x & Hc & Hx).
    rewrite Hc in Hr0. simpl in Hr0. subst x.
    destruct (proj1 (Hx ver r) eq_refl) as [-> ?]. done. }
  exists before, after, ver. split; [done|]. split; [done|]. split.
  - intros r' ver' Hin Hel'. apply (Hbefore (ver', r')).
    rewrite <- Hmb. apply list_elem_of_omap. exists r'. split; [done|].
    apply Hspec; [|done]. apply elem_of_app. by left.
  - intros r' ver' Hin Hel'. apply (Hgreatest (ver', r')).
    apply elem_of_app. right. right. rewrite <- Hma.
    apply list_elem_of_omap. exists r'. split; [done|].
    apply Hspec; [|done]. apply elem_of_app. right. by right.
Qed.

End SelectionOrder.

(** ** What a stage may do *)

Section Confinement.

Context {A : Type} (allowed : event → Prop).

Lemma confined_ret (a : A) : confined allowed (ret a).
Proof. intros s. exists []. by rewrite app_nil_r. Qed.

Lemma confined_raise (r : raised) : confined allowed (raise r : M A).
Proof. intros s. exists []. by rewrite app_nil_r. Qed.

Lemma confined_probe (f : state → A) : confined allowed (probe f).
Proof. intros s. exists []. by rewrite app_nil_r. Qed.

Lemma confined_bind {B : Type} (m : M B) (k : B → M A) :
  confined allowed m → (∀ b, confined allowed (k b)) →
  confined allowed (bind m k).
Proof.
  intros Hm Hk s. unfold bind. destruct (Hm s) as (l1 & Ht1 & Hl1 & Hc1).
  destruct (m s) as [[b|r] s1]; simpl in *.
  - destruct (Hk b s1) as (l2 & Ht2 & Hl2 & Hc2). exists (l1 ++ l2).
    rewrite Ht2, Ht1, Hc2, Hc1. rewrite <- app_assoc.
    split; [done|]. split; [by apply Forall_app|done].
  - by exists l1.
Qed.

Lemma confined_try_except (m : M A) (h : raised → option (M A)) :
  confined allowed m → (∀ r k, h r = Some k → confined allowed k) →
  confined allowed (try_except m h).
Proof.
  intros Hm Hh s. unfold try_except. destruct (Hm s) as (l1 & Ht1 & Hl1 & Hc1).
  destruct (m s) as [[a|r] s1]; simpl in *; [by exists l1|].
  destruct (h r) as [k|] eqn:Hr; [|by exists l1].
  destruct (Hh r k Hr s1) as (l2 & Ht2 & Hl2 & Hc2). exists (l1 ++ l2).
  rewrite Ht2, Ht1, Hc2, Hc1. rewrite <- app_assoc.
  split; [done|]. split; [by apply Forall_app|done].
Qed.

End Confinement.

Section ConfinedPrimitives.

Context (E : env) (allowed : event → Prop).

Lemma confined_logger (lv : level) (msg : string) :
  confined allowed (logger lv msg).
Proof. intros s. exists []. by rewrite app_nil_r. Qed.

Lemma confined_makedirs (d : string) : confined allowed (makedirs d).
Proof.
  intros s. exists []. rewrite app_nil_r.
  destruct (makedirs d s) as [o s'] eqn:Hmk. simpl.
  pose proof (makedirs_cwd _ _ _ _ Hmk).
  apply makedirs_files in Hmk as (_ & Ht & _). done.
Qed.

Lemma confined_read_file (p : string) : confined allowed (read_file p).
Proof.
  intros s. exists []. rewrite app_nil_r. unfold read_file.
  by destruct (files s !! p).
Qed.

Lemma confined_write_file (p d : string) :
  allowed (EvWrite p d) → confined allowed (write_file p d).
Proof.
  intros Hok s. unfold write_file. destruct (is_dir p s); simpl.
  - exists []. by rewrite app_nil_r.
  - exists [EvWrite p d]. split; [done|]. split; [|done].
    by apply Forall_singleton.
Qed.

Lemma confined_os_makedirs (d : string) : confined allowed (os_makedirs d).
Proof.
  intros s. exists []. rewrite app_nil_r.
  destruct (os_makedirs d s) as [o s'] eqn:Hmk. simpl.
  by apply os_makedirs_grows in Hmk as ((Hc & _) & _ & Ht & _).
Qed.

Lemma confined_open_write (p d : string) :
  allowed (EvWrite p d) → confined allowed (open_write p d).
Proof.
  intros Hok s. destruct (open_write p d s) as [[[]|r] s'] eqn:Hw.
  - apply open_write_ret in Hw as (q & _ & _ & _ & Hc & _ & Ht & _).
    exists [EvWrite p d]. split; [done|]. split; [|done].
    by apply Forall_singleton.
  - apply open_write_raise in Hw as ->. exists []. by rewrite app_nil_r.
Qed.

Lemma confined_run (cmd : list string) (v c k : bool) :
  (∀ res, allowed (EvSpawn cmd res)) → confined allowed (run E cmd v c k).
Proof.
  intros Hok s. exists [EvSpawn cmd (answer (spawn E cmd s))].
  unfold run. destruct (answer (spawn E cmd s)) as [rc out err|r] eqn:Hres;
    [destruct (k && negb (rc =? 0))|]; simpl;
    (split; [done|]); (split; [|done]); apply Forall_singleton;
    rewrite <- Hres; apply Hok.
Qed.

Lemma confined_for_each {B : Type} (l : list B) (body : B → M unit) :
  (∀ x, confined allowed (body x)) → confined allowed (for_each l body).
Proof.
  intros Hbody. induction l as [|x l IH]; [apply confined_ret|].
  simpl. apply confined_bind; [apply Hbody|]. by intros _.
Qed.

End ConfinedPrimitives.

(** ** The two ways of the checkout stage *)

Section CheckoutModes.

Context (E : env).

Ltac confine :=
  repeat first
    [ apply confined_bind; [|intros ?]
    | apply confined_ret
    | apply confined_raise
    | apply confined_probe
    | apply confined_logger
    | apply confined_makedirs
    | apply confined_read_file
    | apply confined_run; intros ?; by eexists _, _
    | apply confined_write_file; right; by eexists _, _
    | apply confined_os_makedirs
    | apply confined_open_write; right; by eexists _, _
    | apply confined_for_each; intros ? ].

Lemma update_commands_confined (v : bool) :
  confined git_event (update_commands E v).
Proof. unfold update_commands. confine. case_match; confine. Qed.

Lemma update_project_confined (v : bool) :
  confined git_event (update_project E v).
Proof.
  unfold update_project. apply confined_try_except.
  - apply update_commands_confined.
  - intros r k. unfold catch_exception. destruct r; [|done..].
    intros [= <-]. confine.
Qed.

Lemma urlopen_confined (url : string) (req : request) :
  req_url req = url → confined (archive_event url) (urlopen_ E req).
Proof.
  intros Hurl s. exists [EvRequest req]. unfold urlopen_.
  destruct (urlopen E req s); simpl; (split; [done|]); (split; [|done]);
    apply Forall_singleton; left; by exists req.
Qed.

Lemma build_request_url (url : string) (s s' : state) (req : request) :
  build_request E url s = (Ret req, s') → req_url req = url.
Proof.
  unfold build_request. rewrite bind_probe. unfold bind at 1.
  destruct (if exists_ _ s then _ else _) as [[h|x] s1]; [|done].
  by intros [= <- _].
Qed.

Lemma download_with_etag_confined (url : string) :
  confined (archive_event url) (download_with_etag E url).
Proof.
  unfold download_with_etag. apply confined_bind; [confine|]. intros _.
  intros s. destruct (build_request E url s) as [[req|x] s1] eqn:Hreq.
  - pose proof (build_request_url _ _ _ _ Hreq) as Hurl.
    pose proof (build_request_state E url s s1 _ Hreq) as ->.
    unfold bind. rewrite Hreq.
    assert (confined (archive_event url) (fetch E url req)) as Hfetch.
    { unfold fetch. apply confined_try_except.
      - apply confined_bind; [by apply urlopen_confined|]. intros r.
        case_match; confine.
      - intros r k. destruct r as [[]| |]; try done.
        case_match; [|done]. intros [= <-]. confine. }
    apply Hfetch.
  - pose proof (build_request_state E url s s1 _ Hreq) as ->.
    unfold bind. rewrite Hreq. exists []. by rewrite app_nil_r.
Qed.

Lemma download_github_zip_confined (url : string) :
  confined (archive_event url) (download_github_zip E url).
Proof.
  unfold download_github_zip. apply confined_bind; [confine|]. intros _.
  apply confined_try_except; [apply download_with_etag_confined|].
  intros r k. destruct r; [|done..]. intros [= <-]. confine.
Qed.

Lemma extract_archive_confined (url path extract_to : string) (ow v : bool)
  (force : gset string) :
  confined (archive_event url) (extract_archive E path extract_to ow v force).
Proof.
  unfold extract_archive, zip_open, root_prefix_of, extract_member,
    member_relpath.
  repeat first [progress confine|case_match].
Qed.

Lemma archive_events_spawn_nothing (url : string) (l : list event) :
  Forall (archive_event url) l → spawned l = [].
Proof.
  induction 1 as [|ev l Hev _ IH]; [done|].
  by destruct Hev as [(req & -> & _)|(p & d & ->)].
Qed.

(** Before anything else the checkout stage looks at the clone flags;
    with a git checkout in place they change nothing but the log. *)
Lemma main_checkout_existing (args : arguments) (has_git : bool)
  (course : string) (s : state) :
  is_dir (course +:+ "/.git") s = true →
  ∃ s1,
    files s1 = files s ∧ dirs s1 = dirs s ∧ cwd s1 = cwd s ∧
    trace s1 = trace s ∧
    main_checkout E args has_git course s =
      (if has_git then
         chdir course ;;
         logger INFO ("Updating project: " +:+ course) ;;
         update_project E (verbose args)
       else
         logger WARNING
           "Git command not found, cannot update existing git project") s1.
Proof.
  intros Hgit. unfold main_checkout.
  destruct (clone args || deep_clone args).
  - unfold bind at 1. rewrite bind_probe, Hgit. simpl.
    eexists (State _ _ _ _ _ _). split; [reflexivity|]. split; [reflexivity|].
    split; [reflexivity|]. split; [reflexivity|].
    rewrite bind_probe. unfold is_dir in *. simpl. by rewrite Hgit.
  - rewrite bind_ret_l, bind_probe, Hgit. by exists s.
Qed.

(** X11: with a git checkout in place the checkout stage updates it through
    git alone: every outside effect is a git command, no [Exception]
    leaves the stage, and the working directory becomes the checkout;
    without git it only warns. *)
Theorem main_checkout_updates_through_git (args : arguments)
  (course : string) (s : state) :
  is_dir (course +:+ "/.git") s = true →
  is_dir course s = true →
  (let r := main_checkout E args true course s in
   (∀ e, r.1 ≠ Raise (Exception e)) ∧
   cwd r.2 = course ∧
   Forall git_event (new_events s r.2)) ∧
  (let r := main_checkout E args false course s in
   r.1 = Ret tt ∧ new_events s r.2 = [] ∧ files r.2 = files s ∧
   cwd r.2 = cwd s ∧
   last (log r.2) =
     Some (WARNING,
           "Git command not found, cannot update existing git project")).
Proof.
  intros Hgit Hcourse. split.
  - destruct (main_checkout_existing args true course s Hgit)
      as (s1 & Hf & Hd & Hc & Ht & ->).
    set (s2 := State (files s1) (dirs s1) (clock s1) course
                 (log s1 ++ [(INFO, "Updating project: " +:+ course)])
                 (trace s1)).
    assert ((chdir course ;;
             logger INFO ("Updating project: " +:+ course) ;;
             update_project E (verbose args)) s1 =
            update_project E (verbose args) s2) as ->.
    { assert (is_dir course s1 = true) as Hdir.
      { unfold is_dir in *. by rewrite Hd. }
      unfold bind, chdir. by rewrite Hdir. }
    destruct (update_project_confined (verbose args) s2)
      as (l & Htl & Hall & Hcwd).
    destruct (update_project_cases E (verbose args) s2)
      as (o & s3 & l' & Hrun & _ & _ & _ & Hcases).
    split; [|split].
    + intros e He. destruct o as [u|[e'| |code]].
      * rewrite Hcases in He. simpl in He. done.
      * destruct Hcases as [Hret _]. by rewrite Hret in He.
      * rewrite Hcases in He. simpl in He. done.
      * rewrite Hcases in He. simpl in He. done.
    + by rewrite Hcwd.
    + rewrite (new_events_app s _ l); [done|]. by rewrite Htl, <- Ht.
  - destruct (main_checkout_existing args false course s Hgit)
      as (s1 & Hf & Hd & Hc & Ht & ->).
    simpl. split; [done|]. split; [|split; [done|split; [done|]]].
    + apply new_events_app. simpl. by rewrite app_nil_r.
    + by rewrite last_snoc.
Qed.

(** X12: without a clone flag and without a git checkout the stage works
    from the archive alone: it launches no subprocess, every request it
    sends is for [CODE_ARCHIVE], every other effect is the writing of a
    file, and when it returns the working directory is the course
    folder. *)
Theorem main_checkout_archive_mode (args : arguments) (has_git : bool)
  (course : string) (s : state) :
  clone args = false → deep_clone args = false →
  is_dir (course +:+ "/.git") s = false →
  let r := main_checkout E args has_git course s in
  Forall (archive_event (CODE_ARCHIVE E)) (new_events s r.2) ∧
  spawned (new_events s r.2) = [] ∧
  (r.1 = Ret tt → cwd r.2 = course ∧ is_dir course r.2 = true).
Proof.
  intros Hclone Hdeep Hgit r. subst r. unfold main_checkout.
  rewrite Hclone, Hdeep. simpl. rewrite bind_ret_l, bind_probe, Hgit.
  match goal with
  | |- context [new_events s (?m s).2] => destruct (m s) as [o s'] eqn:Hrun
  end.
  simpl. revert Hrun.
  destruct (download_github_zip_confined (CODE_ARCHIVE E) s)
    as (l1 & Ht1 & Hl1 & _).
  unfold bind at 1.
  destruct (download_github_zip E (CODE_ARCHIVE E) s) as [[p|x] s1];
    simpl in Ht1.
  2:{ intros [= <- <-]. rewrite (new_events_app s s1 l1 Ht1).
      split; [done|]. split; [by eapply archive_events_spawn_nothing|done]. }
  destruct (extract_archive_confined (CODE_ARCHIVE E) p course (force args)
              (verbose args) {["update.py"]} s1) as (l2 & Ht2 & Hl2 & _).
  unfold bind at 1.
  destruct (extract_archive E p course (force args) (verbose args) _ s1)
    as [[u|x] s2]; simpl in Ht2.
  2:{ intros [= <- <-]. rewrite (new_events_app s s2 (l1 ++ l2))
        by (by rewrite Ht2, Ht1, <- app_assoc).
      split; [by apply Forall_app|]. split; [|done].
      eapply archive_events_spawn_nothing. by apply Forall_app. }
  unfold chdir. destruct (is_dir course s2) eqn:Hdir; intros [= <- <-].
  - rewrite (new_events_app s _ (l1 ++ l2))
      by (simpl; by rewrite Ht2, Ht1, <- app_assoc).
    split; [by apply Forall_app|]. split.
    { eapply archive_events_spawn_nothing. by apply Forall_app. }
    intros _. split; [done|]. unfold is_dir in *. done.
  - rewrite (new_events_app s s2 (l1 ++ l2))
      by (by rewrite Ht2, Ht1, <- app_assoc).
    split; [by apply Forall_app|]. split; [|done].
    eapply archive_events_spawn_nothing. by apply Forall_app.
Qed.

End CheckoutModes.

(** ** The pages of the release list *)

Section ReleaseFeedFacts.

Variable requests_get : string → Z → Z → page_outcome.

Lemma get_release_pages_full (fuel : nat) (url : string) (per_page page : Z)
  (items acc : list json) :
  full_page requests_get url per_page page items →
  get_release_pages requests_get (S fuel) url per_page page acc =
  get_release_pages requests_get fuel url per_page (page + 1) (acc ++ items).
Proof.
  intros (Hne & status & reason & Hget & Hok). simpl. rewrite Hget. simpl.
  assert ((400 <=? status) && (status <? 600) = false) as ->.
  { apply andb_false_iff. destruct (Z.leb_spec 400 status); [right|by left].
    apply Z.ltb_ge. lia. }
  by destruct items.
Qed.

Lemma get_release_pages_through (batches : list (list json)) :
  ∀ (fuel : nat) (url : string) (per_page page : Z) (acc : list json),
  (∀ (i : nat) items, batches !! i = Some items →
     full_page requests_get url per_page (page + Z.of_nat i) items) →
  get_release_pages requests_get (length batches + fuel) url per_page page acc =
  get_release_pages requests_get fuel url per_page
    (page + Z.of_nat (length batches)) (acc ++ concat batches).
Proof.
  induction batches as [|items batches IH]; intros fuel url per_page page acc Hfull.
  { simpl. by rewrite Z.add_0_r, app_nil_r. }
  cbn [length Nat.add].
  rewrite (get_release_pages_full _ url per_page page items).
  2:{ specialize (Hfull 0%nat items eq_refl). by rewrite Z.add_0_r in Hfull. }
  rewrite IH.
  2:{ intros i its Hi. specialize (Hfull (S i) its Hi).
      by replace (page + 1 + Z.of_nat i) with (page + Z.of_nat (S i)) by lia. }
  cbn [concat]. rewrite app_assoc. f_equal. lia.
Qed.

Lemma get_release_pages_short (batches : list (list json)) :
  ∀ (fuel : nat) (url : string) (per_page page : Z) (acc : list json),
  (∀ (i : nat) items, batches !! i = Some items →
     full_page requests_get url per_page (page + Z.of_nat i) items) →
  (fuel ≤ length batches)%nat →
  get_release_pages requests_get fuel url per_page page acc = None.
Proof.
  induction batches as [|items batches IH]; intros fuel url per_page page acc Hfull Hle.
  { simpl in Hle. by replace fuel with 0%nat by lia. }
  destruct fuel as [|fuel]; [done|].
  rewrite (get_release_pages_full _ url per_page page items).
  2:{ specialize (Hfull 0%nat items eq_refl). by rewrite Z.add_0_r in Hfull. }
  apply IH; [|simpl in Hle; lia].
  intros i its Hi. specialize (Hfull (S i) its Hi).
  by replace (page + 1 + Z.of_nat i) with (page + Z.of_nat (S i)) by lia.
Qed.

(** X18: [get_release_assets] asks for the pages from the first one on and
    collects their releases in order. It returns what it has collected
    at the first empty page; an error status on a page ends it with the
    error, whatever it has collected; and as long as the pages are not
    empty it goes on asking: a bound on its steps that is not greater
    than the number of such pages leaves it without a result. *)
Theorem get_release_assets_collects (repo : string) (per_page : Z)
  (batches : list (list json)) :
  let url := "https://api.github.com/repos/" +:+ repo +:+ "/releases" in
  let last := Z.of_nat (length batches) + 1 in
  (∀ (i : nat) items, batches !! i = Some items →
     full_page requests_get url per_page (Z.of_nat i + 1) items) →
  (empty_page requests_get url per_page last →
   ∀ fuel, (length batches < fuel)%nat →
     get_release_assets requests_get fuel repo per_page =
       Some (Ret (concat batches))) ∧
  (∀ status reason,
     error_page requests_get url per_page last status reason →
     ∀ fuel, (length batches < fuel)%nat →
       get_release_assets requests_get fuel repo per_page =
         Some (Raise (Exception (HTTPError status reason)))) ∧
  (∀ fuel, (fuel ≤ length batches)%nat →
     get_release_assets requests_get fuel repo per_page = None).
Proof.
  intros url last Hfull. unfold get_release_assets. fold url.
  assert (∀ (i : nat) items, batches !! i = Some items →
            full_page requests_get url per_page (1 + Z.of_nat i) items)
    as Hfull'.
  { intros i items Hi. rewrite Z.add_comm. by apply Hfull. }
  assert (1 + Z.of_nat (length batches) = last) as Hlast by (unfold last; lia).
  split; [|split].
  - intros (status & reason & batch & Hget & Hok & Hempty) fuel Hfuel.
    replace fuel with (length batches + S (fuel - length batches - 1))%nat
      by lia.
    rewrite get_release_pages_through by done. rewrite Hlast. simpl.
    rewrite Hget. simpl.
    assert ((400 <=? status) && (status <? 600) = false) as ->.
    { apply andb_false_iff. destruct (Z.leb_spec 400 status); [right|by left].
      apply Z.ltb_ge. lia. }
    by rewrite Hempty.
  - intros status reason (Hbad & doc & Hget) fuel Hfuel.
    replace fuel with (length batches + S (fuel - length batches - 1))%nat
      by lia.
    rewrite get_release_pages_through by done. rewrite Hlast. simpl.
    rewrite Hget. simpl.
    assert ((400 <=? status) && (status <? 600) = true) as ->; [|done].
    apply andb_true_iff. split; [apply Z.leb_le|apply Z.ltb_lt]; lia.
  - intros fuel Hfuel. by apply (get_release_pages_short batches).
Qed.

End ReleaseFeedFacts.

(** ** The lines of the log *)

Section FormatterFacts.

Import pystr pyslice LogFormatter.

Lemma take_drop_str (n : nat) (s : string) : str_take n s +:+ str_drop n s = s.
Proof.
  revert s. induction n as [|n IH]; intros [|c s]; try done.
  cbn [str_take str_drop]. by rewrite app_cons, IH.
Qed.

Lemma contains_char_cons (c a : ascii) (s : string) :
  contains (String c "") (String a s) =
  Ascii.eqb c a || contains (String c "") s.
Proof. simpl. by rewrite andb_true_r. Qed.

Lemma find_contains (c : ascii) (s : string) :
  contains (String c "") s = negb (find c s <? 0).
Proof.
  induction s as [|a s IH]; [done|]. rewrite contains_char_cons, IH.
  cbn [find]. rewrite (Ascii.eqb_sym c a). destruct (Ascii.eqb a c); [done|].
  simpl. destruct (find c s <? 0) eqn:Hneg; [done|].
  apply Z.ltb_ge in Hneg. symmetry. apply negb_true_iff, Z.ltb_ge. lia.
Qed.

Lemma find_lower_bound (c : ascii) (s : string) : -1 ≤ find c s.
Proof.
  induction s as [|a s IH]; [done|]. cbn [find].
  destruct (Ascii.eqb a c); [lia|]. destruct (find c s <? 0); lia.
Qed.

(** Before the first [c] there is no [c]. *)
Lemma no_char_before (c : ascii) (s : string) (n : nat) :
  find c s < 0 ∨ Z.of_nat n ≤ find c s →
  contains (String c "") (str_take n s) = false.
Proof.
  revert n. induction s as [|a s IH]; intros n Hn.
  { by destruct n. }
  destruct n as [|n]; [done|]. cbn [str_take]. rewrite contains_char_cons.
  cbn [find] in Hn. rewrite (Ascii.eqb_sym c a).
  destruct (Ascii.eqb a c); [lia|]. simpl. apply IH.
  destruct (find c s <? 0) eqn:Hneg.
  - left. by apply Z.ltb_lt.
  - right. apply Z.ltb_ge in Hneg. lia.
Qed.

(** At the index [find] gives stands the character. *)
Lemma char_at_find (c : ascii) (s : string) :
  0 ≤ find c s →
  startswith (String c "") (str_drop (Z.to_nat (find c s)) s) = true.
Proof.
  induction s as [|a s IH]; [done|]. cbn [find].
  destruct (Ascii.eqb_spec a c) as [->|Hne].
  { intros _. simpl. by rewrite Ascii.eqb_refl. }
  destruct (find c s <? 0) eqn:Hneg; [lia|]. intros _.
  apply Z.ltb_ge in Hneg.
  replace (Z.to_nat (find c s + 1)) with (S (Z.to_nat (find c s))) by lia.
  cbn [str_drop]. by apply IH.
Qed.

Lemma lstrip_char_done (c : ascii) (s : string) :
  startswith (String c "") (lstrip_char c s) = false.
Proof.
  induction s as [|a s IH]; [done|]. simpl.
  destruct (Ascii.eqb_spec a c) as [->|Hne]; [done|]. simpl.
  rewrite andb_true_r. apply Ascii.eqb_neq. congruence.
Qed.

(** The part of a message that [format] sets in bold, and the rest *)
Lemma positions_split (body : string) :
  match positions body with
  | [] => contains "(" body = false ∧ contains ":" body = false
  | first :: rest =>
      let pos := min_list first rest in
      contains "(" (slice_to body pos) = false ∧
      contains ":" (slice_to body pos) = false ∧
      (startswith "(" (slice_from body pos) = true ∨
       startswith ":" (slice_from body pos) = true)
  end.
Proof.
  unfold positions.
  pose proof (find_contains "(" body) as Hp.
  pose proof (find_contains ":" body) as Hc.
  pose proof (char_at_find "(" body) as Hatp.
  pose proof (char_at_find ":" body) as Hatc.
  destruct (contains "(" body) eqn:Eqp; destruct (contains ":" body) eqn:Eqc;
    simpl; [..|done].
  - symmetry in Hp, Hc. apply negb_true_iff, Z.ltb_ge in Hp, Hc.
    unfold min_list, slice_to, slice_from, bound. simpl.
    assert ((Z.min (find "(" body) (find ":" body) <? 0) = false) as ->
      by (apply Z.ltb_ge; lia).
    split; [apply no_char_before; right; lia|].
    split; [apply no_char_before; right; lia|].
    destruct (Z.min_spec (find "(" body) (find ":" body)) as [[_ ->]|[_ ->]];
      [left|right]; auto.
  - symmetry in Hp, Hc. apply negb_true_iff, Z.ltb_ge in Hp.
    apply negb_false_iff, Z.ltb_lt in Hc.
    unfold min_list, slice_to, slice_from, bound. simpl.
    assert ((find "(" body <? 0) = false) as -> by (apply Z.ltb_ge; lia).
    split; [apply no_char_before; right; lia|].
    split; [apply no_char_before; left; lia|]. left. auto.
  - symmetry in Hp, Hc. apply negb_true_iff, Z.ltb_ge in Hc.
    apply negb_false_iff, Z.ltb_lt in Hp.
    unfold min_list, slice_to, slice_from, bound. simpl.
    assert ((find ":" body <? 0) = false) as -> by (apply Z.ltb_ge; lia).
    split; [apply no_char_before; left; lia|].
    split; [apply no_char_before; right; lia|]. right. auto.
Qed.

(** X14: a line of the log is the symbol of the level, a blank and the
    message without its leading carriage returns, after one carriage
    return when the message began with one and the output is a
    terminal. With colours, the message is set in bold up to its first
    parenthesis or colon, or as a whole when it has none, and nothing
    of it is lost. *)
Theorem format_highlights_head (self : LogFormatter.t) (isatty : bool)
  (no : Z) (message : string) :
  let body := lstrip_char cr message in
  let prefix := if startswith (String cr "") message && isatty
                then String cr "" else "" in
  let symbol := get_int no "?" SYMBOLS in
  startswith (String cr "") body = false ∧
  (use_color self = false →
   format self isatty no message = prefix +:+ symbol +:+ " " +:+ body) ∧
  (use_color self = true →
   ∃ head tail,
     body = head +:+ tail ∧
     contains "(" head = false ∧ contains ":" head = false ∧
     (tail = "" ∨ startswith "(" tail = true ∨ startswith ":" tail = true) ∧
     format self isatty no message =
       prefix +:+ (get_int no "" COLORS +:+ symbol +:+ RESET) +:+ " " +:+
       (BOLD +:+ head +:+ RESET +:+ tail)).
Proof.
  intros body prefix symbol. split; [apply lstrip_char_done|]. split.
  - intros Hplain. unfold format. by rewrite Hplain.
  - intros Hcolor. unfold format. rewrite Hcolor. fold body.
    pose proof (positions_split body) as Hsplit.
    destruct (positions body) as [|first rest].
    + destruct Hsplit as [Hp Hc]. exists body, "".
      rewrite !app_empty_r. by repeat split; auto.
    + simpl in Hsplit. destruct Hsplit as (Hp & Hc & Htail).
      exists (slice_to body (min_list first rest)),
        (slice_from body (min_list first rest)).
      split; [unfold slice_to, slice_from; by rewrite take_drop_str|].
      split; [done|]. split; [done|]. split; [by right|done].
Qed.

End FormatterFacts.

(** ** The progress bar *)

Section ProgressFacts.

Import pystr pyslice ProgressBar.

Lemma repeat_char_cons (c : ascii) (n : nat) :
  repeat (String c "") (S n) = String c (repeat (String c "") n).
Proof. reflexivity. Qed.

Lemma take_repeat (c : ascii) (n w : nat) :
  str_take n (repeat (String c "") w) = repeat (String c "") (Nat.min n w).
Proof.
  revert w. induction n as [|n IH]; intros [|w]; try done.
  rewrite repeat_char_cons. cbn [str_take Nat.min].
  by rewrite IH, repeat_char_cons.
Qed.

Lemma drop_repeat (c : ascii) (n w : nat) :
  str_drop n (repeat (String c "") w) = repeat (String c "") (w - n).
Proof.
  revert w. induction n as [|n IH]; intros [|w]; try done.
  rewrite repeat_char_cons. cbn [str_drop]. by rewrite IH.
Qed.

Lemma length_repeat_char (c : ascii) (n : nat) :
  String.length (repeat (String c "") n) = n.
Proof.
  induction n as [|n IH]; [done|]. rewrite repeat_char_cons. simpl.
  by rewrite IH.
Qed.

(** X15: the bar of a [ProgressBar] whose fill is one character has as many
    cells as its width says: after the first step it shows the fill
    character [progress] times, but at most [width] times, and dots in
    the cells that are left; at step 0 it shows dots only. It prints
    nothing, also at the end, when the output is verbose or not a
    terminal. *)
Theorem update_draws_width_cells (self : ProgressBar.t) (c : ascii)
  (progress : Z) :
  fill self = String c "" →
  0 ≤ progress →
  let w := Z.to_nat (width self) in
  let k := Nat.min (Z.to_nat progress) w in
  let spinner :=
    String.substring (Z.to_nat (progress mod 4)) 1 SPINNER in
  (verbose self = false → is_terminal self = true →
   update self progress =
     Some (if progress =? 0 then
             "   " +:+ String esc "[90m" +:+ repeat "." w
               +:+ String esc "[0m" +:+ spinner +:+ String esc "[1D"
           else
             String "013" "   " +:+ String esc "[1;31m"
               +:+ repeat (String c "") k +:+ String esc "[0;90m"
               +:+ repeat "." (w - k) +:+ String esc "[0m"
               +:+ spinner +:+ String esc "[1D") ∧
   String.length spinner = 1%nat ∧
   String.length (repeat (String c "") k +:+ repeat "." (w - k)) = w) ∧
  (verbose self = true ∨ is_terminal self = false →
   update self progress = None ∧ finish self = None).
Proof.
  intros Hfill Hpos w k spinner. split.
  - intros Hv Ht. unfold update. rewrite Hv, Ht. simpl orb.
    cbn [String.length SPINNER]. split; [|split].
    + change (Z.of_nat (String.length SPINNER)) with 4. fold spinner.
      destruct (progress =? 0) eqn:Hzero; [done|].
      apply Z.eqb_neq in Hzero. unfold times, slice_to, slice_from, bound.
      assert ((progress <? 0) = false) as -> by (apply Z.ltb_ge; lia).
      rewrite Hfill, take_repeat, drop_repeat. fold w. fold k.
      by replace (w - Z.to_nat progress)%nat with (w - k)%nat
        by (unfold k; lia).
    + assert (0 ≤ progress mod 4 < 4) as Hmod by (apply Z.mod_pos_bound; lia).
      unfold spinner.
      assert (Z.to_nat (progress mod 4) = 0 ∨ Z.to_nat (progress mod 4) = 1 ∨
              Z.to_nat (progress mod 4) = 2 ∨ Z.to_nat (progress mod 4) = 3)%nat
        as [->|[->|[->| ->]]] by lia; done.
    + rewrite app_length_str, !length_repeat_char. unfold k. lia.
  - intros Hsilent. unfold update, finish.
    assert (verbose self || negb (is_terminal self) = true) as ->; [|done].
    destruct Hsilent as [-> | ->]; [done|]. by rewrite orb_true_r.
Qed.

End ProgressFacts.

(** ** A second extraction *)

Section ExtractAgain.

Context (E : env).

Lemma extract_member_places (root extract_to : string) (ow : bool)
  (force : gset string) (m : zip_member) (s s' : state) :
  extract_member root extract_to ow force m s = (Ret tt, s') →
  is_dir_member m = false →
  ∃ rel, posixpath.relpath (cwd s) (filename m) root = Some rel ∧
         path_exists (posixpath.join2 extract_to rel) s' = true.
Proof.
  intros Hrun Hfile.
  destruct (posixpath.relpath (cwd s) (filename m) root) as [rel|] eqn:Hrel.
  2:{ unfold extract_member in Hrun. rewrite Hfile in Hrun.
      unfold bind at 1, member_relpath in Hrun.
      rewrite bind_probe, Hrel in Hrun. done. }
  exists rel. split; [done|].
  destruct (decide (must_write ow force rel (posixpath.join2 extract_to rel) s))
    as [Hyes|Hno].
  - rewrite (extract_member_write _ _ rel) in Hrun by done.
    by apply write_after_makedirs in Hrun as (_ & _ & _ & Hex & _).
  - rewrite (extract_member_skip _ _ rel) in Hrun by done.
    unfold logger in Hrun. injection Hrun as <-.
    eapply (path_exists_grows s); [by repeat split|].
    destruct (path_exists (posixpath.join2 extract_to rel) s) eqn:Hex; [done|].
    destruct Hno. right. by left.
Qed.

(** After a loop over the members that came to its end, the target of
    every file member exists. *)
Lemma for_each_extract_places (root extract_to : string) (ow : bool)
  (force : gset string) (members : list zip_member) :
  ∀ s s',
    for_each members (extract_member root extract_to ow force) s = (Ret tt, s') →
    ∀ m, m ∈ members → is_dir_member m = false →
      ∃ rel, posixpath.relpath (cwd s) (filename m) root = Some rel ∧
             path_exists (posixpath.join2 extract_to rel) s' = true.
Proof.
  induction members as [|m members IH]; intros s s' Hrun.
  { intros m Hm. by apply elem_of_nil in Hm. }
  simpl in Hrun. unfold bind at 1 in Hrun.
  destruct (extract_member root extract_to ow force m s) as [[[]|r] s1] eqn:Hm;
    [|done].
  pose proof (extract_member_grows _ _ _ _ _ _ _ _ Hm) as Hg1.
  pose proof (for_each_extract_grows _ _ _ _ _ _ _ _ Hrun) as Hg.
  intros m' [->|Hin]%elem_of_cons Hfile.
  - destruct (extract_member_places _ _ _ _ _ _ _ Hm Hfile) as (rel & Hrel & Hex).
    exists rel. split; [done|]. by eapply path_exists_grows.
  - destruct (IH s1 s' Hrun m' Hin Hfile) as (rel & Hrel & Hex).
    exists rel. split; [|done]. destruct Hg1 as (<- & _). done.
Qed.

(** A loop without the overwrite flag over members whose targets all
    exist writes the forced files only. *)
Lemma for_each_extract_forced (root extract_to : string)
  (force : gset string) (members : list zip_member) :
  ∀ s o s',
    (∀ m, m ∈ members → is_dir_member m = false →
       ∃ rel, posixpath.relpath (cwd s) (filename m) root = Some rel ∧
              path_exists (posixpath.join2 extract_to rel) s = true) →
    for_each members (extract_member root extract_to false force) s = (o, s') →
    ∃ l, trace s' = trace s ++ l ∧
         Forall (λ ev, ∃ rel d, rel ∈ force ∧
                   ev = EvWrite (posixpath.join2 extract_to rel) d) l.
Proof.
  induction members as [|m members IH]; intros s o s' Hexist Hrun.
  { simpl in Hrun. injection Hrun as <- <-. exists []. by rewrite app_nil_r. }
  simpl in Hrun. unfold bind at 1 in Hrun.
  destruct (extract_member root extract_to false force m s) as [o1 s1] eqn:Hm.
  pose proof (extract_member_effect _ _ _ _ _ _ _ _ Hm) as [Hg1 Heffect].
  assert (∃ l1, trace s1 = trace s ++ l1 ∧
            Forall (λ ev, ∃ rel d, rel ∈ force ∧
                      ev = EvWrite (posixpath.join2 extract_to rel) d) l1)
    as (l1 & Ht1 & Hl1).
  { destruct Heffect as [[_ Ht]|(rel & q & Hfile & Hrel & _ & _ & Ht & Hw)].
    - exists []. by rewrite app_nil_r.
    - exists [EvWrite (posixpath.join2 extract_to rel) (payload m)].
      split; [done|]. apply Forall_singleton. exists rel, (payload m).
      split; [|done].
      destruct (Hexist m ltac:(by left) Hfile) as (rel' & Hrel' & Hex).
      assert (rel' = rel) as -> by congruence.
      destruct Hw as [?|[Hno|?]]; [done| |done]. congruence. }
  destruct o1 as [[]|r].
  - destruct (IH s1 o s') as (l2 & Ht2 & Hl2); [|done|].
    + intros m' Hin Hfile.
      destruct (Hexist m' ltac:(by right) Hfile) as (rel & Hrel & Hex).
      exists rel. split; [|by eapply path_exists_grows].
      destruct Hg1 as (-> & _). done.
    + exists (l1 ++ l2). rewrite Ht2, Ht1, <- app_assoc.
      split; [done|]. by apply Forall_app.
  - injection Hrun as <- <-. by exists l1.
Qed.

(** X4: extracting is safe to repeat: after an extraction that came to its
    end, a second extraction of the same archive without the overwrite
    flag writes nothing but the files of the force-overwrite set. *)
Theorem extract_archive_again_writes_forced_only (path extract_to : string)
  (ow v v' : bool) (force : gset string) (s s1 : state) (data : string)
  (members : list zip_member) :
  files s !! path = Some data →
  zip_infolist E data = Some members →
  extract_archive E path extract_to ow v force s = (Ret tt, s1) →
  files s1 !! path = Some data →
  ∀ p d,
    EvWrite p d ∈
      new_events s1 (extract_archive E path extract_to false v' force s1).2 →
    ∃ rel, rel ∈ force ∧ p = posixpath.join2 extract_to rel.
Proof.
  intros Hdata Hzip Hfirst Hdata1 p d.
  destruct members as [|first rest].
  { destruct (extract_archive_prelude E path extract_to ow v force s)
      as (s0 & Hf0 & _ & _ & _ & Heq0).
    rewrite Heq0 in Hfirst.
    unfold bind at 1, zip_open, bind at 1, read_file in Hfirst.
    rewrite Hf0, Hdata, Hzip in Hfirst. done. }
  destruct (extract_archive_loop E path extract_to ow v force s data first rest
              Hdata Hzip) as (s0 & _ & _ & Hc0 & _ & Heq0).
  rewrite Heq0 in Hfirst.
  pose proof (for_each_extract_grows _ _ _ _ _ _ _ _ Hfirst) as (Hcwd & _).
  pose proof (for_each_extract_places _ _ _ _ _ _ _ Hfirst) as Hplaces.
  destruct (extract_archive_loop E path extract_to false v' force s1 data
              first rest Hdata1 Hzip) as (s2 & Hf2 & Hd2 & Hc2 & Ht2 & ->).
  destruct (for_each _ _ s2) as [o s3] eqn:Hsecond.
  apply (for_each_extract_forced
           (hd "" (pystr.split pystr.slash (filename first)) +:+ "/")
           extract_to force (first :: rest)) in Hsecond as (l & Ht3 & Hl).
  - simpl. rewrite (new_events_app s1 s3 l) by (by rewrite Ht3, Ht2).
    intros Hin. apply (proj1 (Forall_forall _ _) Hl) in Hin
      as (rel & d' & Hrel & [= -> _]).
    by exists rel.
  - intros m Hm Hfile. destruct (Hplaces m Hm Hfile) as (rel & Hrel & Hex).
    exists rel. split; [congruence|].
    eapply (path_exists_grows s1); [|done].
    split; [done|]. split; [by rewrite Hd2|].
    intros p'. unfold is_file. by rewrite Hf2.
Qed.

End ExtractAgain.

(** ** Commands that cannot be launched, metadata that cannot be read *)

Section LaunchFailures.

Context (E : env).

Lemma run_launch_failure (cmd : list string) (v c k : bool) (s : state)
  (x : raised) :
  answer (spawn E cmd s) = Failed x →
  ∃ s', run E cmd v c k s = (Raise x, s') ∧
        trace s' = trace s ++ [EvSpawn cmd (Failed x)] ∧ log s' = log s.
Proof. intros Hx. unfold run. rewrite Hx. by eexists. Qed.

(** X6: only a return code other than 0 is tried again: when git cannot be
    launched at all, [git_clone_with_retries] raises the error of the
    launch after this one attempt, without a pause. *)
Theorem git_clone_with_retries_launch_failure (url dest : string)
  (timeout : Z) (v deep : bool) (s : state) (x : raised) :
  0 < timeout →
  (∀ s0, answer (spawn E (clone_command url dest deep) s0) = Failed x) →
  (∀ cmd rc, x ≠ Exception (CalledProcessError cmd rc)) →
  ∃ s', git_clone_with_retries E url dest timeout v deep s = (Raise x, s') ∧
        new_events s s' = [EvSpawn (clone_command url dest deep) (Failed x)].
Proof.
  intros Htime Hfail Hx. rewrite git_clone_with_retries_loop.
  set (s0 := (logger _ _ s).2). rewrite clone_attempts_step.
  assert ((clock s0 - clock s <? 1000 * timeout) = true) as ->.
  { apply Z.ltb_lt. simpl. lia. }
  destruct (run_launch_failure (clone_command url dest deep) v false true s0 x
              (Hfail s0)) as (s' & -> & Ht & _).
  exists s'. split.
  - destruct x as [[cmd rc| | | | | | |]| |]; try done.
    by destruct (Hx cmd rc).
  - by apply new_events_app.
Qed.

(** X9: the reconciliation of the extensions survives commands that end
    with a return code other than 0, not an editor that cannot be
    launched: the error of the first launch leaves the function, after
    this one command and without a warning. *)
Theorem manage_vscode_extensions_launch_failure (exts : extension_set)
  (first : string) (rest : list string) (v : bool) (s : state) (x : raised) :
  install exts = first :: rest →
  (∀ s0, answer (spawn E (install_command first) s0) = Failed x) →
  (∀ cmd rc, x ≠ Exception (CalledProcessError cmd rc)) →
  ∃ s', manage_vscode_extensions E exts v s = (Raise x, s') ∧
        new_events s s' = [EvSpawn (install_command first) (Failed x)] ∧
        log s' = log s ++ [(INFO, "Managing VS Code extensions (user-level)")].
Proof.
  intros Hinstall Hfail Hx. unfold manage_vscode_extensions.
  unfold bind at 1. simpl. set (s0 := State _ _ _ _ _ _).
  rewrite Hinstall. unfold bind at 1. cbn [collect_failures].
  unfold bind at 1, install_extension, try_except, bind at 1.
  fold (install_command first).
  assert ((if pystr.contains "@" first
           then run E ["code"; "--install-extension"; first] v false true
           else run E ["code"; "--install-extension"; first; "--force"]
                  v false true) = run E (install_command first) v false true)
    as ->.
  { unfold install_command. by destruct (pystr.contains "@" first). }
  destruct (run_launch_failure (install_command first) v false true s0 x
              (Hfail s0)) as (s' & -> & Ht & Hl).
  assert (catch_called_process_error (ret true) x = None) as ->.
  { destruct x as [[cmd rc| | | | | | |]| |]; try done. by destruct (Hx cmd rc). }
  exists s'. split; [done|]. split; [by apply new_events_app|done].
Qed.

Lemma build_request_unreadable (url text : string) (s : state) :
  files s !! meta_path E url = Some text →
  build_request E url s =
  match json_load E text with
  | None => (Raise (Exception (OtherError "JSONDecodeError")), s)
  | Some (JObj fields) => build_request E url s
  | Some _ =>
      (Raise (Exception (AttributeError "object has no attribute 'get'")), s)
  end.
Proof.
  intros Hmeta.
  assert (exists_ (meta_path E url) s = true) as Hex.
  { unfold exists_, is_file. rewrite Hmeta.
    by rewrite bool_decide_eq_true_2 by by eexists. }
  destruct (json_load E text) as [doc|] eqn:Hload.
  - destruct doc; try reflexivity;
      unfold build_request; rewrite bind_probe, Hex;
      unfold bind at 1, conditional_headers, bind at 1, read_file;
      rewrite Hmeta; unfold bind at 1; by rewrite Hload.
  - unfold build_request. rewrite bind_probe, Hex.
    unfold bind at 1, conditional_headers, bind at 1, read_file.
    rewrite Hmeta. unfold bind at 1. by rewrite Hload.
Qed.

(** X3: metadata that cannot be read stops the download before a request
    is sent: a metadata file that is not JSON, or whose document is not
    an object, makes [download_with_etag] raise and leaves everything
    as it was. *)
Theorem download_with_etag_corrupt_metadata (url text : string) (s : state) :
  is_dir (cache_dir E) s = true →
  files s !! meta_path E url = Some text →
  (json_load E text = None →
   download_with_etag E url s =
     (Raise (Exception (OtherError "JSONDecodeError")), s)) ∧
  (∀ doc, json_load E text = Some doc → (∀ fields, doc ≠ JObj fields) →
     download_with_etag E url s =
       (Raise (Exception (AttributeError "object has no attribute 'get'")), s)).
Proof.
  intros Hdir Hmeta.
  assert (download_with_etag E url s =
          (req <- build_request E url ;; fetch E url req) s) as ->.
  { unfold download_with_etag.
    by rewrite (bind_eq _ _ s s tt)
      by (apply makedirs_present; [done|apply cache_dir_nonempty]). }
  pose proof (build_request_unreadable url text s Hmeta) as Hreq.
  split.
  - intros Hload. rewrite Hload in Hreq. by rewrite (bind_raise _ _ s s _ Hreq).
  - intros doc Hload Hdoc. rewrite Hload in Hreq.
    destruct doc as [| | | | |fields];
      try (by rewrite (bind_raise _ _ s s _ Hreq)).
    by destruct (Hdoc fields).
Qed.

End LaunchFailures.

(** ** The interpreter check *)

Section InterpreterCheck.

Context (E : env).

(** X13: on an interpreter other than Python 3.12 [main] raises before it
    logs, launches or writes anything, and the process ends with status
    1 after the one line that names the version found. *)
Theorem main_rejects_other_interpreter (args : arguments) (major minor : Z)
  (s : state) :
  parse_args E = Parsed args →
  version_info E = (major, minor) →
  (major, minor) ≠ (3, 12) →
  let message := "Python 3.12 required, found " +:+ pystr.of_Z major +:+ "."
                   +:+ pystr.of_Z minor in
  main E s = (Raise (Exception (RuntimeError message)), s) ∧
  dunder_main E s = (1, (logger CRITICAL ("Error: " +:+ message) s).2).
Proof.
  intros Hargs Hversion Hother message.
  assert (main E s = (Raise (Exception (RuntimeError message)), s)) as Hmain.
  { unfold main. rewrite Hargs. rewrite bind_ret_l.
    apply bind_raise. unfold verify_python. rewrite Hversion.
    destruct ((major =? 3) && (minor =? 12)) eqn:Hok; [|done].
    apply andb_true_iff in Hok as [->%Z.eqb_eq ->%Z.eqb_eq]. done. }
  split; [done|]. unfold dunder_main. by rewrite Hmain.
Qed.

End InterpreterCheck.

(** ** A line feed after the tag *)

Section TagLineFeed.

Import pystr get_release.

Lemma isdigit_nl : isdigit nl = false.
Proof. reflexivity. Qed.

Lemma span_digits_nl (s : string) :
  span_digits (s +:+ String nl "") =
  ((span_digits s).1, (span_digits s).2 +:+ String nl "").
Proof.
  induction s as [|c s IH]; [done|]. rewrite app_cons. simpl.
  destruct (isdigit c); [|simpl; by rewrite app_cons].
  rewrite IH. by destruct (span_digits s).
Qed.

Lemma dot_groups_nl (n : nat) (s : string) :
  dot_groups n (s +:+ String nl "") =
  ((dot_groups n s).1, (dot_groups n s).2 +:+ String nl "").
Proof.
  revert s. induction n as [|n IH]; intros s; [done|].
  destruct s as [|c r]; [done|]. rewrite app_cons. simpl.
  destruct (Ascii.eqb c "."); [|simpl; by rewrite app_cons].
  rewrite span_digits_nl. destruct (span_digits r) as [d rest]. simpl.
  destruct d as [|a d]; [simpl; by rewrite app_cons|].
  rewrite IH. by destruct (dot_groups n rest).
Qed.

Lemma endswith_nl_app (s : string) :
  endswith_char nl (s +:+ String nl "") = true.
Proof.
  induction s as [|c s IH]; [done|]. rewrite app_cons.
  destruct s as [|c' s]; [done|]. exact IH.
Qed.

Lemma substring_but_last (s : string) :
  String.substring 0 (String.length (s +:+ String nl "") - 1)
    (s +:+ String nl "") = s.
Proof.
  rewrite app_length_str. simpl.
  replace (String.length s + 1 - 1)%nat with (String.length s) by lia.
  induction s as [|c s IH]; [done|]. rewrite app_cons. simpl. by rewrite IH.
Qed.

Lemma label_tail_nl (rest : string) :
  no_newline rest = true →
  label_tail (rest +:+ String nl "") = label_tail rest.
Proof.
  intros Hnl. destruct rest as [|c r]; [done|].
  rewrite no_newline_cons in Hnl. apply andb_true_iff in Hnl as [Hc Hr].
  apply negb_true_iff in Hc. rewrite app_cons. cbn [label_tail].
  assert (String.eqb (String c (r +:+ String nl "")) (String nl "") = false)
    as ->.
  { simpl. by rewrite Hc. }
  assert (String.eqb (String c r) (String nl "") = false) as ->.
  { simpl. by rewrite Hc. }
  destruct (Ascii.eqb c "-"); [|done].
  rewrite endswith_nl_app, substring_but_last.
  by rewrite (no_newline_end r Hr).
Qed.

(** X16: the pattern of [parse_tag] is not strict about one thing: its [$]
    also matches before a final line feed, so a tag followed by a line
    feed parses like the tag alone. *)
Theorem parse_tag_ignores_final_line_feed (tag : string) :
  no_newline tag = true →
  parse_tag (tag +:+ String nl "") = parse_tag tag.
Proof.
  intros Hnl. destruct tag as [|c r]; [done|].
  rewrite app_cons. unfold parse_tag.
  destruct (Ascii.eqb c "v"); [|done].
  rewrite no_newline_cons in Hnl. apply andb_true_iff in Hnl as [_ Hr].
  rewrite span_digits_nl.
  destruct (span_digits_split r) as (Hsplit & _ & _).
  destruct (span_digits r) as [major rest]. cbn [fst snd] in *.
  destruct major as [|a major]; [done|].
  rewrite dot_groups_nl.
  destruct (dot_groups_split 2 rest) as (ds & _ & _ & _ & Hrest).
  destruct (dot_groups 2 rest) as [groups rest']. cbn [fst snd] in *.
  rewrite label_tail_nl; [done|].
  rewrite Hsplit, Hrest, !no_newline_app in Hr.
  apply andb_true_iff in Hr as [_ Hr]. by apply andb_true_iff in Hr as [_ Hr].
Qed.

End TagLineFeed.

(** ** The further properties on the sample machine *)

Section FurtherInstances.

Import get_release.

Lemma download_with_etag_sends_saved_validators_witness :
  ∃ s', download_with_etag quiet_env sample_url (sample_state ∅ ∅) =
          (Ret (cache_path quiet_env sample_url), s') ∧
        ∃ l, new_events s' (download_with_etag quiet_env sample_url s').2 =
               EvRequest (Request sample_url
                            [("User-Agent", JStr "Client");
                             ("If-None-Match", JStr "v1")]) :: l.
Proof.
  destruct (download_with_etag_sends_saved_validators quiet_env sample_url
              (sample_state ∅ ∅)
              (makedirs (cache_dir quiet_env) (sample_state ∅ ∅)).2
              (Request sample_url [("User-Agent", JStr "Client")])
              (Response 200 "PK:course" [("ETag", "v1")])
              [("ETag", JStr "v1")])
    as (s' & Hrun & _ & Hnext).
  - by vm_compute.
  - by vm_compute.
  - by vm_compute.
  - simpl. lia.
  - by vm_compute.
  - by vm_compute.
  - by vm_compute.
  - by vm_compute.
  - by vm_compute.
  - exists s'. split; [exact Hrun|exact Hnext].
Defined.

Lemma select_latest_matching_release_first_of_equals_witness :
  select_latest_matching_release literal_match tied_releases None None =
    Some (Some (get_release.Release "v1.2" [])) ∧
  ∃ before after ver,
    tied_releases = before ++ get_release.Release "v1.2" [] :: after ∧
    eligible literal_match None None (get_release.Release "v1.2" []) ver ∧
    (∀ r' ver', r' ∈ before → eligible literal_match None None r' ver' →
                get_release.version_gt ver ver' = true) ∧
    (∀ r' ver', r' ∈ after → eligible literal_match None None r' ver' →
                get_release.version_gt ver' ver = false).
Proof.
  split; [by vm_compute|].
  apply (select_latest_matching_release_first_of_equals literal_match
           tied_releases None None (get_release.Release "v1.2" [])).
  - repeat (apply Forall_cons; split; [by vm_compute|]). apply Forall_nil_2.
  - intros Hset. done.
  - by vm_compute.
Defined.

Lemma main_checkout_updates_through_git_witness :
  let r := main_checkout conflicting_env sample_arguments true sample_dest
             git_checkout in
  (∀ e, r.1 ≠ Raise (Exception e)) ∧
  cwd r.2 = sample_dest ∧
  Forall git_event (new_events git_checkout r.2).
Proof.
  apply (main_checkout_updates_through_git conflicting_env sample_arguments
           sample_dest git_checkout); by vm_compute.
Defined.

Lemma main_checkout_archive_mode_witness :
  let s := sample_state ∅ ∅ in
  let r := main_checkout quiet_env sample_arguments true sample_dest s in
  Forall (archive_event (CODE_ARCHIVE quiet_env)) (new_events s r.2) ∧
  spawned (new_events s r.2) = [] ∧
  (r.1 = Ret tt → cwd r.2 = sample_dest ∧ is_dir sample_dest r.2 = true).
Proof.
  apply (main_checkout_archive_mode quiet_env sample_arguments true sample_dest
           (sample_state ∅ ∅)); by vm_compute.
Defined.

Lemma get_release_assets_collects_witness :
  get_release_assets sample_feed 3 "eng209/assets" 100 =
    Some (Ret [JObj [("tag_name", JStr "v1.3.0-beta")];
               JObj [("tag_name", JStr "v1.2.5")];
               JObj [("tag_name", JStr "v1.2.0")]]) ∧
  get_release_assets sample_feed 2 "eng209/assets" 100 = None ∧
  get_release_assets broken_feed 3 "eng209/assets" 100 =
    Some (Raise (Exception (HTTPError 502 "Bad Gateway"))).
Proof.
  destruct (get_release_assets_collects sample_feed "eng209/assets" 100
              [[JObj [("tag_name", JStr "v1.3.0-beta")];
                JObj [("tag_name", JStr "v1.2.5")]];
               [JObj [("tag_name", JStr "v1.2.0")]]])
    as (Hempty & _ & Hshort).
  { intros [|[|i]] items [= <-].
    - split; [done|]. exists 200, "OK". split; [reflexivity|]. lia.
    - split; [done|]. exists 200, "OK". split; [reflexivity|]. lia. }
  destruct (get_release_assets_collects broken_feed "eng209/assets" 100
              [[JObj [("tag_name", JStr "v1.3.0-beta")];
                JObj [("tag_name", JStr "v1.2.5")]]])
    as (_ & Herror & _).
  { intros [|i] items [= <-].
    split; [done|]. exists 200, "OK". split; [reflexivity|]. lia. }
  split; [|split].
  - apply Hempty; [|simpl; lia].
    exists 200, "OK", (JArr []). split; [reflexivity|]. split; [lia|done].
  - apply Hshort. simpl. lia.
  - apply Herror; [|simpl; lia]. split; [lia|]. by exists None.
Defined.

Lemma update_draws_width_cells_witness :
  ProgressBar.update sample_bar 5 =
    Some (String "013" "   " +:+ String ProgressBar.esc "[1;31m"
            +:+ "*****" +:+ String ProgressBar.esc "[0;90m"
            +:+ "............" +:+ String ProgressBar.esc "[0m"
            +:+ "/" +:+ String ProgressBar.esc "[1D").
Proof.
  destruct (update_draws_width_cells sample_bar "*" 5) as [Hdraw _].
  - reflexivity.
  - lia.
  - destruct Hdraw as [Hbar _]; [reflexivity..|]. exact Hbar.
Defined.

Lemma extract_archive_again_writes_forced_only_witness :
  let s := edited_state "PK:course" in
  let s1 := (extract_archive quiet_env "/tmp/main.zip" sample_dest false false
               {["update.py"]} s).2 in
  Forall (λ ev, match ev with
                | EvWrite p _ => p = sample_dest +:+ "/update.py"
                | _ => True
                end)
    (new_events s1 (extract_archive quiet_env "/tmp/main.zip" sample_dest
                      false false {["update.py"]} s1).2).
Proof.
  intros s s1. apply Forall_forall. intros ev Hin.
  destruct ev as [| |p d|]; try exact I.
  destruct (extract_archive_again_writes_forced_only quiet_env "/tmp/main.zip"
              sample_dest false false false {["update.py"]} s s1 "PK:course"
              course_archive) with (p := p) (d := d) as (rel & Hrel & ->).
  - by vm_compute.
  - by vm_compute.
  - by vm_compute.
  - by vm_compute.
  - exact Hin.
  - apply elem_of_singleton in Hrel as ->. reflexivity.
Defined.

Lemma git_clone_with_retries_launch_failure_witness :
  ∃ s', git_clone_with_retries interrupted_env (sample_project +:+ ".git")
          sample_dest 15 false false (sample_state ∅ ∅) =
          (Raise KeyboardInterrupt, s') ∧
        length (trace s') = 1%nat.
Proof.
  destruct (git_clone_with_retries_launch_failure interrupted_env
              (sample_project +:+ ".git") sample_dest 15 false false
              (sample_state ∅ ∅) KeyboardInterrupt)
    as (s' & Hrun & Hnew).
  - lia.
  - reflexivity.
  - done.
  - exists s'. split; [exact Hrun|]. unfold new_events in Hnew. simpl in Hnew.
    rewrite drop_0 in Hnew. by rewrite Hnew.
Defined.

Lemma manage_vscode_extensions_launch_failure_witness :
  ∃ s', manage_vscode_extensions interrupted_env VSCODE_EXTENSIONS false
          (sample_state ∅ ∅) = (Raise KeyboardInterrupt, s') ∧
        log s' = [(INFO, "Managing VS Code extensions (user-level)")].
Proof.
  destruct (manage_vscode_extensions_launch_failure interrupted_env
              VSCODE_EXTENSIONS "ms-python.python@2025.12.0"
              (tail (install VSCODE_EXTENSIONS)) false (sample_state ∅ ∅)
              KeyboardInterrupt)
    as (s' & Hrun & _ & Hlog).
  - reflexivity.
  - reflexivity.
  - done.
  - exists s'. split; [exact Hrun|exact Hlog].
Defined.

Lemma download_with_etag_corrupt_metadata_witness :
  download_with_etag quiet_env sample_url corrupt_cache_state =
    (Raise (Exception (OtherError "JSONDecodeError")), corrupt_cache_state).
Proof.
  destruct (download_with_etag_corrupt_metadata quiet_env sample_url "{"
              corrupt_cache_state) as [Hbad _].
  - by vm_compute.
  - by vm_compute.
  - apply Hbad. reflexivity.
Defined.

Lemma verify_tool_reports_witness :
  let r := verify_git versioned_env false (sample_state ∅ ∅) in
  r.1 = Ret true ∧ log r.2 = [(INFO, "GIT OK: git version 2.43.0")].
Proof.
  destruct (verify_tool_reports versioned_env "git" "GIT OK: " "Git not found"
              (sample_state ∅ ∅)) as (_ & Hline & _).
  apply (Hline "git version 2.43.0").
  exists ("git version 2.43.0" +:+ String pystr.nl ""), "".
  split; [reflexivity|]. split; [by vm_compute|by vm_compute].
Defined.

Lemma download_github_zip_wraps_errors_witness :
  let s := sample_state ∅ ∅ in
  let r := download_github_zip missing_archive_env sample_url s in
  r.1 = Raise (Exception (RuntimeError
          ("Download failed: " +:+ sample_url +:+ String pystr.nl ""
             +:+ "HTTP Error 404: Not Found"))) ∧
  files r.2 = files s ∧
  ∃ req, new_events s r.2 = [EvRequest req].
Proof.
  intros s r.
  destruct (download_github_zip_wraps_errors missing_archive_env sample_url s)
    as (_ & _ & _ & _ & Hhttp & _).
  destruct (Hhttp 404 "Not Found") as (Hraise & _ & Hfiles & Hreq).
  - by vm_compute.
  - split; [exact Hraise|]. split; [exact Hfiles|exact Hreq].
Defined.

Lemma git_clone_with_retries_attempts_bounded_witness :
  let s := sample_state ∅ ∅ in
  let r := git_clone_with_retries quiet_env (sample_project +:+ ".git")
             sample_dest 0 false false s in
  new_events s r.2 = [] ∧
  r.1 = Raise (Exception (RuntimeError
          ("Failed to clone " +:+ sample_project +:+ ".git"))).
Proof.
  intros s r.
  destruct (git_clone_with_retries_attempts_bounded quiet_env
              (sample_project +:+ ".git") sample_dest 0 false false s)
    as (_ & _ & Hzero).
  destruct (Hzero ltac:(lia)) as (Hnone & _ & Hraise).
  split; [exact Hnone|]. apply Hraise. by vm_compute.
Defined.

Lemma format_highlights_head_witness :
  ∃ head tail,
    "Python OK: 3.12" = head +:+ tail ∧
    pystr.contains "(" head = false ∧ pystr.contains ":" head = false ∧
    (tail = "" ∨ pystr.startswith "(" tail = true
     ∨ pystr.startswith ":" tail = true) ∧
    LogFormatter.format (LogFormatter.init true true) true
      (LogFormatter.levelno INFO) "Python OK: 3.12" =
      "" +:+ (String LogFormatter.esc "[1;32m" +:+ "✓" +:+ LogFormatter.RESET)
        +:+ " " +:+ (LogFormatter.BOLD +:+ head +:+ LogFormatter.RESET +:+ tail).
Proof.
  destruct (format_highlights_head (LogFormatter.init true true) true
              (LogFormatter.levelno INFO) "Python OK: 3.12")
    as (_ & _ & Hcolor).
  exact (Hcolor eq_refl).
Defined.

Lemma main_rejects_other_interpreter_witness :
  dunder_main old_python_env (sample_state ∅ ∅) =
    (1, (logger CRITICAL "Error: Python 3.12 required, found 3.9"
           (sample_state ∅ ∅)).2).
Proof.
  destruct (main_rejects_other_interpreter old_python_env sample_arguments 3 9
              (sample_state ∅ ∅)) as [_ Hexit]; [reflexivity|reflexivity|done|].
  exact Hexit.
Defined.

Lemma parse_tag_ignores_final_line_feed_witness :
  parse_tag ("v1.2.5-rc1" +:+ String pystr.nl "") =
    (Some "v1.2.5", Some "rc1").
Proof.
  rewrite (parse_tag_ignores_final_line_feed "v1.2.5-rc1"); reflexivity.
Defined.

End FurtherInstances.
